(** * Kanban board store and drag-and-drop commit logic

    A shallow embedding of [src/store/useBoardStore.ts] (the zustand store
    with its persisted-state migration) and of the drag handlers of
    [src/components/DndBoard.tsx], followed by the properties of the
    specification that concern them.

    Conventions of the embedding:
    - a JavaScript [number] used as an id, an index or a clock reading is an
      integer [Z] (ids come from literals and from [Date.now()]; [NaN] and
      fractional indices are outside the model);
    - an array is a [list]; [Array.prototype.find], [findIndex], [some],
      [filter], [map] and [splice] are given below with the behaviour the
      language standard prescribes, including negative and oversized
      [splice] positions;
    - [set(partial)] of zustand merges the partial state into the current
      one, so an action is a function [BoardState -> BoardState];
    - [Date.now()] is an input of the actions that read the clock. *)

From Stdlib Require Import ZArith String Lia.
From stdpp Require Import base decidable option numbers list strings.

Local Open Scope Z_scope.

(** ** JavaScript array and value primitives *)

Module Js.

Section array.
Context {A : Type}.

(** [array.find(p)]: the first element satisfying [p], or [undefined]. *)
Definition find (P : A → Prop) `{!∀ x, Decision (P x)} (l : list A)
    : option A :=
  snd <$> list_find P l.

(** [array.findIndex(p)]: the first index whose element satisfies [p],
    or [-1]. *)
Definition findIndex (P : A → Prop) `{!∀ x, Decision (P x)} (l : list A)
    : Z :=
  match list_find P l with
  | Some (i, _) => Z.of_nat i
  | None => -1
  end.

(** [array.some(p)]. *)
Definition some (P : A → Prop) `{!∀ x, Decision (P x)} (l : list A)
    : bool :=
  bool_decide (Exists P l).

(** The position at which [splice(start, ...)] operates on an array of
    length [len]: a negative [start] counts back from the end, and the
    result is confined to [0 .. len]. *)
Definition actualStart (len start : Z) : Z :=
  if start <? 0 then Z.max (len + start) 0 else Z.min start len.

(** [array.splice(start, deleteCount, ...items)], as the pair of the
    removed elements (the call's value) and the array afterwards. *)
Definition splice (l : list A) (start deleteCount : Z) (new : list A)
    : list A * list A :=
  let len := Z.of_nat (length l) in
  let s := actualStart len start in
  let d := Z.min (Z.max deleteCount 0) (len - s) in
  (take (Z.to_nat d) (drop (Z.to_nat s) l),
   take (Z.to_nat s) l ++ new ++ drop (Z.to_nat (s + d)) l).
End array.

(** A value read back from JSON storage, as far as the migration looks at
    it. [JUndefined] stands for an absent property. *)
#[warnings="-register-all"]
Inductive Value : Type :=
| JUndefined
| JNull
| JBool (b : bool)
| JNum (n : Z)
| JStr (s : string)
| JArr (elems : list Value)
| JObj (fields : list (string * Value)).

(** [Array.isArray(v)]. *)
Definition isArray (v : Value) : bool :=
  match v with
  | JArr _ => true
  | _ => false
  end.

(** Truthiness, as [||] tests it. *)
Definition truthy (v : Value) : bool :=
  match v with
  | JUndefined | JNull => false
  | JBool b => b
  | JNum n => negb (n =? 0)
  | JStr s => negb (String.eqb s "")
  | JArr _ | JObj _ => true
  end.

(** [a || b]. *)
Definition or_else (a b : Value) : Value :=
  if truthy a then a else b.

(** What a byte adds to [s.length], which counts UTF-16 code units. The
    strings of this development are byte strings and hold a text in UTF-8:
    a byte that continues a character adds nothing, the first byte of a
    character of four bytes (a character above U+FFFF, a surrogate pair in
    UTF-16) adds two, and every other byte adds one. *)
Definition code_units (b : Ascii.ascii) : nat :=
  let n := Ascii.N_of_ascii b in
  if (n <? 128)%N then 1%nat
  else if (n <? 192)%N then 0%nat
  else if (n <? 240)%N then 1%nat
  else 2%nat.

(** [s.length] *)
Fixpoint length (s : string) : nat :=
  match s with
  | EmptyString => 0%nat
  | String b s => (code_units b + length s)%nat
  end.

End Js.

(** ** Data model ([src/types/store.ts]) *)

Record Comment : Type := mkComment {
  comment_id : string;
  comment_text : string;
  comment_author : option string;
  comment_createdAt : Z
}.

Record CardType : Type := mkCard {
  card_id : Z;
  card_title : string;
  card_description : option string;
  card_comments : list Comment
}.

Record ColumnType : Type := mkColumn {
  column_id : Z;
  column_title : string;
  items : list CardType
}.

(** The data part of the store's [BoardState]; the actions are the
    functions below. *)
Record BoardState : Type := mkBoard {
  boardTitle : string;
  hasHydrated : bool;
  columns : list ColumnType
}.

(** [{ ...column, items: xs }] *)
Definition with_items (column : ColumnType) (xs : list CardType) : ColumnType :=
  {| column_id := column_id column;
     column_title := column_title column;
     items := xs |}.

(** [{ ...column, title: t }] *)
Definition with_column_title (column : ColumnType) (t : string) : ColumnType :=
  {| column_id := column_id column;
     column_title := t;
     items := items column |}.

(** [set({ columns: cs })] *)
Definition set_columns (state : BoardState) (cs : list ColumnType) : BoardState :=
  {| boardTitle := boardTitle state;
     hasHydrated := hasHydrated state;
     columns := cs |}.

(** The ids of the cards of a column, in order. *)
Definition card_ids (column : ColumnType) : list Z :=
  card_id <$> items column.

(** The ids of the columns of a board, in order. *)
Definition column_ids (state : BoardState) : list Z :=
  column_id <$> columns state.

(** All card ids of a board, column after column. *)
Definition all_card_ids (state : BoardState) : list Z :=
  mjoin (card_ids <$> columns state).

(** The columns whose item list holds a card with the given id. *)
Definition holders (cardId : Z) (state : BoardState) : list ColumnType :=
  filter (λ column, cardId ∈ card_ids column) (columns state).

(** Every id in use on the board, of a card or of a column. *)
Definition board_ids (state : BoardState) : list Z :=
  column_ids state ++ all_card_ids state.

(** ** The store ([src/store/useBoardStore.ts]) *)

Definition initialColumns : list ColumnType :=
  [ mkColumn 3453453434 "Todo"
      [ mkCard 123134 "Create interview" None [];
        mkCard 12423423434 "Review Drag & Drop" None [] ];
    mkColumn 2 "In Progress"
      [ mkCard 345345243534 "Set up Next.js project" None [] ];
    mkColumn 3 "Done" [] ].

Definition initialState : BoardState :=
  {| boardTitle := "Demo Board"; hasHydrated := false; columns := initialColumns |}.

Definition setHasHydrated (b : bool) (state : BoardState) : BoardState :=
  {| boardTitle := boardTitle state; hasHydrated := b; columns := columns state |}.

Definition updateBoardTitle (newTitle : string) (state : BoardState) : BoardState :=
  {| boardTitle := newTitle; hasHydrated := hasHydrated state; columns := columns state |}.

(** [now] is the value of [Date.now()] at the call. *)
Definition addCard (now : Z) (columnId : Z) (title : string)
    (state : BoardState) : BoardState :=
  set_columns state
    ((λ column,
        if decide (column_id column = columnId)
        then with_items column (items column ++ [mkCard now title None []])
        else column) <$> columns state).

Definition moveCard (cardId fromColumnId toColumnId newIndex : Z)
    (state : BoardState) : BoardState :=
  let fromColumn :=
    Js.find (λ col, column_id col = fromColumnId) (columns state) in
  let cardToMove :=
    fromColumn ≫= λ col, Js.find (λ item, card_id item = cardId) (items col) in
  match cardToMove with
  | None => state
  | Some cardToMove =>
      let columnsWithoutCard :=
        (λ column,
           if decide (column_id column = fromColumnId)
           then with_items column
                  (filter (λ item, card_id item ≠ cardId) (items column))
           else column) <$> columns state in
      let updatedColumns :=
        (λ column,
           if decide (column_id column = toColumnId)
           then
             let newItems := items column in
             with_items column (Js.splice newItems newIndex 0 [cardToMove]).2
           else column) <$> columnsWithoutCard in
      set_columns state updatedColumns
  end.

Definition reorderCardsInColumn (columnId : Z) (cardIds : list Z)
    (state : BoardState) : BoardState :=
  set_columns state
    ((λ column,
        if decide (column_id column = columnId)
        then
          let reorderedItems :=
            omap id
              ((λ cardId, Js.find (λ item, card_id item = cardId) (items column))
                 <$> cardIds) in
          with_items column reorderedItems
        else column) <$> columns state).

Definition addColumn (now : Z) (title : string) (state : BoardState)
    : BoardState :=
  set_columns state (columns state ++ [mkColumn now title []]).

Definition deleteColumn (columnId : Z) (state : BoardState) : BoardState :=
  set_columns state
    (filter (λ column, column_id column ≠ columnId) (columns state)).

Definition updateColumnTitle (columnId : Z) (newTitle : string)
    (state : BoardState) : BoardState :=
  set_columns state
    ((λ column,
        if decide (column_id column = columnId)
        then with_column_title column newTitle
        else column) <$> columns state).

Definition reorderColumns (columnIds : list Z) (state : BoardState)
    : BoardState :=
  let reorderedColumns :=
    omap id
      ((λ i, Js.find (λ col, column_id col = i) (columns state))
         <$> columnIds) in
  set_columns state reorderedColumns.

(** [map_cards f] is the double [map] shared by the three card editors. *)
Definition map_cards (f : CardType → CardType) (state : BoardState)
    : BoardState :=
  set_columns state
    ((λ column, with_items column (f <$> items column)) <$> columns state).

(** [now_string] is [Date.now().toString()], [now] the second reading of
    the clock. *)
Definition addComment (now_string : string) (now : Z) (cardId : Z)
    (commentText : string) (state : BoardState) : BoardState :=
  map_cards
    (λ card,
       if decide (card_id card = cardId)
       then {| card_id := card_id card;
               card_title := card_title card;
               card_description := card_description card;
               card_comments :=
                 card_comments card
                   ++ [mkComment now_string commentText (Some "User"%string) now] |}
       else card) state.

Definition updateCardTitle (cardId : Z) (newTitle : string)
    (state : BoardState) : BoardState :=
  map_cards
    (λ card,
       if decide (card_id card = cardId)
       then {| card_id := card_id card;
               card_title := newTitle;
               card_description := card_description card;
               card_comments := card_comments card |}
       else card) state.

Definition updateCardDescription (cardId : Z) (description : string)
    (state : BoardState) : BoardState :=
  map_cards
    (λ card,
       if decide (card_id card = cardId)
       then {| card_id := card_id card;
               card_title := card_title card;
               card_description := Some description;
               card_comments := card_comments card |}
       else card) state.

(** *** The persisted snapshot and its migration

    The [persist] middleware hands [migrate] whatever JSON it finds under
    the storage key. The snapshot is the store's data with the two
    properties the migration inspects left untyped: a card's [comments] and
    the board's [boardTitle]. *)

Record PersistedCard : Type := mkPersistedCard {
  pcard_id : Z;
  pcard_title : string;
  pcard_description : option string;
  pcard_comments : Js.Value
}.

Record PersistedColumn : Type := mkPersistedColumn {
  pcolumn_id : Z;
  pcolumn_title : string;
  pcolumn_items : list PersistedCard
}.

Record PersistedState : Type := mkPersisted {
  p_boardTitle : Js.Value;
  p_hasHydrated : bool;
  p_columns : list PersistedColumn
}.

(** The version the store declares. *)
Definition store_version : Z := 2.

Definition migrate (persistedState : PersistedState) (version : Z)
    : PersistedState :=
  let state := persistedState in
  let state :=
    if decide (version = 0)
    then
      {| p_boardTitle := p_boardTitle state;
         p_hasHydrated := p_hasHydrated state;
         p_columns :=
           (λ column,
              {| pcolumn_id := pcolumn_id column;
                 pcolumn_title := pcolumn_title column;
                 pcolumn_items :=
                   (λ card,
                      {| pcard_id := pcard_id card;
                         pcard_title := pcard_title card;
                         pcard_description := pcard_description card;
                         pcard_comments :=
                           if Js.isArray (pcard_comments card)
                           then pcard_comments card
                           else Js.JArr [] |}) <$> pcolumn_items column |})
             <$> p_columns state |}
    else state in
  let state :=
    if decide (version ≤ 1)
    then
      {| p_boardTitle := Js.or_else (p_boardTitle state) (Js.JStr "Demo Board");
         p_hasHydrated := p_hasHydrated state;
         p_columns := p_columns state |}
    else state in
  state.

(** ** The drag handlers ([src/components/DndBoard.tsx]) *)

(** Modelled from the spec: [arrayMove] is imported from
    [@dnd-kit/sortable], which is not among the sources. The specification
    calls it the standard array move, "remove then insert at target index,
    where indices are computed from the order before the move"; the
    definition is the library's: copy the array, take the target position
    (a negative [to] counted from the end of the array as it is before the
    removal), splice one element out at [from] and splice it in at the
    target. Where [from] addresses no element the library inserts
    [undefined]; the model inserts nothing there, and the handlers never
    call it so (see [findIndex_addresses]). *)
Definition arrayMove {A : Type} (array : list A) (from to : Z) : list A :=
  let newArray := array in
  let target :=
    if to <? 0 then Z.of_nat (length newArray) + to else to in
  let '(removed, newArray) := Js.splice newArray from 1 [] in
  (Js.splice newArray target 0 (take 1 removed)).2.

(** The card shown in the drag overlay. *)
Record ActiveCard : Type := mkActiveCard {
  active_id : Z;
  active_title : string;
  commentCount : nat
}.

(** The local preview of the drop position. *)
Record DragPosition : Type := mkDragPosition {
  activeId : Z;
  fromColumnId : Z;
  toColumnId : Z;
  toIndex : Z
}.

(** The calls the component can make on the store. *)
Inductive StoreAction : Type :=
| MoveCard (cardId fromColumn toColumn newIndex : Z)
| ReorderCardsInColumn (columnId : Z) (cardIds : list Z)
| ReorderColumns (columnIds : list Z)
| AddCard (now columnId : Z) (title : string)
| AddColumn (now : Z) (title : string)
| DeleteColumn (columnId : Z)
| UpdateColumnTitle (columnId : Z) (newTitle : string).

Definition apply_action (a : StoreAction) : BoardState → BoardState :=
  match a with
  | MoveCard cardId from to newIndex => moveCard cardId from to newIndex
  | ReorderCardsInColumn columnId cardIds => reorderCardsInColumn columnId cardIds
  | ReorderColumns columnIds => reorderColumns columnIds
  | AddCard now columnId title => addCard now columnId title
  | AddColumn now title => addColumn now title
  | DeleteColumn columnId => deleteColumn columnId
  | UpdateColumnTitle columnId newTitle => updateColumnTitle columnId newTitle
  end.

(** A sequence of store calls, applied in order. *)
Definition run (acts : list StoreAction) (state : BoardState) : BoardState :=
  foldl (λ st a, apply_action a st) state acts.

(** What a handler of the component can read and change: the store, the
    snapshots the [persist] middleware has written (one per [set], latest
    last), the store calls made so far, and the component's own state. *)
Record World : Type := mkWorld {
  store : BoardState;
  storage_writes : list BoardState;
  store_calls : list StoreAction;
  activeCard : option ActiveCard;
  dragPosition : option DragPosition
}.

(** A store action called from the component: the store changes, the
    middleware writes the new snapshot. *)
Definition dispatch (a : StoreAction) (w : World) : World :=
  let st := apply_action a (store w) in
  {| store := st;
     storage_writes := storage_writes w ++ [st];
     store_calls := store_calls w ++ [a];
     activeCard := activeCard w;
     dragPosition := dragPosition w |}.

Definition setActiveCard (c : option ActiveCard) (w : World) : World :=
  {| store := store w;
     storage_writes := storage_writes w;
     store_calls := store_calls w;
     activeCard := c;
     dragPosition := dragPosition w |}.

Definition setDragPosition (p : option DragPosition) (w : World) : World :=
  {| store := store w;
     storage_writes := storage_writes w;
     store_calls := store_calls w;
     activeCard := activeCard w;
     dragPosition := p |}.

(** A draggable or droppable of dnd-kit: its id and the [type] of the data
    registered with it ([None] when it carries no data). *)
Record Entity : Type := mkEntity {
  entity_id : Z;
  entity_type : option string
}.

(** [DragStartEvent], [DragOverEvent] and [DragEndEvent], as far as the
    handlers read them. *)
Record DragEvent : Type := mkDragEvent {
  active : Entity;
  over : option Entity
}.

(** [data?.type === 'column'] *)
Definition is_column (e : Entity) : bool :=
  bool_decide (entity_type e = Some "column"%string).

Definition handleDragStart (event : DragEvent) (w : World) : World :=
  let columns := columns (store w) in
  if is_column (active event)
  then setActiveCard None w
  else
    let cardId := entity_id (active event) in
    (* the first column holding the card ends the loop *)
    match omap (λ column, Js.find (λ item, card_id item = cardId) (items column))
               columns with
    | card :: _ =>
        setActiveCard
          (Some {| active_id := card_id card;
                   active_title := card_title card;
                   commentCount := length (card_comments card) |}) w
    | [] => w
    end.

Definition handleDragOver (event : DragEvent) (w : World) : World :=
  let columns := columns (store w) in
  match over event with
  | None => setDragPosition None w
  | Some over =>
      if is_column (active event)
      then w
      else
        let activeId := entity_id (active event) in
        let overId := entity_id over in
        let activeColumn :=
          Js.find (λ col, Js.some (λ item, card_id item = activeId) (items col))
                  columns in
        let overColumn :=
          Js.find
            (λ col,
               let hasCardWithId :=
                 Js.some (λ item, card_id item = overId) (items col) in
               let isColumnId := bool_decide (column_id col = overId) in
               hasCardWithId || isColumnId)
            columns in
        match activeColumn, overColumn with
        | Some activeColumn, Some overColumn =>
            let toIndex :=
              if decide (column_id activeColumn = column_id overColumn)
              then
                let overIndex :=
                  Js.findIndex (λ item, card_id item = overId) (items overColumn) in
                if decide (overIndex ≠ -1) then overIndex
                else Z.of_nat (length (items overColumn))
              else
                let overIndex :=
                  Js.findIndex (λ item, card_id item = overId) (items overColumn) in
                if decide (overIndex ≠ -1) then overIndex
                else Z.of_nat (length (items overColumn)) in
            setDragPosition
              (Some {| activeId := activeId;
                       fromColumnId := column_id activeColumn;
                       toColumnId := column_id overColumn;
                       toIndex := toIndex |}) w
        | _, _ => setDragPosition None w
        end
  end.

Definition handleDragEnd (event : DragEvent) (w : World) : World :=
  let columns := columns (store w) in
  match over event with
  | None => setDragPosition None (setActiveCard None w)
  | Some over =>
      if is_column (active event) && is_column over
      then
        let activeIndex :=
          Js.findIndex (λ col, column_id col = entity_id (active event)) columns in
        let overIndex :=
          Js.findIndex (λ col, column_id col = entity_id over) columns in
        let w :=
          if decide (activeIndex ≠ overIndex)
          then
            let newColumnIds :=
              arrayMove (column_id <$> columns) activeIndex overIndex in
            dispatch (ReorderColumns newColumnIds) w
          else w in
        setDragPosition None (setActiveCard None w)
      else
        let w :=
          match dragPosition w with
          | Some {| activeId := activeId; fromColumnId := fromColumnId;
                    toColumnId := toColumnId; toIndex := toIndex |} =>
              if decide (fromColumnId = toColumnId)
              then
                match Js.find (λ col, column_id col = fromColumnId) columns with
                | Some column =>
                    let oldIndex :=
                      Js.findIndex (λ item, card_id item = activeId) (items column) in
                    if decide (oldIndex ≠ -1 ∧ oldIndex ≠ toIndex)
                    then
                      let newItems := arrayMove (items column) oldIndex toIndex in
                      dispatch
                        (ReorderCardsInColumn fromColumnId (card_id <$> newItems)) w
                    else w
                | None => w
                end
              else dispatch (MoveCard activeId fromColumnId toColumnId toIndex) w
          | None => w
          end in
        setDragPosition None (setActiveCard None w)
  end.

(** ** The forms around the store

    The components below take the text a user typed, trim it and hand it
    to a callback. A component is embedded with its callbacks as
    parameters: a callback acts on the state [S] of whoever supplies it.
    [String.prototype.trim] is a parameter [trim] of the handlers that
    call it: the statements hold whatever it computes. A string is falsy
    exactly when it is empty; its length is its number of characters. *)

(** *** The card dialog's wiring ([src/components/DndBoard.tsx]) *)

(** The store and the component's [selectedCardId] ([None] is [null]). *)
Record CardView : Type := mkCardView {
  view_store : BoardState;
  selectedCardId : option Z
}.

Definition handleCardClick (cardId : Z) (v : CardView) : CardView :=
  {| view_store := view_store v; selectedCardId := Some cardId |}.

Definition handleCloseCardModal (v : CardView) : CardView :=
  {| view_store := view_store v; selectedCardId := None |}.

(** The [selectedCard] memo: [!selectedCardId] holds for [null] and for 0;
    otherwise the loop returns the first card found, column by column. *)
Definition selectedCard (v : CardView) : option CardType :=
  match selectedCardId v with
  | None => None
  | Some selectedCardId =>
      if decide (selectedCardId = 0) then None
      else
        head (omap (λ column,
                      Js.find (λ c, card_id c = selectedCardId) (items column))
                   (columns (view_store v)))
  end.

(** [now_string] and [now] are the clock readings of [addComment]. *)
Definition handleAddComment (now_string : string) (now : Z) (text : string)
    (v : CardView) : CardView :=
  match selectedCardId v with
  | None => v
  | Some selectedCardId =>
      if decide (selectedCardId = 0) then v
      else
        {| view_store :=
             addComment now_string now selectedCardId text (view_store v);
           selectedCardId := Some selectedCardId |}
  end.

(** *** [src/components/modals/cardModal/CardModal.tsx] *)

Module CardModal.

(** The component's own state. *)
Record State : Type := mkState {
  commentText : string;
  isEditingTitle : bool;
  titleValue : string;
  isEditingDescription : bool;
  descriptionValue : string
}.

Definition handleClose {S : Type} (onClose : S → S) (m : State) (s : S)
    : State * S :=
  ({| commentText := "";
      isEditingTitle := false;
      titleValue := "";
      isEditingDescription := false;
      descriptionValue := "" |},
   onClose s).

(** The [Escape] branch of the dialog's key listener, and its
    non-[Escape] branch. *)
Definition handleEscape {S : Type} (onClose : S → S) (key : string)
    (m : State) (s : S) : State * S :=
  if decide (key = "Escape"%string)
  then
    if isEditingTitle m
    then ({| commentText := commentText m;
             isEditingTitle := false;
             titleValue := "";
             isEditingDescription := isEditingDescription m;
             descriptionValue := descriptionValue m |}, s)
    else if isEditingDescription m
    then ({| commentText := commentText m;
             isEditingTitle := isEditingTitle m;
             titleValue := titleValue m;
             isEditingDescription := false;
             descriptionValue := "" |}, s)
    else handleClose onClose m s
  else (m, s).

Definition startEditingTitle (cardTitle : string) (m : State) : State :=
  {| commentText := commentText m;
     isEditingTitle := true;
     titleValue := cardTitle;
     isEditingDescription := isEditingDescription m;
     descriptionValue := descriptionValue m |}.

Definition handleTitleSave {S : Type} (trim : string → string)
    (cardTitle : string) (onEditTitle : string → S → S)
    (m : State) (s : S) : State * S :=
  let trimmed := trim (titleValue m) in
  let s :=
    if decide (trimmed ≠ ""%string ∧ trimmed ≠ cardTitle)
    then onEditTitle trimmed s else s in
  ({| commentText := commentText m;
      isEditingTitle := false;
      titleValue := "";
      isEditingDescription := isEditingDescription m;
      descriptionValue := descriptionValue m |}, s).

Definition handleTitleKeyDown {S : Type} (trim : string → string)
    (cardTitle : string) (onEditTitle : string → S → S) (key : string)
    (m : State) (s : S) : State * S :=
  if decide (key = "Enter"%string)
  then handleTitleSave trim cardTitle onEditTitle m s
  else if decide (key = "Escape"%string)
  then ({| commentText := commentText m;
           isEditingTitle := false;
           titleValue := "";
           isEditingDescription := isEditingDescription m;
           descriptionValue := descriptionValue m |}, s)
  else (m, s).

(** [cardDescription || ''] *)
Definition shown_description (cardDescription : option string) : string :=
  match cardDescription with
  | Some d => d
  | None => ""
  end.

Definition startEditingDescription (cardDescription : option string)
    (m : State) : State :=
  {| commentText := commentText m;
     isEditingTitle := isEditingTitle m;
     titleValue := titleValue m;
     isEditingDescription := true;
     descriptionValue := shown_description cardDescription |}.

Definition handleDescriptionCancel (m : State) : State :=
  {| commentText := commentText m;
     isEditingTitle := isEditingTitle m;
     titleValue := titleValue m;
     isEditingDescription := false;
     descriptionValue := "" |}.

Definition handleDescriptionSave {S : Type} (trim : string → string)
    (cardDescription : option string) (onEditDescription : string → S → S)
    (m : State) (s : S) : State * S :=
  let trimmed := trim (descriptionValue m) in
  let s :=
    if decide (trimmed ≠ shown_description cardDescription)
    then onEditDescription trimmed s else s in
  (handleDescriptionCancel m, s).

Definition handleDescriptionKeyDown {S : Type} (trim : string → string)
    (cardDescription : option string) (onEditDescription : string → S → S)
    (ctrlKey metaKey : bool) (key : string) (m : State) (s : S) : State * S :=
  if (ctrlKey || metaKey) && bool_decide (key = "Enter"%string)
  then handleDescriptionSave trim cardDescription onEditDescription m s
  else if decide (key = "Escape"%string)
  then (handleDescriptionCancel m, s)
  else (m, s).

Definition handleSubmit {S : Type} (trim : string → string)
    (onAddComment : string → S → S) (m : State) (s : S) : State * S :=
  if decide (0 < String.length (trim (commentText m)))%nat
  then ({| commentText := "";
           isEditingTitle := isEditingTitle m;
           titleValue := titleValue m;
           isEditingDescription := isEditingDescription m;
           descriptionValue := descriptionValue m |},
        onAddComment (trim (commentText m)) s)
  else (m, s).

(** What [formatDate] returns: one of four labels with the number it
    shows, or the locale's rendering of the date. *)
Inductive Label : Type :=
| JustNow
| MinutesAgo (minutes : Z)
| HoursAgo (hours : Z)
| DaysAgo (days : Z)
| LocaleDate (timestamp : Z).

(** [now] is [new Date().getTime()]; [Math.floor] of a quotient of
    integers is [Z.div]. *)
Definition formatDate (now : Z) (timestamp : Z) : Label :=
  let diff := now - timestamp in
  let minutes := diff / 60000 in
  let hours := diff / 3600000 in
  let days := diff / 86400000 in
  if minutes <? 1 then JustNow
  else if minutes <? 60 then MinutesAgo minutes
  else if hours <? 24 then HoursAgo hours
  else if days <? 7 then DaysAgo days
  else LocaleDate timestamp.

End CardModal.

(** The dialog as [DndBoard] renders it: only when [selectedCard] is a
    card, with that card's title and description as props and the store's
    card editors, applied to that card's id, as callbacks. *)
Definition card_dialog_submit (trim : string → string)
    (now_string : string) (now : Z)
    (m : CardModal.State) (v : CardView) : CardModal.State * CardView :=
  match selectedCard v with
  | Some _ => CardModal.handleSubmit trim (handleAddComment now_string now) m v
  | None => (m, v)
  end.

Definition card_dialog_title_save (trim : string → string)
    (m : CardModal.State) (v : CardView) : CardModal.State * CardView :=
  match selectedCard v with
  | Some card =>
      CardModal.handleTitleSave trim (card_title card)
        (λ newTitle v,
           {| view_store := updateCardTitle (card_id card) newTitle (view_store v);
              selectedCardId := selectedCardId v |}) m v
  | None => (m, v)
  end.

Definition card_dialog_description_save (trim : string → string)
    (m : CardModal.State) (v : CardView) : CardModal.State * CardView :=
  match selectedCard v with
  | Some card =>
      CardModal.handleDescriptionSave trim (card_description card)
        (λ description v,
           {| view_store :=
                updateCardDescription (card_id card) description (view_store v);
              selectedCardId := selectedCardId v |}) m v
  | None => (m, v)
  end.

Definition card_dialog_escape (key : string)
    (m : CardModal.State) (v : CardView) : CardModal.State * CardView :=
  match selectedCard v with
  | Some _ => CardModal.handleEscape handleCloseCardModal key m v
  | None => (m, v)
  end.

(** *** [src/hooks/useEditableInput.ts] *)

Module EditableInput.

Record State : Type := mkState {
  isEditing : bool;
  value : string
}.

(** The state of the hook before any edit. *)
Definition initial : State := {| isEditing := false; value := "" |}.

Definition startEdit (initialValue : string) (e : State) : State :=
  {| isEditing := true; value := initialValue |}.

Definition cancel (e : State) : State :=
  {| isEditing := false; value := "" |}.

Definition save {S : Type} (trim : string → string) (initialValue : string)
    (onSave : string → S → S) (e : State) (s : S) : State * S :=
  let trimmedValue := trim (value e) in
  if decide (trimmedValue = ""%string)
  then ({| isEditing := false; value := "" |}, s)
  else
    let s :=
      if decide (trimmedValue ≠ initialValue) then onSave trimmedValue s
      else s in
    ({| isEditing := false; value := value e |}, s).

Definition handleKeyDown {S : Type} (trim : string → string)
    (initialValue : string) (onSave : string → S → S) (key : string)
    (e : State) (s : S) : State * S :=
  if decide (key = "Enter"%string) then save trim initialValue onSave e s
  else if decide (key = "Escape"%string) then (cancel e, s)
  else (e, s).

Definition handleChange (maxLength : option Z) (newValue : string) (e : State)
    : State :=
  match maxLength with
  | Some maxLength =>
      if decide (maxLength < Z.of_nat (Js.length newValue)) then e
      else {| isEditing := isEditing e; value := newValue |}
  | None => {| isEditing := isEditing e; value := newValue |}
  end.

End EditableInput.

(** The board title as the page shows it: an [EditableTitle] with the
    store's [boardTitle] as value, [updateBoardTitle] as callback and 50 as
    [maxLength]. *)
Definition board_title_save (trim : string → string)
    (e : EditableInput.State) (state : BoardState)
    : EditableInput.State * BoardState :=
  EditableInput.save trim (boardTitle state) updateBoardTitle e state.

Definition board_title_change (newValue : string) (e : EditableInput.State)
    : EditableInput.State :=
  EditableInput.handleChange (Some 50) newValue e.

(** *** [src/types/modal.ts], the hook [useModalState],
    [src/components/modals/modal/Modal.tsx] and the page *)

(** ['addCard' | 'addColumn'] *)
Inductive ModalType : Type :=
| ModalAddCard
| ModalAddColumn.

(** The hook's [ModalState]; [None] is [null], respectively an absent
    [columnId]. *)
Record ModalState : Type := mkModalState {
  isOpen : bool;
  modal_type : option ModalType;
  modal_columnId : option Z
}.

Definition openModal (type : ModalType) (columnId : option Z)
    (ms : ModalState) : ModalState :=
  {| isOpen := true; modal_type := Some type; modal_columnId := columnId |}.

Definition closeModal (ms : ModalState) : ModalState :=
  {| isOpen := false; modal_type := None; modal_columnId := None |}.

(** [handleConfirm] of the hook; [onConfirm] is the hook's argument. *)
Definition handleConfirm {S : Type}
    (onConfirm : ModalType → string → option Z → S → S)
    (input : string) (ms : ModalState) (s : S) : ModalState * S :=
  let s :=
    match modal_type ms with
    | Some type => onConfirm type input (modal_columnId ms) s
    | None => s
    end in
  (closeModal ms, s).

(** The callback the page gives the hook; [now] is the clock reading of
    the store action. *)
Definition page_onConfirm (now : Z) (type : ModalType) (input : string)
    (columnId : option Z) (state : BoardState) : BoardState :=
  match type, columnId with
  | ModalAddCard, Some columnId => addCard now columnId input state
  | ModalAddColumn, _ => addColumn now input state
  | ModalAddCard, None => state
  end.

Module Modal.

Record State : Type := mkState {
  value : string;
  error : string
}.

(** The effect that runs when [isOpen] becomes true. *)
Definition handleOpen (initialValue : string) (f : State) : State :=
  {| value := initialValue; error := "" |}.

Definition handleChange (newValue : string) (f : State) : State :=
  {| value := newValue; error := "" |}.

Definition handleSubmit {S : Type} (trim : string → string)
    (onConfirm : string → S → S) (f : State) (s : S) : State * S :=
  let trimmedValue := trim (value f) in
  if decide (trimmedValue = ""%string)
  then ({| value := value f; error := "This field cannot be empty" |}, s)
  else ({| value := ""; error := "" |}, onConfirm trimmedValue s).

Definition handleCancel {S : Type} (initialValue : string) (onClose : S → S)
    (f : State) (s : S) : State * S :=
  ({| value := initialValue; error := "" |}, onClose s).

End Modal.

(** The page: the hook's state and the store. The dialog's [onConfirm] is
    the hook's [handleConfirm] over the page's callback, its [onClose] the
    hook's [closeModal]; the page passes no [initialValue]. *)
Record Page : Type := mkPage {
  page_modal : ModalState;
  page_store : BoardState
}.

Definition page_confirm (now : Z) (input : string) (p : Page) : Page :=
  let '(ms, state) :=
    handleConfirm (page_onConfirm now) input (page_modal p) (page_store p) in
  {| page_modal := ms; page_store := state |}.

Definition page_close (p : Page) : Page :=
  {| page_modal := closeModal (page_modal p); page_store := page_store p |}.

Definition page_submit (trim : string → string) (now : Z)
    (f : Modal.State) (p : Page) : Modal.State * Page :=
  Modal.handleSubmit trim (page_confirm now) f p.

Definition page_cancel (f : Modal.State) (p : Page) : Modal.State * Page :=
  Modal.handleCancel "" page_close f p.

(** ** Vocabulary of the statements *)

(** The column the store resolves an id to: the first one carrying it. *)
Definition column_of (columnId : Z) (state : BoardState) : option ColumnType :=
  Js.find (λ col, column_id col = columnId) (columns state).

(** The card a column resolves an id to: the first one carrying it. *)
Definition card_of (cardId : Z) (column : ColumnType) : option CardType :=
  Js.find (λ item, card_id item = cardId) (items column).

(** "The card with id [cardId] is in the column [columnId]". *)
Definition card_in_column (cardId columnId : Z) (state : BoardState) : Prop :=
  ∃ column, column_of columnId state = Some column ∧ cardId ∈ card_ids column.

(** [x] put in front of position [p] of [l]. *)
Definition insert_at {A : Type} (p : nat) (x : A) (l : list A) : list A :=
  take p l ++ x :: drop p l.

(** The specification's wording of the insertion position of [moveCard]:
    "[newIndex] clamped to [[0, length]]". *)
Definition spec_clamp (newIndex len : Z) : Z :=
  Z.max 0 (Z.min newIndex len).

(** The position [moveCard] inserts at, in a list of length [len]. *)
Definition insertion_position (newIndex len : Z) : Z :=
  if decide (0 ≤ newIndex) then Z.min newIndex len
  else Z.max 0 (len + newIndex).

(** The items of a column once the card [cardId] has been taken out of the
    columns with id [fromColumnId]. *)
Definition without_card (cardId fromColumnId : Z) (column : ColumnType)
    : list CardType :=
  if decide (column_id column = fromColumnId)
  then filter (λ item, card_id item ≠ cardId) (items column)
  else items column.

(** The two steps of [migrate], named for the statements. *)
Definition normalise_comments (card : PersistedCard) : PersistedCard :=
  {| pcard_id := pcard_id card;
     pcard_title := pcard_title card;
     pcard_description := pcard_description card;
     pcard_comments :=
       if Js.isArray (pcard_comments card) then pcard_comments card
       else Js.JArr [] |}.

Definition migrate_0_to_1 (state : PersistedState) : PersistedState :=
  {| p_boardTitle := p_boardTitle state;
     p_hasHydrated := p_hasHydrated state;
     p_columns :=
       (λ column,
          {| pcolumn_id := pcolumn_id column;
             pcolumn_title := pcolumn_title column;
             pcolumn_items := normalise_comments <$> pcolumn_items column |})
         <$> p_columns state |}.

Definition migrate_1_to_2 (state : PersistedState) : PersistedState :=
  {| p_boardTitle := Js.or_else (p_boardTitle state) (Js.JStr "Demo Board");
     p_hasHydrated := p_hasHydrated state;
     p_columns := p_columns state |}.

(** The first position of [x] in [l]. *)
Definition index_of (x : Z) (l : list Z) : option nat :=
  fst <$> list_find (λ y, y = x) l.

(** The invariant of the data model: column ids are pairwise distinct and
    every card id occurs once on the whole board. *)
Definition board_inv (state : BoardState) : Prop :=
  NoDup (column_ids state) ∧ NoDup (all_card_ids state).

(** The calls the invariant of the cards is stated for. *)
Definition is_card_call (a : StoreAction) : Prop :=
  match a with
  | AddCard _ _ _ | MoveCard _ _ _ _ | ReorderCardsInColumn _ _ => True
  | _ => False
  end.

(** The calls of [addCard], [moveCard] and [reorderCardsInColumn] that keep
    the cards of the board: a card that is created gets a clock reading that
    is no card id yet, a card that is found and moved goes to an existing
    column, and the list a column is reordered by holds, among any ids that
    are no card's of the column (which the code skips), every card id of
    the column once. *)
Definition preserving (state : BoardState) (a : StoreAction) : Prop :=
  match a with
  | AddCard now columnId _ =>
      columnId ∈ column_ids state → now ∉ all_card_ids state
  | MoveCard cardId fromColumn toColumn _ =>
      card_in_column cardId fromColumn state → toColumn ∈ column_ids state
  | ReorderCardsInColumn columnId cardIds =>
      ∀ column, column_of columnId state = Some column →
                filter (λ cardId, cardId ∈ card_ids column) cardIds
                ≡ₚ card_ids column
  | _ => False
  end.

(** A sequence of such calls, each judged in the state it is made in. *)
Fixpoint admissible (state : BoardState) (acts : list StoreAction) : Prop :=
  match acts with
  | [] => True
  | a :: acts => preserving state a ∧ admissible (apply_action a state) acts
  end.

(** Two boards with the same columns, by id and title, holding cards with
    the same ids in the same places. *)
Definition same_layout (state state' : BoardState) : Prop :=
  column_ids state' = column_ids state ∧
  (column_title <$> columns state') = (column_title <$> columns state) ∧
  (card_ids <$> columns state') = (card_ids <$> columns state).

(** A snapshot in the shape of the current version: a truthy title, and
    every card's comments an array. *)
Definition snapshot_current (state : PersistedState) : Prop :=
  Js.truthy (p_boardTitle state) = true ∧
  ∀ column card,
    column ∈ p_columns state → card ∈ pcolumn_items column →
    Js.isArray (pcard_comments card) = true.

(** What a snapshot holds besides comments and board title: per column its
    id, its title and, per card, id, title and description. *)
Definition snapshot_cards (state : PersistedState)
    : list (Z * string * list (Z * string * option string)) :=
  (λ column,
     (pcolumn_id column, pcolumn_title column,
      (λ card, (pcard_id card, pcard_title card, pcard_description card))
        <$> pcolumn_items column)) <$> p_columns state.

(** The store calls a drag can end in. *)
Definition is_drag_commit (a : StoreAction) : Prop :=
  match a with
  | MoveCard _ _ _ _ | ReorderCardsInColumn _ _ | ReorderColumns _ => True
  | _ => False
  end.

(** A preview, if there is one, names a column of the board as target. *)
Definition preview_targets_column (state : BoardState)
    (p : option DragPosition) : Prop :=
  match p with
  | None => True
  | Some p => toColumnId p ∈ column_ids state
  end.

(** No title of the board is empty: not the board's, not a column's, not a
    card's. *)
Definition all_titled (state : BoardState) : Prop :=
  boardTitle state ≠ ""%string ∧
  ∀ column, column ∈ columns state →
    column_title column ≠ ""%string ∧
    ∀ card, card ∈ items column → card_title card ≠ ""%string.

(** ** Concrete boards *)

Definition sample_card (n : Z) : CardType := mkCard n "card" None [].

(** Columns [Todo] (id 10) with cards 1 and 2, and [Done] (id 20), empty. *)
Definition sample_board : BoardState :=
  {| boardTitle := "Demo Board";
     hasHydrated := true;
     columns := [ mkColumn 10 "Todo" [sample_card 1; sample_card 2];
                  mkColumn 20 "Done" [] ] |}.

(** The same with cards 3 and 4 in [Done]. *)
Definition busy_board : BoardState :=
  {| boardTitle := "Demo Board";
     hasHydrated := true;
     columns := [ mkColumn 10 "Todo" [sample_card 1; sample_card 2];
                  mkColumn 20 "Done" [sample_card 3; sample_card 4] ] |}.

(** A clock reading (milliseconds). *)
Definition tick : Z := 1700000000000.

(** The seed board after two [addCard] calls made within one millisecond,
    into [Todo] and into [In Progress]. *)
Definition same_tick_board : BoardState :=
  run [AddCard tick 3453453434 "first"; AddCard tick 2 "second"] initialState.

(** The component before any drag, on the seed board. *)
Definition seed_world : World :=
  {| store := initialState;
     storage_writes := [];
     store_calls := [];
     activeCard := None;
     dragPosition := None |}.

(** The column [Done] dropped on the column [Todo]. *)
Definition done_onto_todo : DragEvent :=
  {| active := mkEntity 3 (Some "column"%string);
     over := Some (mkEntity 3453453434 (Some "column"%string)) |}.

(** A snapshot of version 0: comments stored as an object, no title. *)
Definition old_snapshot : PersistedState :=
  {| p_boardTitle := Js.JUndefined;
     p_hasHydrated := false;
     p_columns :=
       [ mkPersistedColumn 3 "Done"
           [ mkPersistedCard 123134 "Create interview" None (Js.JObj []) ] ] |}.

(** The component before any drag, on [busy_board]. *)
Definition busy_world : World :=
  {| store := busy_board;
     storage_writes := [];
     store_calls := [];
     activeCard := None;
     dragPosition := None |}.

(** Card 1 dragged over card 3. *)
Definition card_1_over_card_3 : DragEvent :=
  {| active := mkEntity 1 (Some "card"%string);
     over := Some (mkEntity 3 (Some "card"%string)) |}.

(** Card 1 dragged over card 2, of its own column, with the preview that
    drag has. *)
Definition card_1_over_card_2 : DragEvent :=
  {| active := mkEntity 1 (Some "card"%string);
     over := Some (mkEntity 2 (Some "card"%string)) |}.

Definition reorder_world : World :=
  {| store := busy_board;
     storage_writes := [];
     store_calls := [];
     activeCard := None;
     dragPosition := Some (mkDragPosition 1 10 10 1) |}.

(** A board title of thirty accented letters. *)
Definition accented_title : string :=
  "éééééééééééééééééééééééééééééé".

(** The card dialog open on card 1 of [sample_board], its title being
    edited. *)
Definition shown_card_1 : CardView :=
  {| view_store := sample_board; selectedCardId := Some 1 |}.

Definition editing_title : CardModal.State :=
  CardModal.mkState "" true "Renamed" false "".

(** * Properties *)

(** ** Array primitives *)

Section find_facts.
Context {A : Type} (P : A → Prop) `{!∀ x, Decision (P x)}.

Lemma find_cons x l :
  Js.find P (x :: l) = if decide (P x) then Some x else Js.find P l.
Proof.
  unfold Js.find. cbn [list_find]. destruct (decide (P x)); [done|].
  by destruct (list_find P l) as [[? ?]|].
Qed.

Lemma find_Some l x : Js.find P l = Some x → x ∈ l ∧ P x.
Proof.
  induction l as [|y l IH]; [done|]. rewrite find_cons.
  destruct (decide (P y)); intros Hx.
  - injection Hx as <-. split; [left|done].
  - destruct (IH Hx). split; [by right|done].
Qed.

Lemma find_None l : Js.find P l = None ↔ ∀ x, x ∈ l → ¬ P x.
Proof.
  induction l as [|y l IH]; [split; [intros _ x Hx; inversion Hx|done]|].
  rewrite find_cons. destruct (decide (P y)) as [Hy|Hy].
  - split; [done|]. intros Hall. destruct (Hall y); [left|done].
  - rewrite IH. split.
    + intros Hall x Hx. apply elem_of_cons in Hx as [->|Hx]; auto.
    + intros Hall x Hx. apply Hall. by right.
Qed.

Lemma find_is_Some l x : x ∈ l → P x → is_Some (Js.find P l).
Proof.
  intros Hx HP. destruct (Js.find P l) eqn:E; [by eexists|].
  rewrite find_None in E. destruct (E x Hx HP).
Qed.

End find_facts.

Lemma actualStart_bounds len start :
  0 ≤ len → 0 ≤ Js.actualStart len start ≤ len.
Proof. unfold Js.actualStart. destruct (start <? 0) eqn:E; lia. Qed.

Lemma actualStart_position len newIndex :
  Js.actualStart len newIndex = insertion_position newIndex len.
Proof.
  unfold Js.actualStart, insertion_position.
  destruct (newIndex <? 0) eqn:E; destruct (decide (0 ≤ newIndex)); lia.
Qed.

Lemma insertion_position_bounds newIndex len :
  0 ≤ len → 0 ≤ insertion_position newIndex len ≤ len.
Proof. rewrite <- actualStart_position. apply actualStart_bounds. Qed.

Lemma splice_insert {A : Type} (l : list A) (newIndex : Z) (x : A) :
  (Js.splice l newIndex 0 [x]).2
  = insert_at (Z.to_nat (insertion_position newIndex (Z.of_nat (length l)))) x l.
Proof.
  unfold Js.splice, insert_at. cbn [snd].
  rewrite actualStart_position.
  pose proof (insertion_position_bounds newIndex (Z.of_nat (length l))
                ltac:(lia)) as Hb.
  do 2 f_equal. cbn [app]. do 2 f_equal. lia.
Qed.

Lemma length_insert_at {A : Type} (p : nat) (x : A) (l : list A) :
  length (insert_at p x l) = S (length l).
Proof.
  unfold insert_at. rewrite length_app. cbn [length].
  rewrite <- (take_drop p l) at 3. rewrite length_app. lia.
Qed.

Lemma insert_at_Permutation {A : Type} (p : nat) (x : A) (l : list A) :
  insert_at p x l ≡ₚ x :: l.
Proof.
  unfold insert_at. rewrite <- Permutation_middle. by rewrite take_drop.
Qed.

(** ** [moveCard] *)

Lemma moveCard_found cardId fromColumnId toColumnId newIndex state column card :
  column_of fromColumnId state = Some column →
  card_of cardId column = Some card →
  moveCard cardId fromColumnId toColumnId newIndex state
  = set_columns state
      ((λ column,
          let rest := without_card cardId fromColumnId column in
          if decide (column_id column = toColumnId)
          then with_items column
                 (insert_at
                    (Z.to_nat (insertion_position newIndex
                                 (Z.of_nat (length rest)))) card rest)
          else with_items column rest) <$> columns state).
Proof.
  unfold column_of, card_of, moveCard. intros -> Hcard. cbn [mbind option_bind].
  rewrite Hcard. f_equal. rewrite <- list_fmap_compose.
  apply list_fmap_ext. intros _ c _. unfold compose, without_card.
  destruct (decide (column_id c = fromColumnId)); cbn [column_id with_items items];
    destruct (decide (column_id c = toColumnId)); cbn [items];
    rewrite ?splice_insert; try reflexivity.
  by destruct c.
Qed.

Lemma card_in_column_found cardId columnId state :
  card_in_column cardId columnId state ↔
  ∃ column card,
    column_of columnId state = Some column ∧ card_of cardId column = Some card.
Proof.
  unfold card_in_column, card_of, card_ids. split.
  - intros (column & Hc & Hin). exists column.
    apply list_elem_of_fmap in Hin as (card & -> & Hin).
    destruct (find_is_Some (λ item, card_id item = card_id card)
                (items column) card Hin eq_refl) as [card' E].
    eauto.
  - intros (column & card & Hc & Hcard). exists column. split; [done|].
    apply find_Some in Hcard as [Hin <-]. by apply list_elem_of_fmap_2.
Qed.

#[global] Instance card_in_column_dec cardId columnId state :
  Decision (card_in_column cardId columnId state).
Proof.
  unfold card_in_column. destruct (column_of columnId state) as [c|].
  - destruct (decide (cardId ∈ card_ids c)) as [Hin|Hout].
    + left. by exists c.
    + right. by intros (c' & [= <-] & Hin).
  - right. by intros (c' & [=] & _).
Defined.

Lemma moveCard_not_found cardId fromColumnId toColumnId newIndex state :
  ¬ card_in_column cardId fromColumnId state →
  moveCard cardId fromColumnId toColumnId newIndex state = state.
Proof.
  intros Hno. unfold moveCard.
  destruct (Js.find _ (columns state)) as [column|] eqn:Hc; [|done].
  cbn [mbind option_bind].
  destruct (Js.find _ (items column)) as [card|] eqn:Hcard; [|done].
  destruct Hno. apply card_in_column_found. by exists column, card.
Qed.

Lemma find_fmap_column (k : Z) (f : ColumnType → ColumnType) (l : list ColumnType) :
  (∀ c, column_id (f c) = column_id c) →
  Js.find (λ col, column_id col = k) (f <$> l)
  = f <$> Js.find (λ col, column_id col = k) l.
Proof.
  intros Hf. induction l as [|c l IH]; [done|].
  rewrite fmap_cons, !find_cons, Hf, IH. by destruct (decide _).
Qed.

Lemma column_of_is_Some columnId state :
  columnId ∈ column_ids state ↔ is_Some (column_of columnId state).
Proof.
  unfold column_ids, column_of. split.
  - intros (c & -> & Hc)%list_elem_of_fmap.
    by apply (find_is_Some (λ col, column_id col = column_id c) _ c).
  - intros [c [Hc <-]%find_Some]. by apply list_elem_of_fmap_2.
Qed.

Lemma card_of_id cardId column card :
  card_of cardId column = Some card → card_id card = cardId.
Proof. by intros [_ ?]%find_Some. Qed.

(** C3. A [moveCard] whose card is not in the column [fromColumnId] (the
    column is unknown, or holds no card with that id) returns the state it
    was given: nothing is removed and nothing is inserted. *)
Theorem moveCard_absent_card_is_noop
    (cardId fromColumnId toColumnId newIndex : Z) (state : BoardState) :
  ¬ card_in_column cardId fromColumnId state →
  moveCard cardId fromColumnId toColumnId newIndex state = state.
Proof. apply moveCard_not_found. Qed.

(** C2, as amended. When the card is in the column [fromColumnId] and
    [toColumnId] is the id of a column, [moveCard] keeps the title, the flag
    and the sequence of columns with their ids and titles; a column with id
    [fromColumnId] loses its cards with id [cardId]; a column with id
    [toColumnId] then receives the card at position [insertion_position]:
    [min newIndex length] for [newIndex >= 0], which is the clamped index
    and is the end of the list when [newIndex] exceeds the length, and
    [max 0 (length + newIndex)] for a negative [newIndex]. The position
    always lies in [0 .. length]; afterwards the card is in the column
    [toColumnId]. *)
Theorem moveCard_moves_the_card
    (cardId fromColumnId toColumnId newIndex : Z) (state : BoardState) :
  card_in_column cardId fromColumnId state →
  toColumnId ∈ column_ids state →
  ∃ fromColumn card,
    column_of fromColumnId state = Some fromColumn ∧
    card_of cardId fromColumn = Some card ∧
    let state' := moveCard cardId fromColumnId toColumnId newIndex state in
    boardTitle state' = boardTitle state ∧
    hasHydrated state' = hasHydrated state ∧
    length (columns state') = length (columns state) ∧
    card_in_column cardId toColumnId state' ∧
    ∀ (i : nat) column, columns state !! i = Some column →
      ∃ column',
        columns state' !! i = Some column' ∧
        column_id column' = column_id column ∧
        column_title column' = column_title column ∧
        let rest := without_card cardId fromColumnId column in
        let len := Z.of_nat (length rest) in
        let pos := insertion_position newIndex len in
        0 ≤ pos ≤ len ∧
        (0 ≤ newIndex → pos = spec_clamp newIndex len) ∧
        (len < newIndex → pos = len) ∧
        items column' =
          if decide (column_id column = toColumnId)
          then insert_at (Z.to_nat pos) card rest
          else rest.
Proof.
  intros (fromColumn & card & Hfrom & Hcard)%card_in_column_found Hto.
  exists fromColumn, card. split; [done|]. split; [done|]. cbn zeta.
  rewrite (moveCard_found _ _ _ _ _ _ _ Hfrom Hcard).
  cbn [boardTitle hasHydrated columns set_columns].
  split; [done|]. split; [done|]. split; [by rewrite length_fmap|]. split.
  - apply column_of_is_Some in Hto as [toColumn HtoC].
    unfold card_in_column, column_of in *. cbn [columns set_columns].
    rewrite find_fmap_column, HtoC; [|intros c; cbn zeta; by destruct (decide _)].
    eexists. split; [reflexivity|]. cbn zeta.
    apply find_Some in HtoC as [_ HtoC]. rewrite decide_True by done.
    unfold card_ids, insert_at. cbn [items with_items].
    rewrite fmap_app, fmap_cons, (card_of_id _ _ _ Hcard).
    apply elem_of_app. right. left.
  - intros i column Hi. rewrite list_lookup_fmap, Hi. cbn [fmap option_fmap option_map].
    eexists. split; [reflexivity|]. cbn zeta.
    pose proof (insertion_position_bounds newIndex
      (Z.of_nat (length (without_card cardId fromColumnId column))) ltac:(lia)).
    destruct (decide (column_id column = toColumnId));
      (split; [done|]); (split; [done|]); (split; [done|]);
      (split; [unfold insertion_position, spec_clamp;
               intros; rewrite decide_True by done; lia|]);
      (split; [unfold insertion_position; intros;
               rewrite decide_True by lia; lia|]); done.
Qed.

(** C4, as amended. When the card is in the column [fromColumnId] and no
    column has the id [toColumnId], [moveCard] only takes the card out: each
    column keeps its place, id and title, a column with id [fromColumnId]
    loses its cards with id [cardId], and no column gains a card. Afterwards
    no column with id [fromColumnId] holds the card id; no column of the
    board at all holds it, provided the columns that held it before the
    call all had the id [fromColumnId]. *)
Theorem moveCard_unknown_target_drops_the_card
    (cardId fromColumnId toColumnId newIndex : Z) (state : BoardState) :
  card_in_column cardId fromColumnId state →
  toColumnId ∉ column_ids state →
  let state' := moveCard cardId fromColumnId toColumnId newIndex state in
  columns state'
  = (λ column, with_items column (without_card cardId fromColumnId column))
      <$> columns state ∧
  (∀ column, column ∈ columns state' →
     column_id column = fromColumnId → cardId ∉ card_ids column) ∧
  ((∀ column, column ∈ columns state →
      cardId ∈ card_ids column → column_id column = fromColumnId) →
   cardId ∉ all_card_ids state').
Proof.
  intros (fromColumn & card & Hfrom & Hcard)%card_in_column_found Hto state'.
  assert (Heq : columns state'
          = (λ column, with_items column (without_card cardId fromColumnId column))
              <$> columns state).
  { subst state'. rewrite (moveCard_found _ _ _ _ _ _ _ Hfrom Hcard).
    cbn [columns set_columns].
    apply list_fmap_ext. intros _ c Hc%list_elem_of_lookup_2. cbn zeta.
    rewrite decide_False; [done|]. intros E. apply Hto. rewrite <- E.
    by apply list_elem_of_fmap_2. }
  clearbody state'. rewrite Heq. split; [done|].
  assert (Hgone : ∀ c, column_id c = fromColumnId →
            cardId ∉ card_id <$> without_card cardId fromColumnId c).
  { intros c Hc (k & Hk & Hin)%list_elem_of_fmap. unfold without_card in Hin.
    rewrite decide_True in Hin by done.
    apply list_elem_of_filter in Hin as [Hne _]. by destruct Hne. }
  split.
  - intros column (c & -> & Hc)%list_elem_of_fmap Hid.
    unfold card_ids. cbn [items with_items]. by apply Hgone.
  - intros Honly. unfold all_card_ids. rewrite Heq.
    intros (ids & Hin & Hids)%list_elem_of_join.
    apply list_elem_of_fmap in Hids as (column & -> & Hcol).
    apply list_elem_of_fmap in Hcol as (c & -> & Hc).
    unfold card_ids in Hin. cbn [items with_items] in Hin.
    destruct (decide (column_id c = fromColumnId)) as [E|E].
    + by apply (Hgone c E).
    + unfold without_card in Hin. rewrite decide_False in Hin by done.
      by apply E, Honly.
Qed.

(** ** Reordering by ids *)

Lemma omap_id_fmap {A B : Type} (f : A → option B) (l : list A) :
  omap id (f <$> l) = omap f l.
Proof.
  induction l as [|x l IH]; [done|]. cbn. rewrite IH. by destruct (f x).
Qed.

Lemma card_of_in_column cardId column :
  cardId ∈ card_ids column ↔ is_Some (card_of cardId column).
Proof.
  unfold card_ids, card_of. split.
  - intros (c & -> & Hc)%list_elem_of_fmap.
    by apply (find_is_Some (λ item, card_id item = card_id c) _ c).
  - intros [c [Hc <-]%find_Some]. by apply list_elem_of_fmap_2.
Qed.

Lemma reordered_card_ids (column : ColumnType) (cardIds : list Z) :
  card_id <$> omap (λ cardId, card_of cardId column) cardIds
  = filter (λ cardId, cardId ∈ card_ids column) cardIds.
Proof.
  induction cardIds as [|k ks IH]; [done|]. cbn [omap list_omap].
  destruct (card_of k column) as [c|] eqn:E.
  - rewrite fmap_cons, IH, (card_of_id _ _ _ E), filter_cons_True; [done|].
    apply card_of_in_column. by rewrite E.
  - rewrite IH, filter_cons_False; [done|].
    rewrite card_of_in_column, E. by intros [? ?].
Qed.

Lemma reorderCardsInColumn_columns columnId cardIds state :
  columns (reorderCardsInColumn columnId cardIds state)
  = (λ column,
       if decide (column_id column = columnId)
       then with_items column (omap (λ cardId, card_of cardId column) cardIds)
       else column) <$> columns state.
Proof.
  unfold reorderCardsInColumn. cbn [columns set_columns].
  apply list_fmap_ext. intros _ c _. cbn zeta.
  destruct (decide _); [|done]. by rewrite omap_id_fmap.
Qed.

(** C5. [reorderCardsInColumn] keeps the title, the flag and the sequence of
    columns. A column with another id is left as it is. A column with id
    [columnId] keeps its id and title, and its item list becomes: the ids of
    [orderedCardIds], in that order, without those that are the id of no
    card of the column, each standing for the column's card with that id.
    When the board has a column with id [columnId], that is what the column
    holds afterwards. *)
Theorem reorderCardsInColumn_replaces_order
    (columnId : Z) (orderedCardIds : list Z) (state : BoardState) :
  columnId ∈ column_ids state →
  let state' := reorderCardsInColumn columnId orderedCardIds state in
  boardTitle state' = boardTitle state ∧
  hasHydrated state' = hasHydrated state ∧
  length (columns state') = length (columns state) ∧
  (∃ column column',
     column_of columnId state = Some column ∧
     column_of columnId state' = Some column' ∧
     card_ids column'
     = filter (λ cardId, cardId ∈ card_ids column) orderedCardIds) ∧
  ∀ (i : nat) column, columns state !! i = Some column →
    ∃ column',
      columns state' !! i = Some column' ∧
      column_id column' = column_id column ∧
      column_title column' = column_title column ∧
      if decide (column_id column = columnId)
      then
        card_ids column'
        = filter (λ cardId, cardId ∈ card_ids column) orderedCardIds ∧
        Forall (λ item, card_of (card_id item) column = Some item)
               (items column')
      else column' = column.
Proof.
  intros Hcol state'.
  assert (Hcols := reorderCardsInColumn_columns columnId orderedCardIds state).
  fold state' in Hcols.
  split; [done|]. split; [done|]. rewrite Hcols.
  split; [by rewrite length_fmap|]. split.
  - apply column_of_is_Some in Hcol as [column Hcolumn].
    exists column. eexists. split; [done|]. unfold column_of in *.
    rewrite Hcols, find_fmap_column, Hcolumn; [|intros c; by destruct (decide _)].
    split; [reflexivity|]. apply find_Some in Hcolumn as [_ Hid].
    rewrite decide_True by done. unfold card_ids at 1. cbn [items with_items].
    apply reordered_card_ids.
  - intros i column Hi. rewrite list_lookup_fmap, Hi.
    cbn [fmap option_fmap option_map].
    eexists. split; [reflexivity|].
    destruct (decide (column_id column = columnId)); [|done].
    split; [done|]. split; [done|]. split.
    + unfold card_ids at 1. cbn [items with_items]. apply reordered_card_ids.
    + cbn [items with_items]. apply Forall_forall.
      intros item (k & _ & Hk)%list_elem_of_omap.
      by rewrite (card_of_id _ _ _ Hk).
Qed.

Lemma find_in_reordered (cols : list ColumnType) (ids : list Z) (i : Z) :
  Js.find (λ col, column_id col = i)
    (omap (λ j, Js.find (λ col, column_id col = j) cols) ids)
  = if decide (i ∈ ids) then Js.find (λ col, column_id col = i) cols else None.
Proof.
  induction ids as [|j ids IH]; [done|]. cbn [omap list_omap].
  destruct (Js.find (λ col, column_id col = j) cols) as [c|] eqn:Hj.
  - rewrite find_cons. pose proof (find_Some _ _ _ Hj) as [_ Hc].
    destruct (decide (column_id c = i)) as [Hi|Hne].
    + assert (i = j) as -> by congruence.
      rewrite decide_True by left. by rewrite Hj.
    + rewrite IH. destruct (decide (i ∈ ids)) as [Hin|Hin].
      * rewrite decide_True; [done|by right].
      * rewrite decide_False; [done|].
        intros [->|?]%elem_of_cons; [by rewrite Hc in Hne|done].
  - rewrite IH. destruct (decide (i = j)) as [->|Hne].
    + rewrite Hj. by repeat destruct (decide _).
    + destruct (decide (i ∈ ids)) as [Hin|Hin].
      * rewrite decide_True; [done|by right].
      * rewrite decide_False; [done|]. by intros [->|?]%elem_of_cons.
Qed.

(** C7. [reorderColumns] is idempotent: a second call with the same ids
    leaves the state, and so the column order, as the first call made it. *)
Theorem reorderColumns_idempotent (ids : list Z) (state : BoardState) :
  reorderColumns ids (reorderColumns ids state) = reorderColumns ids state.
Proof.
  unfold reorderColumns. cbn [columns set_columns boardTitle hasHydrated].
  unfold set_columns. cbn [boardTitle hasHydrated]. f_equal.
  rewrite !omap_id_fmap. apply list_omap_ext, Forall2_same_length_lookup_2; [done|].
  intros n i j Hi Hj. assert (j = i) as -> by congruence.
  rewrite find_in_reordered, decide_True; [done|].
  by eapply list_elem_of_lookup_2.
Qed.

(** ** Migration of the persisted snapshot *)

Lemma migrate_steps (state : PersistedState) (version : Z) :
  migrate state version
  = if decide (version = 0) then migrate_1_to_2 (migrate_0_to_1 state)
    else if decide (version ≤ 1) then migrate_1_to_2 state
    else state.
Proof.
  unfold migrate. destruct (decide (version = 0)) as [->|Hv].
  - rewrite decide_True by lia. reflexivity.
  - destruct (decide (version ≤ 1)); reflexivity.
Qed.

Lemma normalise_comments_idempotent card :
  normalise_comments (normalise_comments card) = normalise_comments card.
Proof.
  unfold normalise_comments. cbn. by destruct (pcard_comments card).
Qed.

Lemma migrate_0_to_1_idempotent state :
  migrate_0_to_1 (migrate_0_to_1 state) = migrate_0_to_1 state.
Proof.
  unfold migrate_0_to_1. cbn. f_equal. rewrite <- list_fmap_compose.
  apply list_fmap_ext. intros _ c _. cbn. f_equal.
  rewrite <- list_fmap_compose. apply list_fmap_ext. intros _ k _.
  apply normalise_comments_idempotent.
Qed.

Lemma or_else_truthy (a b : Js.Value) :
  Js.truthy b = true → Js.truthy (Js.or_else a b) = true.
Proof. unfold Js.or_else. by destruct (Js.truthy a) eqn:E. Qed.

Lemma migrate_1_to_2_idempotent state :
  migrate_1_to_2 (migrate_1_to_2 state) = migrate_1_to_2 state.
Proof.
  unfold migrate_1_to_2. cbn. f_equal. unfold Js.or_else at 1.
  by rewrite or_else_truthy.
Qed.

Lemma migrate_0_to_1_after_1_to_2 state :
  migrate_0_to_1 (migrate_1_to_2 (migrate_0_to_1 state))
  = migrate_1_to_2 (migrate_0_to_1 state).
Proof.
  transitivity (migrate_1_to_2 (migrate_0_to_1 (migrate_0_to_1 state)));
    [reflexivity|by rewrite migrate_0_to_1_idempotent].
Qed.

(** C8. Take a snapshot stored at version 0 in which the card at position
    [j] of the column at position [i] has a [comments] value that is not an
    array. The migration gives a snapshot with the same columns and cards in
    which that card's [comments] is the empty array and [boardTitle] is
    truthy: the stored title when it was truthy, ["Demo Board"] when it
    was absent or otherwise falsy. From version 0 the comment step runs
    first and the title step second, from version 1 the title step alone,
    from version 2 on nothing. Migrating the result again, whatever version
    is claimed for it, changes nothing, and neither does repeating a
    migration from a version [v >= 0] at the same or a later version. *)
Theorem migrate_normalises_and_is_idempotent
    (persisted : PersistedState) (i j : nat)
    (column : PersistedColumn) (card : PersistedCard) :
  p_columns persisted !! i = Some column →
  pcolumn_items column !! j = Some card →
  Js.isArray (pcard_comments card) = false →
  let migrated := migrate persisted 0 in
  (∃ column' card',
     p_columns migrated !! i = Some column' ∧
     pcolumn_items column' !! j = Some card' ∧
     pcolumn_id column' = pcolumn_id column ∧
     pcolumn_title column' = pcolumn_title column ∧
     length (pcolumn_items column') = length (pcolumn_items column) ∧
     pcard_id card' = pcard_id card ∧
     pcard_title card' = pcard_title card ∧
     pcard_description card' = pcard_description card ∧
     pcard_comments card' = Js.JArr []) ∧
  length (p_columns migrated) = length (p_columns persisted) ∧
  Js.truthy (p_boardTitle migrated) = true ∧
  (p_boardTitle persisted = Js.JUndefined →
   p_boardTitle migrated = Js.JStr "Demo Board") ∧
  (Js.truthy (p_boardTitle persisted) = false →
   p_boardTitle migrated = Js.JStr "Demo Board") ∧
  (Js.truthy (p_boardTitle persisted) = true →
   p_boardTitle migrated = p_boardTitle persisted) ∧
  migrated = migrate_1_to_2 (migrate_0_to_1 persisted) ∧
  migrate persisted 1 = migrate_1_to_2 persisted ∧
  (∀ version, 2 ≤ version → migrate persisted version = persisted) ∧
  (∀ version, migrate migrated version = migrated) ∧
  (∀ v v', 0 ≤ v ≤ v' →
     migrate (migrate persisted v) v' = migrate persisted v).
Proof.
  intros Hi Hj Harr migrated.
  assert (Hm : migrated = migrate_1_to_2 (migrate_0_to_1 persisted))
    by (unfold migrated; by rewrite migrate_steps).
  clearbody migrated. subst migrated.
  split.
  { cbn [p_columns migrate_1_to_2 migrate_0_to_1].
    rewrite list_lookup_fmap, Hi. cbn [fmap option_fmap option_map].
    eexists. exists (normalise_comments card). split; [reflexivity|].
    cbn [pcolumn_items pcolumn_id pcolumn_title].
    rewrite list_lookup_fmap, Hj, length_fmap.
    unfold normalise_comments. cbn. by rewrite Harr. }
  split; [cbn; by rewrite length_fmap|].
  split; [cbn; by apply or_else_truthy|].
  split; [cbn; by intros ->|].
  split; [cbn; unfold Js.or_else; by intros ->|].
  split; [cbn; unfold Js.or_else; by intros ->|].
  split; [done|].
  split; [by rewrite migrate_steps|].
  split.
  { intros v Hv. rewrite migrate_steps. by rewrite !decide_False by lia. }
  split.
  { intros v. rewrite migrate_steps.
    repeat destruct (decide _);
      by rewrite ?migrate_0_to_1_after_1_to_2, ?migrate_1_to_2_idempotent. }
  intros v v' Hle. rewrite (migrate_steps persisted v), migrate_steps.
  repeat destruct (decide _); try lia;
    by rewrite ?migrate_0_to_1_after_1_to_2, ?migrate_1_to_2_idempotent.
Qed.

(** ** The drag handlers *)

Lemma index_of_cons x y l :
  index_of x (y :: l)
  = if decide (y = x) then Some 0%nat else S <$> index_of x l.
Proof.
  unfold index_of. cbn [list_find]. destruct (decide (y = x)); [done|].
  by destruct (list_find _ l) as [[? ?]|].
Qed.

Lemma index_of_is_Some x l : x ∈ l → is_Some (index_of x l).
Proof.
  induction l as [|y l IH]; [by intros ?%elem_of_nil|].
  rewrite index_of_cons. destruct (decide (y = x)) as [|Hne]; [by eexists|].
  intros [->|Hin]%elem_of_cons; [done|].
  destruct (IH Hin) as [n ->]. by eexists.
Qed.

Lemma index_of_lookup x l n : index_of x l = Some n → l !! n = Some x.
Proof.
  revert n. induction l as [|y l IH]; intros n; [done|].
  rewrite index_of_cons. destruct (decide (y = x)) as [->|Hne].
  - by intros [= <-].
  - destruct (index_of x l) as [m|]; [|done]. intros [= <-]. by apply IH.
Qed.

Lemma findIndex_column_ids x (cols : list ColumnType) n :
  index_of x (column_id <$> cols) = Some n →
  Js.findIndex (λ col, column_id col = x) cols = Z.of_nat n.
Proof.
  revert n. unfold Js.findIndex.
  induction cols as [|c cols IH]; intros n; [done|].
  rewrite fmap_cons, index_of_cons. cbn [list_find].
  destruct (decide (column_id c = x)); [by intros [= <-]|].
  destruct (index_of x (column_id <$> cols)) as [m|]; [|done].
  intros [= <-]. specialize (IH m eq_refl).
  destruct (list_find _ cols) as [[k c']|]; cbn in *; lia.
Qed.

Lemma actualStart_in_range len start :
  0 ≤ start ≤ len → Js.actualStart len start = start.
Proof.
  intros H. unfold Js.actualStart.
  destruct (start <? 0) eqn:E; [apply Z.ltb_lt in E|]; lia.
Qed.

Lemma splice_remove_one {A : Type} (l : list A) (n : nat) (x : A) :
  l !! n = Some x →
  Js.splice l (Z.of_nat n) 1 [] = ([x], delete n l).
Proof.
  intros Hx. pose proof (lookup_lt_Some _ _ _ Hx) as Hn.
  unfold Js.splice. rewrite actualStart_in_range by lia.
  replace (Z.min (Z.max 1 0) (Z.of_nat (length l) - Z.of_nat n)) with 1 by lia.
  rewrite Nat2Z.id.
  replace (Z.to_nat (Z.of_nat n + 1)) with (S n) by lia.
  replace (Z.to_nat 1) with 1%nat by lia.
  rewrite (drop_S _ _ _ Hx), delete_take_drop. reflexivity.
Qed.

Lemma arrayMove_in_range {A : Type} (l : list A) (from to : nat) (x : A) :
  l !! from = Some x →
  (to < length l)%nat →
  arrayMove l (Z.of_nat from) (Z.of_nat to) = insert_at to x (delete from l).
Proof.
  intros Hx Hto. pose proof (lookup_lt_Some _ _ _ Hx) as Hfrom.
  unfold arrayMove. rewrite (splice_remove_one _ _ _ Hx).
  destruct (Z.of_nat to <? 0) eqn:E; [apply Z.ltb_lt in E; lia|].
  cbn [take]. rewrite splice_insert. f_equal.
  assert (Hlen : length (delete from l) = pred (length l)).
  { rewrite length_delete; [lia|by eexists]. }
  rewrite Hlen. unfold insertion_position. rewrite decide_True by lia. lia.
Qed.

(** [arrayMove] is only called by [handleDragEnd] with a [from] that is a
    [findIndex] result, either different from [-1] or on a non-empty array
    (two different [findIndex] results on one array): the removing splice
    then yields an element. *)
Lemma findIndex_addresses {A : Type} (P : A → Prop) `{!∀ x, Decision (P x)}
    (l : list A) :
  Js.findIndex P l ≠ -1 ∨ l ≠ [] →
  (Js.splice l (Js.findIndex P l) 1 []).1 ≠ [].
Proof.
  intros Hcall. unfold Js.findIndex in *.
  destruct (list_find P l) as [[n x]|] eqn:E.
  - apply list_find_Some in E as (Hx & _ & _).
    by rewrite (splice_remove_one _ _ _ Hx).
  - destruct Hcall as [|Hne]; [done|].
    destruct (l !! pred (length l)) as [y|] eqn:Hlast.
    + pose proof (lookup_lt_Some _ _ _ Hlast) as Hn.
      unfold Js.splice, Js.actualStart. cbn [fst Z.ltb Z.compare].
      replace (Z.to_nat ((Z.of_nat (length l) + -1) `max` 0))
        with (pred (length l)) by lia.
      rewrite (drop_S _ _ _ Hlast).
      replace (Z.to_nat _) with 1%nat by lia. done.
    + apply lookup_ge_None in Hlast. destruct l; [done|cbn in Hlast; lia].
Qed.

(** C10. [handleDragOver] changes nothing but the local preview
    [dragPosition]: the store, the snapshots written to storage and the
    list of store calls made are those of before, and so is the overlay
    card. *)
Theorem handleDragOver_leaves_the_store (event : DragEvent) (w : World) :
  let w' := handleDragOver event w in
  store w' = store w ∧
  storage_writes w' = storage_writes w ∧
  store_calls w' = store_calls w ∧
  activeCard w' = activeCard w.
Proof.
  unfold handleDragOver. destruct (over event) as [o|]; [|done].
  destruct (is_column (active event)); [done|].
  destruct (Js.find _ _) as [activeColumn|]; [|done].
  by destruct (Js.find _ _) as [overColumn|].
Qed.

(** C6. A drag of a column of the board that ends over a column of the
    board: with [activeIndex] and [overIndex] the first positions of the
    two ids in the column order before the move, [handleDragEnd] clears
    the overlay and the preview and, when the two indices are equal,
    touches neither the store nor the storage and calls no action; when
    they differ it makes exactly one store call, [reorderColumns] with the
    order obtained by deleting the dragged id at [activeIndex] and putting
    it in at [overIndex], and that call's result is written once. *)
Theorem handleDragEnd_commits_column_move
    (event : DragEvent) (overColumn : Entity) (w : World) :
  over event = Some overColumn →
  is_column (active event) = true →
  is_column overColumn = true →
  entity_id (active event) ∈ column_ids (store w) →
  entity_id overColumn ∈ column_ids (store w) →
  ∃ activeIndex overIndex : nat,
    index_of (entity_id (active event)) (column_ids (store w))
    = Some activeIndex ∧
    index_of (entity_id overColumn) (column_ids (store w)) = Some overIndex ∧
    let newOrder :=
      insert_at overIndex (entity_id (active event))
        (delete activeIndex (column_ids (store w))) in
    let w' := handleDragEnd event w in
    activeCard w' = None ∧
    dragPosition w' = None ∧
    if decide (activeIndex = overIndex)
    then
      store w' = store w ∧
      store_calls w' = store_calls w ∧
      storage_writes w' = storage_writes w
    else
      store_calls w' = store_calls w ++ [ReorderColumns newOrder] ∧
      store w' = reorderColumns newOrder (store w) ∧
      storage_writes w' = storage_writes w ++ [store w'].
Proof.
  intros Hover Hact Hovc Hain Hoin.
  destruct (index_of_is_Some _ _ Hain) as [ai Hai].
  destruct (index_of_is_Some _ _ Hoin) as [oi Hoi].
  exists ai, oi. split; [done|]. split; [done|]. cbn zeta.
  unfold handleDragEnd. rewrite Hover, Hact, Hovc. cbn [andb].
  unfold column_ids in *.
  rewrite (findIndex_column_ids _ _ _ Hai), (findIndex_column_ids _ _ _ Hoi).
  destruct (decide (ai = oi)) as [->|Hne].
  - by rewrite decide_False by lia.
  - rewrite decide_True by lia.
    rewrite (arrayMove_in_range _ _ _ _ (index_of_lookup _ _ _ Hai));
      [done|].
    apply index_of_lookup in Hoi. by apply lookup_lt_Some in Hoi.
Qed.

(** ** Card ids across the board *)

Lemma fmap_keeps_column_ids (f : ColumnType → ColumnType) (cols : list ColumnType) :
  (∀ c, column_id (f c) = column_id c) →
  column_id <$> (f <$> cols) = column_id <$> cols.
Proof.
  intros Hf. rewrite <- list_fmap_compose. apply list_fmap_ext.
  intros _ c _. apply Hf.
Qed.

Lemma all_card_ids_update (cols : list ColumnType)
    (f : ColumnType → ColumnType) (g : ColumnType → list Z)
    (k : Z) (extra : list Z) :
  NoDup (column_id <$> cols) →
  (∀ c, c ∈ cols →
     card_ids (f c) ≡ₚ (if decide (column_id c = k) then extra else []) ++ g c) →
  mjoin (card_ids <$> (f <$> cols))
  ≡ₚ (if decide (k ∈ column_id <$> cols) then extra else [])
     ++ mjoin (g <$> cols).
Proof.
  induction cols as [|c cols IH]; intros Hnd Hf; [done|].
  rewrite !fmap_cons in *. apply NoDup_cons in Hnd as [Hc Hnd]. cbn [mjoin list_join].
  rewrite (Hf c) by left. rewrite IH; [|done|intros; apply Hf; by right].
  destruct (decide (column_id c = k)) as [<-|Hne].
  - rewrite (decide_False (P := column_id c ∈ column_id <$> cols)) by done.
    rewrite decide_True by left.
    cbn [app]. by rewrite (assoc_L (++)).
  - destruct (decide (k ∈ column_id <$> cols)) as [Hin|Hin].
    + rewrite decide_True by (by right). cbn [app].
      rewrite !(assoc_L (++)). f_equiv; [apply Permutation_app_comm|done].
    + rewrite decide_False; [done|]. by intros [->|?]%elem_of_cons.
Qed.

Lemma filter_join {A : Type} (P : A → Prop) `{!∀ x, Decision (P x)}
    (ls : list (list A)) :
  filter P (mjoin ls) = mjoin (filter P <$> ls).
Proof.
  induction ls as [|l ls IH]; [done|]. rewrite fmap_cons.
  change (mjoin (l :: ls)) with (l ++ mjoin ls).
  change (mjoin (filter P l :: (filter P <$> ls)))
    with (filter P l ++ mjoin (filter P <$> ls)).
  by rewrite filter_app, IH.
Qed.

Lemma filter_none {A : Type} (P : A → Prop) `{!∀ x, Decision (P x)}
    (l : list A) :
  (∀ x, x ∈ l → ¬ P x) → filter P l = [].
Proof.
  intros Hno. destruct (filter P l) as [|x k] eqn:E; [done|].
  assert (x ∈ filter P l) as [HP Hx]%list_elem_of_filter by (rewrite E; left).
  destruct (Hno x Hx HP).
Qed.

Lemma NoDup_take_out (x : Z) (l : list Z) :
  NoDup l → x ∈ l → l ≡ₚ x :: filter (λ y, y ≠ x) l.
Proof.
  intros Hnd Hx. apply NoDup_Permutation; [done| |].
  - apply NoDup_cons. split; [|by apply NoDup_filter].
    by intros [? _]%list_elem_of_filter.
  - intros y. rewrite elem_of_cons, list_elem_of_filter.
    destruct (decide (y = x)) as [->|Hne]; [by split; [left|]|].
    split; [by right|]. by intros [?|[_ ?]].
Qed.

Lemma filter_absent (x : Z) (l : list Z) :
  x ∉ l → filter (λ y, y ≠ x) l = l.
Proof.
  intros Hx. induction l as [|y l IH]; [done|].
  apply not_elem_of_cons in Hx as [Hne Hx].
  rewrite filter_cons_True by done. by rewrite IH.
Qed.

Lemma holders_unique (cardId : Z) (state : BoardState) :
  NoDup (all_card_ids state) →
  cardId ∈ all_card_ids state →
  ∃ column, holders cardId state = [column].
Proof.
  unfold all_card_ids, holders. induction (columns state) as [|c cols IH];
    [by intros _ ?%elem_of_nil|].
  rewrite fmap_cons. cbn [mjoin list_join].
  intros (Hc & Hdisj & Hrest)%NoDup_app [Hin|Hin]%elem_of_app.
  - exists c. rewrite filter_cons_True by done. f_equal.
    apply filter_none. intros c' Hc' Hin'. apply (Hdisj _ Hin).
    apply list_elem_of_join. exists (card_ids c'). split; [done|].
    by apply list_elem_of_fmap_2.
  - destruct (IH Hrest Hin) as [column Hcol]. exists column.
    rewrite filter_cons_False; [done|]. intros Hin'. by apply (Hdisj _ Hin').
Qed.

Lemma holder_is_unique (cardId : Z) (state : BoardState) (c1 c2 : ColumnType) :
  NoDup (all_card_ids state) →
  c1 ∈ columns state → cardId ∈ card_ids c1 →
  c2 ∈ columns state → cardId ∈ card_ids c2 →
  c1 = c2.
Proof.
  intros Hnd H1 Hin1 H2 Hin2.
  destruct (holders_unique cardId state Hnd) as [c Hc].
  { apply list_elem_of_join. exists (card_ids c1). split; [done|].
    by apply list_elem_of_fmap_2. }
  assert (Hh : ∀ c', c' ∈ columns state → cardId ∈ card_ids c' → c' = c).
  { intros c' Hc' Hin'.
    assert (c' ∈ holders cardId state) as Hmem
      by (by apply list_elem_of_filter).
    rewrite Hc in Hmem. by apply list_elem_of_singleton in Hmem. }
  by rewrite (Hh c1), (Hh c2).
Qed.

Lemma column_of_unique (state : BoardState) (c : ColumnType) :
  NoDup (column_ids state) →
  c ∈ columns state →
  column_of (column_id c) state = Some c.
Proof.
  unfold column_ids, column_of. induction (columns state) as [|c' cols IH];
    [by intros _ ?%elem_of_nil|].
  rewrite fmap_cons, find_cons.
  intros [Hc' Hnd]%NoDup_cons [->|Hin]%elem_of_cons.
  - by rewrite decide_True.
  - rewrite decide_False; [by apply IH|].
    intros E. apply Hc'. rewrite E. by apply list_elem_of_fmap_2.
Qed.

Lemma filter_all {A : Type} (P : A → Prop) `{!∀ x, Decision (P x)}
    (l : list A) :
  (∀ x, x ∈ l → P x) → filter P l = l.
Proof.
  induction l as [|x l IH]; intros Hall; [done|].
  rewrite filter_cons_True by (apply Hall; left).
  rewrite IH; [done|]. intros y Hy. apply Hall. by right.
Qed.

Lemma filter_own_rearrangement (l k : list Z) :
  l ≡ₚ k → filter (λ x, x ∈ k) l ≡ₚ k.
Proof.
  intros Hp. rewrite filter_all; [done|]. intros x Hx. by rewrite <- Hp.
Qed.

Lemma card_ids_filter (cardId : Z) (l : list CardType) :
  card_id <$> filter (λ item, card_id item ≠ cardId) l
  = filter (λ y, y ≠ cardId) (card_id <$> l).
Proof.
  induction l as [|c l IH]; [done|]. rewrite fmap_cons.
  destruct (decide (card_id c = cardId)) as [E|E].
  - rewrite !filter_cons_False by (by intros ?). apply IH.
  - rewrite !filter_cons_True by done. rewrite fmap_cons. by rewrite IH.
Qed.

Lemma all_card_ids_elem (x : Z) (state : BoardState) :
  x ∈ all_card_ids state ↔ ∃ c, c ∈ columns state ∧ x ∈ card_ids c.
Proof.
  unfold all_card_ids. rewrite list_elem_of_join. split.
  - intros (l & Hx & (c & -> & Hc)%list_elem_of_fmap). by exists c.
  - intros (c & Hc & Hx). exists (card_ids c). split; [done|].
    by apply list_elem_of_fmap_2.
Qed.

Lemma addCard_column_ids now columnId title state :
  column_ids (addCard now columnId title state) = column_ids state.
Proof.
  unfold column_ids, addCard. cbn [columns set_columns].
  apply fmap_keeps_column_ids. intros c. by destruct (decide _).
Qed.

Lemma addCard_all_card_ids now columnId title state :
  NoDup (column_ids state) →
  all_card_ids (addCard now columnId title state)
  ≡ₚ (if decide (columnId ∈ column_ids state) then [now] else [])
     ++ all_card_ids state.
Proof.
  intros Hnd. unfold all_card_ids, addCard. cbn [columns set_columns].
  apply all_card_ids_update; [done|]. intros c _.
  destruct (decide (column_id c = columnId)); [|done].
  unfold card_ids. cbn [items with_items]. rewrite fmap_app.
  apply Permutation_app_comm.
Qed.

Lemma moveCard_column_ids cardId fromColumnId toColumnId newIndex state :
  column_ids (moveCard cardId fromColumnId toColumnId newIndex state)
  = column_ids state.
Proof.
  destruct (decide (card_in_column cardId fromColumnId state)) as [Hin|Hno].
  - apply card_in_column_found in Hin as (column & card & Hc & Hcard).
    rewrite (moveCard_found _ _ _ _ _ _ _ Hc Hcard).
    unfold column_ids. cbn [columns set_columns].
    apply fmap_keeps_column_ids. intros c. cbn zeta. by destruct (decide _).
  - by rewrite moveCard_not_found.
Qed.

Lemma moveCard_all_card_ids cardId fromColumnId toColumnId newIndex state :
  board_inv state →
  card_in_column cardId fromColumnId state →
  toColumnId ∈ column_ids state →
  all_card_ids (moveCard cardId fromColumnId toColumnId newIndex state)
  ≡ₚ all_card_ids state.
Proof.
  intros [Hcols Hcards] Hin Hto.
  apply card_in_column_found in Hin as (fromColumn & card & Hfrom & Hcard).
  rewrite (moveCard_found _ _ _ _ _ _ _ Hfrom Hcard).
  unfold all_card_ids at 1. cbn [columns set_columns].
  pose proof Hfrom as [HfromIn HfromId]%find_Some.
  pose proof Hcard as [HcardIn HcardId]%find_Some.
  assert (Hheld : cardId ∈ card_ids fromColumn).
  { rewrite <- HcardId. by apply list_elem_of_fmap_2. }
  rewrite (all_card_ids_update _ _
             (λ c, filter (λ y, y ≠ cardId) (card_ids c))
             toColumnId [cardId]); [|done|].
  - fold (column_ids state). rewrite decide_True by done.
    assert (Hj : mjoin ((λ c, filter (λ y, y ≠ cardId) (card_ids c))
                          <$> columns state)
                 = filter (λ y, y ≠ cardId) (all_card_ids state)).
    { unfold all_card_ids. by rewrite filter_join, <- list_fmap_compose. }
    rewrite Hj. symmetry.
    apply NoDup_take_out; [done|]. apply all_card_ids_elem. by exists fromColumn.
  - intros c Hc. cbn zeta.
    assert (Hrest : card_id <$> without_card cardId fromColumnId c
                    = filter (λ y, y ≠ cardId) (card_ids c)).
    { unfold without_card.
      destruct (decide (column_id c = fromColumnId)) as [E|E];
        [apply card_ids_filter|].
      symmetry. apply filter_absent. intros Hc'. apply E.
      by rewrite (holder_is_unique cardId state c fromColumn). }
    destruct (decide (column_id c = toColumnId)); unfold card_ids at 1;
      cbn [items with_items]; [|by rewrite Hrest].
    rewrite insert_at_Permutation, fmap_cons, Hrest, HcardId. done.
Qed.

Lemma reorderCardsInColumn_column_ids columnId cardIds state :
  column_ids (reorderCardsInColumn columnId cardIds state) = column_ids state.
Proof.
  unfold column_ids. rewrite reorderCardsInColumn_columns.
  apply fmap_keeps_column_ids. intros c. by destruct (decide _).
Qed.

Lemma reorderCardsInColumn_all_card_ids columnId cardIds state :
  NoDup (column_ids state) →
  preserving state (ReorderCardsInColumn columnId cardIds) →
  all_card_ids (reorderCardsInColumn columnId cardIds state)
  ≡ₚ all_card_ids state.
Proof.
  intros Hnd Hperm. unfold all_card_ids at 1.
  rewrite reorderCardsInColumn_columns.
  rewrite (all_card_ids_update _ _ card_ids columnId []); [|done|].
  - by destruct (decide _).
  - intros c Hc. destruct (decide (column_id c = columnId)) as [<-|]; [|done].
    unfold card_ids at 1. cbn [items with_items app].
    rewrite reordered_card_ids.
    apply (Hperm c (column_of_unique _ _ Hnd Hc)).
Qed.

Lemma preserving_step (state : BoardState) (a : StoreAction) :
  board_inv state →
  preserving state a →
  board_inv (apply_action a state) ∧
  column_ids (apply_action a state) = column_ids state ∧
  ∀ x, x ∈ all_card_ids state → x ∈ all_card_ids (apply_action a state).
Proof.
  intros [Hcols Hcards] Hpres.
  destruct a as [cardId from to newIndex|columnId cardIds| |now columnId title| | | ];
    try done; cbn [apply_action preserving] in *.
  - destruct (decide (card_in_column cardId from state)) as [Hin|Hno];
      [|by rewrite moveCard_not_found].
    pose proof (moveCard_all_card_ids cardId from to newIndex state
                  (conj Hcols Hcards) Hin (Hpres Hin)) as Hp.
    unfold board_inv. rewrite moveCard_column_ids, Hp.
    repeat split; try done. intros x. by rewrite Hp.
  - pose proof (reorderCardsInColumn_all_card_ids columnId cardIds state
                  Hcols Hpres) as Hp.
    unfold board_inv. rewrite reorderCardsInColumn_column_ids, Hp.
    repeat split; try done. intros x. by rewrite Hp.
  - pose proof (addCard_all_card_ids now columnId title state Hcols) as Hp.
    unfold board_inv. rewrite addCard_column_ids, Hp.
    repeat split; try done.
    + destruct (decide _); [|done]. cbn [app]. apply NoDup_cons. auto.
    + intros x Hx. rewrite Hp. apply elem_of_app. by right.
Qed.

Lemma moveCard_all_card_ids_found cardId fromColumnId toColumnId newIndex state :
  board_inv state →
  card_in_column cardId fromColumnId state →
  all_card_ids (moveCard cardId fromColumnId toColumnId newIndex state)
  ≡ₚ (if decide (toColumnId ∈ column_ids state) then [cardId] else [])
     ++ filter (λ y, y ≠ cardId) (all_card_ids state).
Proof.
  intros [Hcols Hcards] Hin.
  apply card_in_column_found in Hin as (fromColumn & card & Hfrom & Hcard).
  rewrite (moveCard_found _ _ _ _ _ _ _ Hfrom Hcard).
  unfold all_card_ids at 1. cbn [columns set_columns].
  pose proof Hfrom as [HfromIn HfromId]%find_Some.
  pose proof Hcard as [HcardIn HcardId]%find_Some.
  assert (Hheld : cardId ∈ card_ids fromColumn).
  { rewrite <- HcardId. by apply list_elem_of_fmap_2. }
  rewrite (all_card_ids_update _ _
             (λ c, filter (λ y, y ≠ cardId) (card_ids c))
             toColumnId [cardId]); [|done|].
  - fold (column_ids state). unfold all_card_ids.
    by rewrite filter_join, <- list_fmap_compose.
  - intros c Hc. cbn zeta.
    assert (Hrest : card_id <$> without_card cardId fromColumnId c
                    = filter (λ y, y ≠ cardId) (card_ids c)).
    { unfold without_card.
      destruct (decide (column_id c = fromColumnId)) as [E|E];
        [apply card_ids_filter|].
      symmetry. apply filter_absent. intros Hc'. apply E.
      by rewrite (holder_is_unique cardId state c fromColumn). }
    destruct (decide (column_id c = toColumnId)); unfold card_ids at 1;
      cbn [items with_items]; [|by rewrite Hrest].
    rewrite insert_at_Permutation, fmap_cons, Hrest, HcardId. done.
Qed.

(** The card ids of a board, split into those of the column an id resolves
    to and those of the other columns, before and after that column is
    reordered. *)
Lemma reorderCardsInColumn_all_card_ids_found columnId cardIds state column :
  NoDup (column_ids state) →
  column_of columnId state = Some column →
  ∃ others,
    all_card_ids state ≡ₚ card_ids column ++ others ∧
    all_card_ids (reorderCardsInColumn columnId cardIds state)
    ≡ₚ filter (λ cardId, cardId ∈ card_ids column) cardIds ++ others.
Proof.
  intros Hnd Hcolumn.
  pose proof Hcolumn as [Hin Hid]%find_Some.
  assert (Hknown : columnId ∈ column_id <$> columns state).
  { rewrite <- Hid. by apply list_elem_of_fmap_2. }
  assert (Hthe : ∀ c, c ∈ columns state → column_id c = columnId → c = column).
  { intros c Hc E. pose proof (column_of_unique _ _ Hnd Hc) as Hc'.
    rewrite E in Hc'. congruence. }
  exists (mjoin ((λ c, if decide (column_id c = columnId) then []
                       else card_ids c) <$> columns state)).
  split.
  - unfold all_card_ids. rewrite <- (list_fmap_id (columns state)) at 1.
    rewrite (all_card_ids_update _ _
               (λ c, if decide (column_id c = columnId) then [] else card_ids c)
               columnId (card_ids column)); [|done|].
    + by rewrite decide_True.
    + intros c Hc. cbn [id].
      destruct (decide (column_id c = columnId)) as [E|E]; [|done].
      by rewrite (Hthe c Hc E), app_nil_r.
  - unfold all_card_ids. rewrite reorderCardsInColumn_columns.
    rewrite (all_card_ids_update _ _
               (λ c, if decide (column_id c = columnId) then [] else card_ids c)
               columnId (filter (λ cardId, cardId ∈ card_ids column) cardIds));
      [|done|].
    + by rewrite decide_True.
    + intros c Hc.
      destruct (decide (column_id c = columnId)) as [E|E]; [|done].
      rewrite (Hthe c Hc E), app_nil_r. unfold card_ids at 1.
      cbn [items with_items]. by rewrite reordered_card_ids.
Qed.

(** A call that keeps the invariant and every card id is a call
    [preserving] admits. *)
Lemma preserving_needed (state : BoardState) (a : StoreAction) :
  board_inv state →
  is_card_call a →
  board_inv (apply_action a state) →
  (∀ x, x ∈ all_card_ids state → x ∈ all_card_ids (apply_action a state)) →
  preserving state a.
Proof.
  intros [Hcols Hcards]. 
  destruct a as [cardId from to newIndex|columnId cardIds| |now columnId title| | | ];
    try done; cbn [apply_action preserving]; intros _ [_ Hcards'] Hkeep.
  - intros Hin. destruct (decide (to ∈ column_ids state)) as [|Hto]; [done|].
    exfalso.
    pose proof (moveCard_all_card_ids_found cardId from to newIndex state
                  (conj Hcols Hcards) Hin) as Hp.
    rewrite decide_False in Hp by done. cbn [app] in Hp.
    assert (Hheld : cardId ∈ all_card_ids state).
    { destruct Hin as (column & [Hc _]%find_Some & Hx).
      apply all_card_ids_elem. by exists column. }
    apply Hkeep in Hheld. rewrite Hp in Hheld.
    by apply list_elem_of_filter in Hheld as [? _].
  - intros column Hcolumn.
    destruct (reorderCardsInColumn_all_card_ids_found columnId cardIds state
                column Hcols Hcolumn) as (others & Hold & Hnew).
    rewrite Hold in Hcards. rewrite Hnew in Hcards'.
    apply NoDup_app in Hcards as (Hown & Hdisj & _).
    apply NoDup_app in Hcards' as (Hlisted & _ & _).
    apply NoDup_Permutation; [done|done|]. intros x. split.
    + by intros [? _]%list_elem_of_filter.
    + intros Hx.
      assert (Hkept : x ∈ all_card_ids (reorderCardsInColumn columnId cardIds state)).
      { apply Hkeep. rewrite Hold. apply elem_of_app. by left. }
      rewrite Hnew in Hkept. apply elem_of_app in Hkept as [?|Hother]; [done|].
      destruct (Hdisj x Hx Hother).
  - intros Hknown Hnow.
    rewrite (addCard_all_card_ids now columnId title state Hcols) in Hcards'.
    rewrite decide_True in Hcards' by done. cbn [app] in Hcards'.
    by apply NoDup_cons in Hcards' as [? _].
Qed.

Lemma admissible_run (acts : list StoreAction) (state : BoardState) :
  board_inv state →
  admissible state acts →
  board_inv (run acts state) ∧
  column_ids (run acts state) = column_ids state ∧
  ∀ x, x ∈ all_card_ids state → x ∈ all_card_ids (run acts state).
Proof.
  revert state. induction acts as [|a acts IH]; intros state Hinv Hadm; [done|].
  destruct Hadm as [Hpres Hadm].
  destruct (preserving_step state a Hinv Hpres) as (Hinv' & Hids & Hkeep).
  destruct (IH _ Hinv' Hadm) as (Hinv'' & Hids' & Hkeep').
  unfold run in *. cbn [foldl].
  split; [done|]. split; [congruence|]. auto.
Qed.

Lemma deleteColumn_all_card_ids (columnId x : Z) (state : BoardState) :
  board_inv state →
  x ∈ all_card_ids (deleteColumn columnId state)
  ↔ x ∈ all_card_ids state ∧ ¬ card_in_column x columnId state.
Proof.
  intros [Hcols Hcards]. rewrite !all_card_ids_elem.
  unfold deleteColumn. cbn [columns set_columns]. split.
  - intros (c & [Hne Hc]%list_elem_of_filter & Hx). split; [by exists c|].
    intros (c' & [Hc' Hid]%find_Some & Hx'). apply Hne. rewrite <- Hid.
    by rewrite (holder_is_unique x state c c').
  - intros [(c & Hc & Hx) Hno]. exists c. split; [|done].
    apply list_elem_of_filter. split; [|done]. intros Hid. apply Hno.
    exists c. split; [|done]. rewrite <- Hid. by apply column_of_unique.
Qed.

(** C1, as amended. Start from a board whose column ids are pairwise
    distinct and whose card ids each occur once, and make any sequence of
    [addCard], [moveCard] and [reorderCardsInColumn] calls in which every
    card that is created gets a clock reading that is no card id yet, every
    card that is found and moved goes to an existing column, and every list
    an existing column is reordered by holds each card id of that column
    once, ids that are no card's of the column apart (the code skips
    them). Then the board still has these two properties, its column ids
    are those of before, and every card id present at the start is in the
    item list of exactly one column. [deleteColumn], applied to the result,
    removes the card ids of the deleted column and no other. The conditions
    on the calls are the ones needed: a further call of one of the three
    actions keeps the two properties and every card id if, and only if, it
    meets its condition. *)
Theorem card_ids_are_kept
    (state : BoardState) (acts : list StoreAction) :
  board_inv state →
  admissible state acts →
  let state' := run acts state in
  board_inv state' ∧
  column_ids state' = column_ids state ∧
  (∀ cardId, cardId ∈ all_card_ids state →
     length (holders cardId state') = 1%nat) ∧
  (∀ columnId cardId,
     cardId ∈ all_card_ids (deleteColumn columnId state')
     ↔ cardId ∈ all_card_ids state' ∧ ¬ card_in_column cardId columnId state') ∧
  (∀ a, is_card_call a →
     (preserving state' a
      ↔ board_inv (apply_action a state') ∧
        ∀ cardId, cardId ∈ all_card_ids state' →
                  cardId ∈ all_card_ids (apply_action a state'))).
Proof.
  intros Hinv Hadm state'.
  destruct (admissible_run acts state Hinv Hadm) as (Hinv' & Hids & Hkeep).
  fold state' in Hinv', Hids, Hkeep.
  split; [done|]. split; [done|]. split; [|split].
  - intros cardId Hin.
    destruct (holders_unique cardId state' (proj2 Hinv') (Hkeep _ Hin))
      as [c ->].
    reflexivity.
  - intros columnId cardId. by apply deleteColumn_all_card_ids.
  - intros a Hcall. split.
    + intros Hpres.
      by destruct (preserving_step state' a Hinv' Hpres) as (? & _ & ?).
    + intros [Hinv'' Hkeep']. by apply preserving_needed.
Qed.

(** ** Ids of new cards and columns *)

Lemma addColumn_board_ids now title state :
  board_ids (addColumn now title state) ≡ₚ now :: board_ids state.
Proof.
  unfold board_ids, column_ids, all_card_ids, addColumn.
  cbn [columns set_columns]. rewrite !fmap_app, join_app. cbn.
  rewrite !app_nil_r, <- (assoc_L (++)). cbn [app].
  by rewrite <- Permutation_middle.
Qed.

Lemma addCard_all_card_ids_elem now columnId title state x :
  x ∈ all_card_ids (addCard now columnId title state)
  ↔ (x = now ∧ columnId ∈ column_ids state) ∨ x ∈ all_card_ids state.
Proof.
  rewrite !all_card_ids_elem. unfold addCard, column_ids.
  cbn [columns set_columns]. split.
  - intros (c' & (c & -> & Hc)%list_elem_of_fmap & Hx).
    destruct (decide (column_id c = columnId)) as [E|E]; [|right; by exists c].
    unfold card_ids in Hx. cbn [items with_items] in Hx.
    rewrite fmap_app in Hx. apply elem_of_app in Hx as [Hx|Hx].
    + right. by exists c.
    + left. apply list_elem_of_singleton in Hx. split; [done|].
      rewrite <- E. by apply list_elem_of_fmap_2.
  - intros [[-> (c & -> & Hc)%list_elem_of_fmap]|(c & Hc & Hx)].
    + eexists. split; [by apply list_elem_of_fmap_2|].
      rewrite decide_True by done. unfold card_ids. cbn [items with_items].
      rewrite fmap_app. apply elem_of_app. right. left.
    + eexists. split; [by apply list_elem_of_fmap_2|].
      destruct (decide _); [|done]. unfold card_ids. cbn [items with_items].
      rewrite fmap_app. apply elem_of_app. by left.
Qed.

Lemma addCard_board_ids now columnId title state :
  NoDup (column_ids state) →
  columnId ∈ column_ids state →
  board_ids (addCard now columnId title state) ≡ₚ now :: board_ids state.
Proof.
  intros Hcols Hknown. unfold board_ids. rewrite addCard_column_ids.
  rewrite (addCard_all_card_ids _ _ _ _ Hcols), decide_True by done.
  cbn [app]. by rewrite <- Permutation_middle.
Qed.

(** C9. The id of a new card or column is the clock reading of the call,
    whatever ids the board holds: [addCard] and [addColumn] look at none of
    them. On a board whose ids are pairwise distinct, the ids are pairwise
    distinct again after [addColumn], and after [addCard] on a column of
    the board, only when the reading is no id of the board yet. Two
    creations within one millisecond therefore collide: on the seed board,
    a second [addCard] at the reading of the first puts two cards with the
    same id into [Done], an [addCard] into another column at that reading
    puts the id into two columns, and an [addColumn] at that reading makes
    a column with the id of the card. *)
Theorem created_id_is_not_fresh :
  (∀ state now title,
     NoDup (board_ids state) →
     (NoDup (board_ids (addColumn now title state)) ↔ now ∉ board_ids state)) ∧
  (∀ state now columnId title,
     NoDup (board_ids state) →
     columnId ∈ column_ids state →
     (NoDup (board_ids (addCard now columnId title state))
      ↔ now ∉ board_ids state)) ∧
  NoDup (board_ids initialState) ∧
  (card_ids <$>
     columns (addCard tick 3 "second" (addCard tick 3 "first" initialState)))
  = [ [123134; 12423423434]; [345345243534]; [tick; tick] ] ∧
  (card_ids <$> columns same_tick_board)
  = [ [123134; 12423423434; tick]; [345345243534; tick]; [] ] ∧
  board_ids (addColumn tick "Later" (addCard tick 3 "first" initialState))
  = [3453453434; 2; 3; tick; 123134; 12423423434; 345345243534; tick].
Proof.
  split; [|split].
  - intros state now title Hnd.
    rewrite addColumn_board_ids, NoDup_cons. tauto.
  - intros state now columnId title Hnd Hknown.
    pose proof Hnd as (Hcols & _ & _)%NoDup_app.
    rewrite (addCard_board_ids _ _ _ _ Hcols Hknown), NoDup_cons. tauto.
  - split; [apply (bool_decide_unpack _); vm_compute; exact I|].
    repeat split; vm_compute; reflexivity.
Qed.

(** ** Scenarios, instances and counterexamples *)

Ltac by_computation :=
  first [ apply (bool_decide_unpack _); vm_compute; exact I
        | apply (bool_decide_eq_false_1 _); vm_compute; reflexivity ].

(** Scenario A of the specification. *)
Example scenario_A :
  columns (moveCard 1 10 20 0 sample_board)
  = [ mkColumn 10 "Todo" [sample_card 2]; mkColumn 20 "Done" [sample_card 1] ].
Proof. vm_compute. reflexivity. Qed.

(** Scenario B of the specification. *)
Example scenario_B :
  (card_ids <$> columns (reorderCardsInColumn 10 [2; 1] sample_board))
  = [ [2; 1]; [] ].
Proof. vm_compute. reflexivity. Qed.

(** Scenario C of the specification. *)
Example scenario_C :
  store_calls (handleDragEnd done_onto_todo seed_world)
  = [ReorderColumns [3; 3453453434; 2]] ∧
  (column_title <$> columns (store (handleDragEnd done_onto_todo seed_world)))
  = ["Done"; "Todo"; "In Progress"]%string.
Proof. split; vm_compute; reflexivity. Qed.

(** Scenario D of the specification. *)
Example scenario_D : moveCard 99 10 20 0 sample_board = sample_board.
Proof. vm_compute. reflexivity. Qed.

(** An index beyond the end of the destination inserts at the end. *)
Example move_beyond_end :
  (card_ids <$> columns (moveCard 1 10 20 7 busy_board)) = [ [2]; [3; 4; 1] ].
Proof. vm_compute. reflexivity. Qed.

(** C1: an instance of [card_ids_are_kept]. The list of the reorder names
    card 1, which has left the column by then, and an id of no card. *)
Lemma card_ids_are_kept_witness :
  length
    (holders 1
       (run [ AddCard 7 20 "new"; MoveCard 1 10 20 5;
              ReorderCardsInColumn 10 [1; 2; 99] ]
            sample_board))
  = 1%nat.
Proof.
  assert (Hinv : board_inv sample_board) by (split; by_computation).
  assert (Hadm : admissible sample_board
            [ AddCard 7 20 "new"; MoveCard 1 10 20 5;
              ReorderCardsInColumn 10 [1; 2; 99] ]).
  { split; [by_computation|]. split; [intros _; by_computation|].
    split; [|exact I]. intros column Hcolumn. vm_compute in Hcolumn.
    injection Hcolumn as <-. reflexivity. }
  apply (card_ids_are_kept sample_board _ Hinv Hadm). by_computation.
Defined.

(** C1 as stated fails: on [sample_board], which satisfies the invariant
    and holds card 1, a reorder by a list that omits the card loses it, a
    move to an unknown column loses it, a reorder by a list that repeats it
    duplicates it, and a new card whose clock reading is 1 puts the id in a
    second column. *)
Lemma card_ids_not_kept_counterexample :
  board_inv sample_board ∧
  1 ∈ all_card_ids sample_board ∧
  holders 1 (run [ReorderCardsInColumn 10 [2]] sample_board) = [] ∧
  holders 1 (run [MoveCard 1 10 99 0] sample_board) = [] ∧
  (card_ids <$> columns (run [ReorderCardsInColumn 10 [1; 1; 2]] sample_board))
  = [ [1; 1; 2]; [] ] ∧
  length (holders 1 (run [AddCard 1 20 "again"] sample_board)) = 2%nat.
Proof.
  split; [split; by_computation|]. split; [by_computation|].
  repeat split; vm_compute; reflexivity.
Qed.

(** C2: an instance of [moveCard_moves_the_card], on Scenario A. *)
Lemma moveCard_moves_the_card_witness :
  card_in_column 1 20 (moveCard 1 10 20 0 sample_board).
Proof.
  assert (Hin : card_in_column 1 10 sample_board) by by_computation.
  assert (Hto : 20 ∈ column_ids sample_board) by by_computation.
  destruct (moveCard_moves_the_card 1 10 20 0 sample_board Hin Hto)
    as (fromColumn & card & _ & _ & _ & _ & _ & Hthere & _).
  exact Hthere.
Defined.

(** C2 as stated fails for a negative [newIndex]: moving card 1 from [Todo]
    to [Done], which holds cards 3 and 4, at index -1 puts it between them,
    where the index clamped to [[0, length]] is 0 and would put it first. *)
Lemma moveCard_negative_index_counterexample :
  card_in_column 1 10 busy_board ∧
  20 ∈ column_ids busy_board ∧
  (items <$> columns (moveCard 1 10 20 (-1) busy_board))
  = [ [sample_card 2]; [sample_card 3; sample_card 1; sample_card 4] ] ∧
  insert_at (Z.to_nat (spec_clamp (-1) 2)) (sample_card 1)
    [sample_card 3; sample_card 4]
  = [sample_card 1; sample_card 3; sample_card 4] ∧
  (items <$> columns (moveCard 1 10 20 (-1) busy_board)) !! 1%nat
  ≠ Some (insert_at (Z.to_nat (spec_clamp (-1) 2)) (sample_card 1)
            [sample_card 3; sample_card 4]).
Proof.
  split; [by_computation|]. split; [by_computation|].
  split; [vm_compute; reflexivity|]. split; [vm_compute; reflexivity|].
  vm_compute. discriminate.
Qed.

(** C3: an instance of [moveCard_absent_card_is_noop], on Scenario D. *)
Lemma moveCard_absent_card_is_noop_witness :
  moveCard 99 10 20 0 sample_board = sample_board.
Proof.
  apply moveCard_absent_card_is_noop. by_computation.
Defined.

(** C4: an instance of [moveCard_unknown_target_drops_the_card]. *)
Lemma moveCard_unknown_target_drops_the_card_witness :
  card_in_column 1 10 sample_board ∧
  (99 ∉ column_ids sample_board) ∧
  1 ∉ all_card_ids (moveCard 1 10 99 0 sample_board).
Proof.
  assert (Hin : card_in_column 1 10 sample_board) by by_computation.
  assert (Hto : 99 ∉ column_ids sample_board) by by_computation.
  split; [exact Hin|]. split; [exact Hto|].
  apply (moveCard_unknown_target_drops_the_card 1 10 99 0 sample_board Hin Hto).
  intros column Hcolumn Hheld.
  apply elem_of_cons in Hcolumn as [->|Hcolumn]; [reflexivity|].
  apply elem_of_cons in Hcolumn as [->|Hcolumn];
    [by apply elem_of_nil in Hheld|by apply elem_of_nil in Hcolumn].
Defined.

(** C4 as stated fails on a board the store reaches: after two [addCard]
    calls within one millisecond the same id is in [Todo] and in
    [In Progress]; moving it from [Todo] to an unknown column leaves the
    id on the board. *)
Lemma moveCard_unknown_target_counterexample :
  card_in_column tick 3453453434 same_tick_board ∧
  (99 ∉ column_ids same_tick_board) ∧
  tick ∈ all_card_ids (moveCard tick 3453453434 99 0 same_tick_board) ∧
  (card_ids <$> columns (moveCard tick 3453453434 99 0 same_tick_board))
  = [ [123134; 12423423434]; [345345243534; tick]; [] ].
Proof.
  split; [by_computation|]. split; [by_computation|].
  split; [by_computation|]. vm_compute. reflexivity.
Qed.

(** C5: an instance of [reorderCardsInColumn_replaces_order], on
    Scenario B. *)
Lemma reorderCardsInColumn_replaces_order_witness :
  ∃ column',
    column_of 10 (reorderCardsInColumn 10 [2; 1] sample_board) = Some column' ∧
    card_ids column' = [2; 1].
Proof.
  assert (Hcol : 10 ∈ column_ids sample_board) by by_computation.
  destruct (reorderCardsInColumn_replaces_order 10 [2; 1] sample_board Hcol)
    as (_ & _ & _ & (column & column' & Hc & Hc' & Hids) & _).
  exists column'. split; [exact Hc'|].
  vm_compute in Hc. injection Hc as <-. rewrite Hids. reflexivity.
Defined.

(** C6: an instance of [handleDragEnd_commits_column_move], on
    Scenario C. *)
Lemma handleDragEnd_commits_column_move_witness :
  store_calls (handleDragEnd done_onto_todo seed_world)
  = [ReorderColumns [3; 3453453434; 2]].
Proof.
  destruct (handleDragEnd_commits_column_move done_onto_todo
              (mkEntity 3453453434 (Some "column"%string)) seed_world)
    as (activeIndex & overIndex & Ha & Ho & _ & _ & Hcommit);
    [reflexivity|reflexivity|reflexivity|by_computation|by_computation|].
  vm_compute in Ha. injection Ha as <-.
  vm_compute in Ho. injection Ho as <-.
  destruct Hcommit as (Hcalls & _). exact Hcalls.
Defined.

(** C8: an instance of [migrate_normalises_and_is_idempotent]. *)
Lemma migrate_normalises_and_is_idempotent_witness :
  (∃ column' card',
     p_columns (migrate old_snapshot 0) !! 0%nat = Some column' ∧
     pcolumn_items column' !! 0%nat = Some card' ∧
     pcard_comments card' = Js.JArr []) ∧
  p_boardTitle (migrate old_snapshot 0) = Js.JStr "Demo Board" ∧
  migrate (migrate old_snapshot 0) 0 = migrate old_snapshot 0.
Proof.
  destruct (migrate_normalises_and_is_idempotent old_snapshot 0 0
              (mkPersistedColumn 3 "Done"
                 [mkPersistedCard 123134 "Create interview" None (Js.JObj [])])
              (mkPersistedCard 123134 "Create interview" None (Js.JObj []))
              eq_refl eq_refl eq_refl)
    as ((column' & card' & Hcol & Hcard & _ & _ & _ & _ & _ & _ & Hcomments)
        & _ & _ & Htitle & _ & _ & _ & _ & _ & Hagain & _).
  split; [by exists column', card'|].
  split; [by apply Htitle|apply Hagain].
Defined.

(** * Further properties of the store *)

Lemma set_columns_same (state : BoardState) :
  set_columns state (columns state) = state.
Proof. by destruct state. Qed.

Lemma set_columns_twice (state : BoardState) (cs cs' : list ColumnType) :
  set_columns (set_columns state cs) cs' = set_columns state cs'.
Proof. reflexivity. Qed.

Lemma with_items_same (column : ColumnType) :
  with_items column (items column) = column.
Proof. by destruct column. Qed.

Lemma fmap_unchanged {A : Type} (f : A → A) (l : list A) :
  (∀ x, x ∈ l → f x = x) → f <$> l = l.
Proof.
  intros Hf. rewrite <- (list_fmap_id l) at 2.
  apply list_fmap_ext. intros i x Hx. apply Hf. by eapply list_elem_of_lookup_2.
Qed.

Lemma column_id_elem (c : ColumnType) (state : BoardState) :
  c ∈ columns state → column_id c ∈ column_ids state.
Proof. intros Hc. by apply list_elem_of_fmap_2. Qed.

(** ** [addCard] *)

(** X1. [addCard] on a column id the board does not have returns the state
    it was given: no card is created. *)
Theorem addCard_unknown_column_is_noop
    (now columnId : Z) (title : string) (state : BoardState) :
  columnId ∉ column_ids state →
  addCard now columnId title state = state.
Proof.
  intros Hno. unfold addCard. rewrite fmap_unchanged; [apply set_columns_same|].
  intros c Hc. rewrite decide_False; [done|].
  intros <-. by apply Hno, column_id_elem.
Qed.

(** ** [deleteColumn] *)

(** X2. After [deleteColumn] no column has the deleted id; the columns that
    remain are exactly the columns with another id, unchanged and in their
    former order; title and flag are kept; and deleting an id the board
    does not have changes nothing. *)
Theorem deleteColumn_removes_the_column (columnId : Z) (state : BoardState) :
  let state' := deleteColumn columnId state in
  (columnId ∉ column_ids state') ∧
  (∀ c, c ∈ columns state' ↔ c ∈ columns state ∧ column_id c ≠ columnId) ∧
  columns state' `sublist_of` columns state ∧
  boardTitle state' = boardTitle state ∧
  hasHydrated state' = hasHydrated state ∧
  (columnId ∉ column_ids state → state' = state).
Proof.
  unfold deleteColumn, column_ids. cbn [columns set_columns boardTitle hasHydrated].
  split.
  { intros (c & Hid & [Hne _]%list_elem_of_filter)%list_elem_of_fmap. done. }
  split.
  { intros c. rewrite list_elem_of_filter. tauto. }
  split; [apply sublist_filter|]. split; [done|]. split; [done|].
  intros Hno. rewrite filter_all; [apply set_columns_same|].
  intros c Hc <-. by apply Hno, list_elem_of_fmap_2.
Qed.

(** X3. Deleting a column twice is deleting it once, and two deletions can
    be made in either order. *)
Theorem deleteColumn_twice_and_swapped (a b : Z) (state : BoardState) :
  deleteColumn a (deleteColumn a state) = deleteColumn a state ∧
  deleteColumn a (deleteColumn b state) = deleteColumn b (deleteColumn a state).
Proof.
  unfold deleteColumn. cbn [columns set_columns]. rewrite !set_columns_twice.
  split; f_equal.
  - by apply list_filter_filter_l.
  - rewrite !list_filter_filter. apply list_filter_iff. tauto.
Qed.

(** ** [updateColumnTitle] *)

Lemma updateColumnTitle_columns columnId newTitle state :
  columns (updateColumnTitle columnId newTitle state)
  = (λ column,
       if decide (column_id column = columnId)
       then with_column_title column newTitle else column) <$> columns state.
Proof. reflexivity. Qed.

(** X4. [updateColumnTitle] keeps the column ids in their order and every
    column's items; the column the id resolves to afterwards is the one it
    resolved to before, with the new title; a second retitling of the same
    id overrides the first; and an id the board does not have changes
    nothing. *)
Theorem updateColumnTitle_retitles_only
    (columnId : Z) (newTitle : string) (state : BoardState) :
  let state' := updateColumnTitle columnId newTitle state in
  column_ids state' = column_ids state ∧
  (items <$> columns state') = (items <$> columns state) ∧
  all_card_ids state' = all_card_ids state ∧
  column_of columnId state'
  = (λ column, with_column_title column newTitle) <$> column_of columnId state ∧
  (∀ k, k ≠ columnId → column_of k state' = column_of k state) ∧
  (∀ t, updateColumnTitle columnId newTitle (updateColumnTitle columnId t state)
        = state') ∧
  (columnId ∉ column_ids state → state' = state).
Proof.
  intros state'.
  assert (Hkeep : ∀ c, column_id
            (if decide (column_id c = columnId)
             then with_column_title c newTitle else c) = column_id c)
    by (intros c; by destruct (decide _)).
  assert (Hitems : (items <$> columns state') = (items <$> columns state)).
  { unfold state'. rewrite updateColumnTitle_columns, <- list_fmap_compose.
    apply list_fmap_ext. intros _ c _. cbn. by destruct (decide _). }
  split.
  { unfold column_ids, state'. rewrite updateColumnTitle_columns.
    by apply fmap_keeps_column_ids. }
  split; [done|]. split.
  { unfold all_card_ids. f_equal.
    change card_ids with (fmap (M:=list) card_id ∘ items).
    by rewrite !list_fmap_compose, Hitems. }
  split.
  { unfold column_of, state'.
    rewrite updateColumnTitle_columns, find_fmap_column by done.
    destruct (Js.find _ _) as [c|] eqn:E; [|done]. cbn.
    apply find_Some in E as [_ E]. by rewrite decide_True. }
  split.
  { intros k Hk. unfold column_of, state'.
    rewrite updateColumnTitle_columns, find_fmap_column by done.
    destruct (Js.find _ _) as [c|] eqn:E; [|done]. cbn.
    apply find_Some in E as [_ E]. rewrite decide_False; [done|congruence]. }
  split.
  { intros t. unfold state', updateColumnTitle. cbn [columns set_columns].
    rewrite set_columns_twice. f_equal. rewrite <- list_fmap_compose.
    apply list_fmap_ext. intros _ c _. cbn.
    destruct (decide (column_id c = columnId)) as [E|E]; cbn;
      [by rewrite decide_True|by rewrite decide_False]. }
  intros Hno. unfold state', updateColumnTitle.
  rewrite fmap_unchanged; [apply set_columns_same|].
  intros c Hc. rewrite decide_False; [done|].
  intros <-. by apply Hno, column_id_elem.
Qed.

(** ** The card editors: [addComment], [updateCardTitle],
    [updateCardDescription] *)

Lemma map_cards_compose (f g : CardType → CardType) (state : BoardState) :
  map_cards g (map_cards f state) = map_cards (g ∘ f) state.
Proof.
  unfold map_cards. cbn [columns set_columns]. rewrite set_columns_twice.
  f_equal. rewrite <- list_fmap_compose. apply list_fmap_ext.
  intros _ c _. cbn. unfold with_items. cbn. f_equal.
  by rewrite <- list_fmap_compose.
Qed.

Lemma map_cards_ext (f g : CardType → CardType) (state : BoardState) :
  (∀ card, f card = g card) → map_cards f state = map_cards g state.
Proof.
  intros Hfg. unfold map_cards. f_equal. apply list_fmap_ext.
  intros _ c _. f_equal. apply list_fmap_ext. intros _ k _. apply Hfg.
Qed.

Lemma map_cards_unchanged (f : CardType → CardType) (state : BoardState) :
  (∀ column card, column ∈ columns state → card ∈ items column → f card = card) →
  map_cards f state = state.
Proof.
  intros Hf. unfold map_cards. rewrite fmap_unchanged; [apply set_columns_same|].
  intros c Hc. rewrite fmap_unchanged; [apply with_items_same|].
  intros k Hk. by apply (Hf c).
Qed.

Lemma map_cards_same_layout (f : CardType → CardType) (state : BoardState) :
  (∀ card, card_id (f card) = card_id card) →
  same_layout state (map_cards f state).
Proof.
  intros Hf. unfold same_layout, column_ids, map_cards. cbn [columns set_columns].
  rewrite <- !list_fmap_compose. repeat split.
  apply list_fmap_ext. intros _ c _. unfold card_ids. cbn.
  rewrite <- list_fmap_compose. apply list_fmap_ext. intros _ k _. apply Hf.
Qed.

Lemma map_cards_lookup (f : CardType → CardType) (state : BoardState)
    (i : nat) (column : ColumnType) :
  columns state !! i = Some column →
  columns (map_cards f state) !! i
  = Some (with_items column (f <$> items column)).
Proof.
  intros Hi. unfold map_cards. cbn [columns set_columns].
  by rewrite list_lookup_fmap, Hi.
Qed.

Lemma same_layout_all_card_ids (state state' : BoardState) :
  same_layout state state' → all_card_ids state' = all_card_ids state.
Proof. intros (_ & _ & Hids). unfold all_card_ids. by rewrite Hids. Qed.

Lemma same_layout_board_inv (state state' : BoardState) :
  same_layout state state' → board_inv state → board_inv state'.
Proof.
  intros Hl [Hc Hk]. pose proof (same_layout_all_card_ids _ _ Hl) as Hall.
  destruct Hl as (Hcols & _ & _). unfold board_inv. by rewrite Hcols, Hall.
Qed.

(** X5. The three card editors change no id and no place: after
    [updateCardTitle], [updateCardDescription] or [addComment] the board has
    the same columns (ids and titles, in order) and every column holds cards
    with the same ids in the same order. So they keep the invariant of the
    data model, whatever card id they are given. *)
Theorem card_editors_keep_the_layout
    (cardId : Z) (newTitle description : string)
    (now_string : string) (now : Z) (commentText : string)
    (state : BoardState) :
  same_layout state (updateCardTitle cardId newTitle state) ∧
  same_layout state (updateCardDescription cardId description state) ∧
  same_layout state (addComment now_string now cardId commentText state) ∧
  (board_inv state →
   board_inv (updateCardTitle cardId newTitle state) ∧
   board_inv (updateCardDescription cardId description state) ∧
   board_inv (addComment now_string now cardId commentText state)).
Proof.
  assert (H1 : same_layout state (updateCardTitle cardId newTitle state))
    by (apply map_cards_same_layout; intros k; by destruct (decide _)).
  assert (H2 : same_layout state (updateCardDescription cardId description state))
    by (apply map_cards_same_layout; intros k; by destruct (decide _)).
  assert (H3 : same_layout state
                 (addComment now_string now cardId commentText state))
    by (apply map_cards_same_layout; intros k; by destruct (decide _)).
  split; [done|]. split; [done|]. split; [done|].
  intros Hinv. by split; [|split]; eapply same_layout_board_inv.
Qed.

(** X6. [addComment] is append-only. A card keeps its id, title and
    description; its comments are those of before, followed, when its id is
    [cardId], by the one new comment (text as given, author "User", id and
    time from the clock). When no card has the id, the state is returned
    unchanged. *)
Theorem addComment_appends_one_comment
    (now_string : string) (now cardId : Z) (commentText : string)
    (state : BoardState) (i j : nat) (column : ColumnType) (card : CardType) :
  columns state !! i = Some column →
  items column !! j = Some card →
  let state' := addComment now_string now cardId commentText state in
  (∃ column' card',
     columns state' !! i = Some column' ∧
     items column' !! j = Some card' ∧
     length (items column') = length (items column) ∧
     card_id card' = card_id card ∧
     card_title card' = card_title card ∧
     card_description card' = card_description card ∧
     card_comments card'
     = card_comments card
       ++ (if decide (card_id card = cardId)
           then [mkComment now_string commentText (Some "User"%string) now]
           else [])) ∧
  (cardId ∉ all_card_ids state → state' = state).
Proof.
  intros Hi Hj state'. split.
  - unfold state', addComment. rewrite (map_cards_lookup _ _ _ _ Hi).
    eexists. eexists. split; [reflexivity|]. cbn [items with_items].
    rewrite list_lookup_fmap, Hj, length_fmap. split; [reflexivity|].
    split; [done|]. destruct (decide (card_id card = cardId)); cbn;
      by rewrite ?app_nil_r.
  - intros Hno. apply map_cards_unchanged. intros c k Hc Hk.
    rewrite decide_False; [done|]. intros <-. apply Hno.
    apply all_card_ids_elem. exists c. split; [done|].
    by apply list_elem_of_fmap_2.
Qed.

(** X7. [updateCardTitle] and [updateCardDescription] touch one field of
    the cards with the given id and nothing else: such a card gets the new
    title, respectively the new description (an empty text included), and
    keeps its other fields; every other card is unchanged. Of two updates
    of the same field of the same id the second one stands, an update of
    the title and one of the description can be made in either order, and
    an id no card has changes nothing. *)
Theorem card_field_updates
    (cardId : Z) (newTitle description : string)
    (state : BoardState) (i j : nat) (column : ColumnType) (card : CardType) :
  columns state !! i = Some column →
  items column !! j = Some card →
  (∃ column',
     columns (updateCardTitle cardId newTitle state) !! i = Some column' ∧
     items column' !! j
     = Some (if decide (card_id card = cardId)
             then mkCard (card_id card) newTitle (card_description card)
                         (card_comments card)
             else card)) ∧
  (∃ column',
     columns (updateCardDescription cardId description state) !! i
     = Some column' ∧
     items column' !! j
     = Some (if decide (card_id card = cardId)
             then mkCard (card_id card) (card_title card) (Some description)
                         (card_comments card)
             else card)) ∧
  (∀ t, updateCardTitle cardId newTitle (updateCardTitle cardId t state)
        = updateCardTitle cardId newTitle state) ∧
  (∀ d, updateCardDescription cardId description
          (updateCardDescription cardId d state)
        = updateCardDescription cardId description state) ∧
  (∀ otherId,
     updateCardTitle cardId newTitle
       (updateCardDescription otherId description state)
     = updateCardDescription otherId description
         (updateCardTitle cardId newTitle state)) ∧
  (cardId ∉ all_card_ids state →
   updateCardTitle cardId newTitle state = state ∧
   updateCardDescription cardId description state = state).
Proof.
  intros Hi Hj.
  split.
  { unfold updateCardTitle. rewrite (map_cards_lookup _ _ _ _ Hi).
    eexists. split; [reflexivity|]. cbn [items with_items].
    rewrite list_lookup_fmap, Hj. cbn. by destruct (decide _). }
  split.
  { unfold updateCardDescription. rewrite (map_cards_lookup _ _ _ _ Hi).
    eexists. split; [reflexivity|]. cbn [items with_items].
    rewrite list_lookup_fmap, Hj. cbn. by destruct (decide _). }
  split.
  { intros t. unfold updateCardTitle. rewrite map_cards_compose.
    apply map_cards_ext. intros k. cbn.
    destruct (decide (card_id k = cardId)) as [E|E]; cbn;
      [by rewrite decide_True|by rewrite decide_False]. }
  split.
  { intros d. unfold updateCardDescription. rewrite map_cards_compose.
    apply map_cards_ext. intros k. cbn.
    destruct (decide (card_id k = cardId)) as [E|E]; cbn;
      [by rewrite decide_True|by rewrite decide_False]. }
  split.
  { intros otherId. unfold updateCardTitle, updateCardDescription.
    rewrite !map_cards_compose. apply map_cards_ext. intros k. cbn.
    destruct (decide (card_id k = otherId)), (decide (card_id k = cardId)); cbn;
      repeat case_decide; done. }
  intros Hno.
  assert (Hother : ∀ c k, c ∈ columns state → k ∈ items c → card_id k ≠ cardId).
  { intros c k Hc Hk <-. apply Hno, all_card_ids_elem. exists c.
    split; [done|]. by apply list_elem_of_fmap_2. }
  split; apply map_cards_unchanged; intros c k Hc Hk;
    by rewrite decide_False by (by eapply Hother).
Qed.

(** ** [reorderColumns] *)

Lemma find_by_key {A : Type} (f : A → Z) (l : list A) (x : A) :
  NoDup (f <$> l) → x ∈ l → Js.find (λ y, f y = f x) l = Some x.
Proof.
  induction l as [|y l IH]; [by intros _ ?%elem_of_nil|].
  rewrite fmap_cons, find_cons.
  intros [Hy Hnd]%NoDup_cons [->|Hin]%elem_of_cons.
  - by rewrite decide_True.
  - rewrite decide_False; [by apply IH|].
    intros E. apply Hy. rewrite E. by apply list_elem_of_fmap_2.
Qed.

Lemma omap_fmap_back {A B : Type} (f : B → option A) (g : A → B) (l : list A) :
  (∀ x, x ∈ l → f (g x) = Some x) → omap f (g <$> l) = l.
Proof.
  induction l as [|x l IH]; intros Hfg; [done|].
  rewrite fmap_cons. cbn [omap list_omap]. rewrite Hfg by left.
  rewrite IH; [done|]. intros y Hy. apply Hfg. by right.
Qed.

Lemma reorderColumns_columns (ids : list Z) (state : BoardState) :
  columns (reorderColumns ids state) = omap (λ i, column_of i state) ids.
Proof. unfold reorderColumns. cbn [columns set_columns]. apply omap_id_fmap. Qed.

Lemma reordered_column_ids (ids : list Z) (state : BoardState) :
  column_id <$> omap (λ i, column_of i state) ids
  = filter (λ i, i ∈ column_ids state) ids.
Proof.
  induction ids as [|k ks IH]; [done|]. cbn [omap list_omap].
  destruct (column_of k state) as [c|] eqn:E.
  - pose proof E as [_ Hid]%find_Some.
    rewrite fmap_cons, IH, Hid, filter_cons_True; [done|].
    apply column_of_is_Some. by rewrite E.
  - rewrite IH, filter_cons_False; [done|].
    rewrite column_of_is_Some, E. by intros [? ?].
Qed.

Lemma reorderColumns_own_order (state : BoardState) :
  NoDup (column_ids state) →
  reorderColumns (column_ids state) state = state.
Proof.
  intros Hnd. unfold reorderColumns. rewrite omap_id_fmap.
  unfold column_ids at 1. rewrite omap_fmap_back; [apply set_columns_same|].
  intros c Hc. by apply column_of_unique.
Qed.

(** X8. [reorderColumns] in general: the new column ids are the given ids,
    in the given order, without those that are the id of no column; every
    column of the result is a column of the board as it was; an id resolves
    afterwards to the column it resolved to before when it is in the list,
    and to nothing when it is not, so a column whose id is left out is
    dropped with its cards; the empty list empties the board. Title and
    flag are kept. *)
Theorem reorderColumns_keeps_the_listed_columns
    (ids : list Z) (state : BoardState) :
  let state' := reorderColumns ids state in
  column_ids state' = filter (λ i, i ∈ column_ids state) ids ∧
  (∀ c, c ∈ columns state' → c ∈ columns state) ∧
  (∀ k, column_of k state'
        = if decide (k ∈ ids) then column_of k state else None) ∧
  (∀ x, x ∈ all_card_ids state' → x ∈ all_card_ids state) ∧
  columns (reorderColumns [] state) = [] ∧
  boardTitle state' = boardTitle state ∧
  hasHydrated state' = hasHydrated state.
Proof.
  intros state'.
  assert (Hcols : columns state' = omap (λ i, column_of i state) ids)
    by apply reorderColumns_columns.
  assert (Hsub : ∀ c, c ∈ columns state' → c ∈ columns state).
  { intros c. rewrite Hcols. intros (k & _ & Hk)%list_elem_of_omap.
    by apply find_Some in Hk as [? _]. }
  split; [unfold column_ids at 1; rewrite Hcols; apply reordered_column_ids|].
  split; [done|]. split.
  { intros k. unfold column_of at 1. rewrite Hcols. apply find_in_reordered. }
  split.
  { intros x (c & Hc & Hx)%all_card_ids_elem. apply all_card_ids_elem.
    exists c. auto. }
  done.
Qed.

(** X9. [reorderColumns] by a rearrangement of the board's column ids, on a
    board whose column ids are pairwise distinct: the columns are the same
    columns, now in the order of the list; no card id is lost or gained and
    the invariant of the data model is kept; reordering by the current
    order changes nothing. *)
Theorem reorderColumns_by_rearrangement
    (ids : list Z) (state : BoardState) :
  NoDup (column_ids state) →
  ids ≡ₚ column_ids state →
  let state' := reorderColumns ids state in
  column_ids state' = ids ∧
  columns state' ≡ₚ columns state ∧
  all_card_ids state' ≡ₚ all_card_ids state ∧
  (board_inv state → board_inv state') ∧
  reorderColumns (column_ids state) state = state.
Proof.
  intros Hnd Hperm state'.
  assert (Hcols : columns state' ≡ₚ columns state).
  { unfold state'. rewrite reorderColumns_columns, Hperm.
    unfold column_ids. rewrite omap_fmap_back; [done|].
    intros c Hc. by apply column_of_unique. }
  assert (Hids : column_ids state' = ids).
  { unfold column_ids at 1, state'.
    rewrite reorderColumns_columns, reordered_column_ids.
    apply filter_all. intros k Hk. by rewrite <- Hperm. }
  assert (Hall : all_card_ids state' ≡ₚ all_card_ids state)
    by (unfold all_card_ids; by rewrite Hcols).
  split; [done|]. split; [done|]. split; [done|]. split.
  - intros [_ Hcards]. unfold board_inv. by rewrite Hids, Hperm, Hall.
  - by apply reorderColumns_own_order.
Qed.

(** ** [reorderCardsInColumn] and [moveCard], composed *)

Lemma NoDup_card_ids (state : BoardState) (c : ColumnType) :
  NoDup (all_card_ids state) → c ∈ columns state → NoDup (card_ids c).
Proof.
  unfold all_card_ids. induction (columns state) as [|c' cols IH];
    [by intros _ ?%elem_of_nil|].
  rewrite fmap_cons. change (mjoin (card_ids c' :: (card_ids <$> cols)))
    with (card_ids c' ++ mjoin (card_ids <$> cols)).
  intros (Hc' & _ & Hrest)%NoDup_app [->|Hin]%elem_of_cons; [done|].
  by apply IH.
Qed.

Lemma card_of_at (c : ColumnType) (j : nat) (card : CardType) :
  NoDup (card_ids c) →
  items c !! j = Some card →
  card_of (card_id card) c = Some card.
Proof.
  intros Hnd Hj. apply (find_by_key card_id); [done|].
  by eapply list_elem_of_lookup_2.
Qed.

(** X10. [reorderCardsInColumn] by the column's own order, on a board that
    satisfies the invariant of the data model, changes nothing; and for a
    column id the board does not have it changes nothing whatever the list
    is. *)
Theorem reorderCardsInColumn_own_order_or_unknown_column
    (columnId : Z) (state : BoardState) :
  board_inv state →
  (∀ column, column_of columnId state = Some column →
     reorderCardsInColumn columnId (card_ids column) state = state) ∧
  (columnId ∉ column_ids state →
   ∀ cardIds, reorderCardsInColumn columnId cardIds state = state).
Proof.
  intros [Hcols Hcards]. split.
  - intros column Hcolumn.
    assert (Heq : columns (reorderCardsInColumn columnId (card_ids column) state)
                  = columns state).
    { rewrite reorderCardsInColumn_columns. apply fmap_unchanged.
      intros c Hc. destruct (decide (column_id c = columnId)) as [E|E]; [|done].
      assert (c = column) as ->.
      { pose proof (column_of_unique state c Hcols Hc) as Hc'.
        rewrite E, Hcolumn in Hc'. congruence. }
      unfold card_ids. rewrite omap_fmap_back; [apply with_items_same|].
      intros k [j Hk]%list_elem_of_lookup_1.
      eapply card_of_at; [by eapply NoDup_card_ids|done]. }
    unfold reorderCardsInColumn in *. cbn [columns set_columns] in Heq.
    rewrite Heq. apply set_columns_same.
  - intros Hno cardIds. unfold reorderCardsInColumn.
    rewrite fmap_unchanged; [apply set_columns_same|].
    intros c Hc. rewrite decide_False; [done|].
    intros <-. by apply Hno, column_id_elem.
Qed.

Lemma find_app {A : Type} (P : A → Prop) `{!∀ x, Decision (P x)}
    (l1 l2 : list A) :
  Js.find P (l1 ++ l2)
  = match Js.find P l1 with Some x => Some x | None => Js.find P l2 end.
Proof.
  induction l1 as [|y l1 IH]; [done|].
  rewrite <- app_comm_cons, !find_cons. by destruct (decide (P y)).
Qed.

Lemma find_insert_at {A : Type} (P : A → Prop) `{!∀ x, Decision (P x)}
    (p : nat) (x : A) (l : list A) :
  P x → (∀ y, y ∈ l → ¬ P y) → Js.find P (insert_at p x l) = Some x.
Proof.
  intros Hx Hl. unfold insert_at. rewrite find_app.
  assert (Js.find P (take p l) = None) as ->.
  { apply find_None. intros y Hy. apply Hl.
    eapply elem_of_sublist; [exact Hy|apply sublist_take]. }
  by rewrite find_cons, decide_True.
Qed.

Lemma filter_insert_at {A : Type} (P : A → Prop) `{!∀ x, Decision (P x)}
    (p : nat) (x : A) (l : list A) :
  ¬ P x → (∀ y, y ∈ l → P y) → filter P (insert_at p x l) = l.
Proof.
  intros Hx Hl. unfold insert_at.
  rewrite filter_app, filter_cons_False by done.
  rewrite <- filter_app, take_drop. by apply filter_all.
Qed.

Lemma filter_delete (l : list CardType) (j : nat) (card : CardType) :
  NoDup (card_id <$> l) →
  l !! j = Some card →
  filter (λ item, card_id item ≠ card_id card) l = delete j l.
Proof.
  revert j. induction l as [|k l IH]; intros j; [done|].
  rewrite fmap_cons. intros [Hk Hnd]%NoDup_cons Hj. destruct j as [|j].
  - cbn in Hj. injection Hj as ->. rewrite filter_cons_False by (by intros ?).
    cbn. apply filter_all. intros y Hy E. apply Hk. rewrite <- E.
    by apply list_elem_of_fmap_2.
  - cbn in Hj. rewrite filter_cons_True.
    + cbn. f_equal. by apply IH.
    + intros E. apply Hk. rewrite E. apply list_elem_of_fmap_2.
      by eapply list_elem_of_lookup_2.
Qed.

Lemma insert_at_delete {A : Type} (l : list A) (j : nat) (x : A) :
  l !! j = Some x → insert_at j x (delete j l) = l.
Proof.
  revert j. induction l as [|y l IH]; intros j Hj; [done|].
  destruct j as [|j]; cbn in Hj.
  - injection Hj as ->. unfold insert_at. cbn. by rewrite drop_0.
  - unfold insert_at in *. cbn. f_equal. by apply IH.
Qed.

(** X11. Moving a card to another column and back restores the board. On a
    board that satisfies the invariant of the data model, when the card at
    position [j] of the column [fromColumnId] is moved to another existing
    column (at any index) and then moved back at index [j], the state is
    the one before the two calls. *)
Theorem moveCard_there_and_back
    (fromColumnId toColumnId newIndex : Z) (j : nat)
    (fromColumn : ColumnType) (card : CardType) (state : BoardState) :
  board_inv state →
  column_of fromColumnId state = Some fromColumn →
  items fromColumn !! j = Some card →
  toColumnId ∈ column_ids state →
  toColumnId ≠ fromColumnId →
  moveCard (card_id card) toColumnId fromColumnId (Z.of_nat j)
    (moveCard (card_id card) fromColumnId toColumnId newIndex state)
  = state.
Proof.
  intros [Hcols Hcards] Hfrom Hj Hto Hne.
  pose proof Hfrom as [HfromIn HfromId]%find_Some.
  assert (Hcard : card_of (card_id card) fromColumn = Some card)
    by (eapply card_of_at; [by eapply NoDup_card_ids|done]).
  assert (Hheld : card_id card ∈ card_ids fromColumn)
    by (apply list_elem_of_fmap_2; by eapply list_elem_of_lookup_2).
  apply column_of_is_Some in Hto as [toColumn HtoC].
  pose proof HtoC as [HtoIn HtoId]%find_Some.
  assert (Habsent : ∀ c, c ∈ columns state → column_id c ≠ fromColumnId →
                         card_id card ∉ card_ids c).
  { intros c Hc Hid Hin. apply Hid.
    by rewrite (holder_is_unique (card_id card) state c fromColumn). }
  rewrite (moveCard_found _ _ _ newIndex _ _ _ Hfrom Hcard).
  set (there := λ column : ColumnType,
         let rest := without_card (card_id card) fromColumnId column in
         if decide (column_id column = toColumnId)
         then with_items column
                (insert_at (Z.to_nat (insertion_position newIndex
                                        (Z.of_nat (length rest)))) card rest)
         else with_items column rest).
  assert (Hids : ∀ c, column_id (there c) = column_id c)
    by (intros c; unfold there; cbn zeta; by destruct (decide _)).
  assert (Hto' : column_of toColumnId (set_columns state (there <$> columns state))
                 = Some (there toColumn)).
  { unfold column_of in *. cbn [columns set_columns].
    by rewrite find_fmap_column, HtoC. }
  assert (HthereTo : items (there toColumn)
            = insert_at (Z.to_nat (insertion_position newIndex
                           (Z.of_nat (length (items toColumn))))) card
                (items toColumn)).
  { unfold there, without_card. cbn zeta.
    rewrite (decide_False (P := column_id toColumn = fromColumnId)) by congruence.
    by rewrite decide_True. }
  assert (Hcard' : card_of (card_id card) (there toColumn) = Some card).
  { unfold card_of. rewrite HthereTo. apply find_insert_at; [done|].
    intros y Hy E. apply (Habsent toColumn HtoIn); [congruence|].
    rewrite <- E. by apply list_elem_of_fmap_2. }
  rewrite (moveCard_found _ _ _ (Z.of_nat j) _ _ _ Hto' Hcard').
  cbn [columns set_columns]. rewrite set_columns_twice, <- list_fmap_compose.
  rewrite fmap_unchanged; [apply set_columns_same|].
  intros c Hc. unfold compose. cbn zeta. rewrite !Hids.
  destruct (decide (column_id c = fromColumnId)) as [E|E].
  - assert (c = fromColumn) as ->.
    { pose proof (column_of_unique state c Hcols Hc) as Hc'.
      rewrite E, Hfrom in Hc'. congruence. }
    assert (Hitems : items (there fromColumn)
              = delete j (items fromColumn)).
    { unfold there, without_card. cbn zeta.
      rewrite (decide_True (P := column_id fromColumn = fromColumnId)) by done.
      rewrite decide_False by congruence. cbn [items with_items].
      apply filter_delete; [|done]. by eapply NoDup_card_ids. }
    unfold without_card. rewrite Hids.
    rewrite (decide_False (P := column_id fromColumn = toColumnId)) by congruence.
    rewrite Hitems.
    pose proof (lookup_lt_Some _ _ _ Hj) as Hlt.
    assert (Hlen : length (delete j (items fromColumn))
                   = pred (length (items fromColumn)))
      by (rewrite length_delete; [lia|by eexists]).
    rewrite Hlen. unfold insertion_position. rewrite decide_True by lia.
    replace (Z.to_nat (Z.min (Z.of_nat j)
                         (Z.of_nat (pred (length (items fromColumn))))))
      with j by lia.
    rewrite insert_at_delete by done.
    unfold there. cbn zeta. rewrite decide_False by congruence.
    by destruct fromColumn.
  - destruct (decide (column_id c = toColumnId)) as [E'|E'].
    + assert (c = toColumn) as ->.
      { pose proof (column_of_unique state c Hcols Hc) as Hc'.
        rewrite E', HtoC in Hc'. congruence. }
      unfold without_card. rewrite Hids, decide_True by done.
      rewrite HthereTo, filter_insert_at.
      * unfold there. cbn zeta. rewrite decide_True by done.
        by destruct toColumn.
      * by intros ?.
      * intros y Hy Ey. apply (Habsent toColumn HtoIn E).
        rewrite <- Ey. by apply list_elem_of_fmap_2.
    + unfold without_card. rewrite Hids, decide_False by done.
      unfold there, without_card. cbn zeta.
      rewrite !decide_False by done. by destruct c.
Qed.

(** ** [migrate], on whole snapshots *)

Lemma migrate_0_to_1_arrays (state : PersistedState) column card :
  column ∈ p_columns (migrate_0_to_1 state) →
  card ∈ pcolumn_items column →
  Js.isArray (pcard_comments card) = true.
Proof.
  unfold migrate_0_to_1. cbn [p_columns].
  intros (c & -> & _)%list_elem_of_fmap. cbn [pcolumn_items].
  intros (k & -> & _)%list_elem_of_fmap. unfold normalise_comments. cbn.
  by destruct (Js.isArray (pcard_comments k)) eqn:E.
Qed.

Lemma migrate_0_to_1_current (state : PersistedState) :
  (∀ column card,
     column ∈ p_columns state → card ∈ pcolumn_items column →
     Js.isArray (pcard_comments card) = true) →
  migrate_0_to_1 state = state.
Proof.
  intros Harr. unfold migrate_0_to_1. destruct state as [t h cols]. cbn in *.
  f_equal. apply fmap_unchanged. intros c Hc. destruct c as [ci ct cards].
  cbn in *. f_equal. apply fmap_unchanged. intros k Hk.
  unfold normalise_comments. rewrite (Harr _ _ Hc Hk). by destruct k.
Qed.

Lemma migrate_1_to_2_current (state : PersistedState) :
  Js.truthy (p_boardTitle state) = true → migrate_1_to_2 state = state.
Proof.
  intros Ht. unfold migrate_1_to_2, Js.or_else. rewrite Ht. by destruct state.
Qed.

Lemma migrate_0_to_1_cards (state : PersistedState) :
  snapshot_cards (migrate_0_to_1 state) = snapshot_cards state.
Proof.
  unfold snapshot_cards, migrate_0_to_1. cbn [p_columns].
  rewrite <- list_fmap_compose. apply list_fmap_ext. intros _ c _. cbn.
  f_equal. by rewrite <- list_fmap_compose.
Qed.

(** X12. [migrate] on whole snapshots. Whatever the stored version, it
    keeps the columns and cards with their ids, titles, descriptions and
    order, and the hydration flag; only comments and board title can
    change, and from a version other than 0 the columns are not touched at
    all. From version 0 the result has the shape of the current version
    (truthy title, every card's comments an array), and a snapshot of that
    shape is left as it is by a migration from any version. *)
Theorem migrate_keeps_cards_and_reaches_current_shape
    (persisted : PersistedState) :
  (∀ version, snapshot_cards (migrate persisted version)
              = snapshot_cards persisted) ∧
  (∀ version, p_hasHydrated (migrate persisted version)
              = p_hasHydrated persisted) ∧
  (∀ version, version ≠ 0 →
     p_columns (migrate persisted version) = p_columns persisted) ∧
  snapshot_current (migrate persisted 0) ∧
  (snapshot_current persisted →
   ∀ version, migrate persisted version = persisted).
Proof.
  split.
  { intros v. rewrite migrate_steps. repeat case_decide; try done.
    change (snapshot_cards (migrate_1_to_2 (migrate_0_to_1 persisted)))
      with (snapshot_cards (migrate_0_to_1 persisted)).
    apply migrate_0_to_1_cards. }
  split; [intros v; rewrite migrate_steps; by repeat case_decide|].
  split; [intros v Hv; rewrite migrate_steps; by repeat case_decide|].
  split.
  { rewrite migrate_steps, decide_True by done. split.
    - by apply or_else_truthy.
    - apply migrate_0_to_1_arrays. }
  intros [Ht Harr] v. rewrite migrate_steps.
  repeat case_decide;
    rewrite ?(migrate_0_to_1_current _ Harr), ?(migrate_1_to_2_current _ Ht);
    done.
Qed.

(** * Further properties of the drag handlers *)

Lemma some_card_ids (x : Z) (c : ColumnType) :
  Js.some (λ item, card_id item = x) (items c) ↔ x ∈ card_ids c.
Proof.
  unfold Js.some, card_ids.
  rewrite bool_decide_spec, Exists_exists, list_elem_of_fmap. split.
  - intros (k & Hk & <-). by exists k.
  - intros (k & -> & Hk). by exists k.
Qed.

Lemma index_of_None (x : Z) (l : list Z) : index_of x l = None ↔ x ∉ l.
Proof.
  split.
  - intros E Hin. apply index_of_is_Some in Hin as [n Hn]. congruence.
  - intros Hno. destruct (index_of x l) as [n|] eqn:E; [|done].
    apply index_of_lookup in E. destruct Hno. by eapply list_elem_of_lookup_2.
Qed.

Lemma index_of_lt (x : Z) (l : list Z) (n : nat) :
  index_of x l = Some n → (n < length l)%nat.
Proof. intros E%index_of_lookup. by eapply lookup_lt_Some. Qed.

Lemma findIndex_index_of {A : Type} (f : A → Z) (x : Z) (l : list A) :
  Js.findIndex (λ y, f y = x) l
  = match index_of x (f <$> l) with
    | Some n => Z.of_nat n
    | None => -1
    end.
Proof.
  unfold Js.findIndex. induction l as [|y l IH]; [done|].
  rewrite fmap_cons, index_of_cons. cbn [list_find].
  destruct (decide (f y = x)); [done|].
  destruct (list_find _ l) as [[k z]|], (index_of x (f <$> l)) as [m|];
    cbn in *; lia.
Qed.

Lemma first_holder (x : Z) (state : BoardState) :
  match Js.find (λ col, Js.some (λ item, card_id item = x) (items col))
              (columns state) with
  | Some c => c ∈ columns state ∧ x ∈ card_ids c
  | None => x ∉ all_card_ids state
  end.
Proof.
  destruct (Js.find _ _) as [c|] eqn:E.
  - apply find_Some in E as [Hc Hx]. by apply some_card_ids in Hx.
  - rewrite find_None in E. intros (c & Hc & Hx)%all_card_ids_elem.
    by apply (E c Hc), some_card_ids.
Qed.

(** X13. [handleDragStart] touches neither the store nor the storage nor
    the preview. The drag of a column clears the overlay. The drag of
    anything else shows in the overlay a card of the board with the dragged
    id, with its title and the number of its comments, when there is one,
    and leaves the overlay as it was when no card has that id. *)
Theorem handleDragStart_shows_the_dragged_card (event : DragEvent) (w : World) :
  let w' := handleDragStart event w in
  store w' = store w ∧
  storage_writes w' = storage_writes w ∧
  store_calls w' = store_calls w ∧
  dragPosition w' = dragPosition w ∧
  (is_column (active event) = true → activeCard w' = None) ∧
  (is_column (active event) = false →
   if decide (entity_id (active event) ∈ all_card_ids (store w))
   then ∃ column card,
          column ∈ columns (store w) ∧
          card_of (entity_id (active event)) column = Some card ∧
          activeCard w'
          = Some (mkActiveCard (entity_id (active event)) (card_title card)
                               (length (card_comments card)))
   else activeCard w' = activeCard w).
Proof.
  unfold handleDragStart. destruct (is_column (active event)); [done|].
  destruct (omap _ _) as [|card rest] eqn:E.
  - repeat split; try done. intros _. rewrite decide_False; [done|].
    intros (c & Hc & Hx)%all_card_ids_elem.
    apply card_of_in_column in Hx as [card Hcard].
    assert (card ∈ @nil CardType) as Hin; [|by apply elem_of_nil in Hin].
    rewrite <- E. apply list_elem_of_omap. by exists c.
  - repeat split; try done. intros _.
    assert (card ∈ card :: rest) as Hin by left. rewrite <- E in Hin.
    apply list_elem_of_omap in Hin as (c & Hc & Hcard).
    rewrite decide_True.
    + exists c, card. split; [done|]. split; [done|]. cbn.
      by rewrite (card_of_id _ _ _ Hcard).
    + apply all_card_ids_elem. exists c. split; [done|].
      apply card_of_in_column. by eexists.
Qed.

(** X14. The preview [handleDragOver] computes for the drag of a card over
    a target. When there is a preview, it names the dragged id, as source a
    column of the board that holds a card with that id, and as target a
    column of the board that holds a card with the hovered id or has the
    hovered id itself; the index lies between 0 and the length of the
    target column: it is the first position of the hovered id among the
    target's cards when the target holds such a card (insert before the
    hovered card), and the length otherwise (append). There is no preview
    exactly when the dragged id is on no card, or the hovered id is neither
    on a card nor a column's. *)
Theorem handleDragOver_preview_is_well_formed
    (event : DragEvent) (target : Entity) (w : World) :
  over event = Some target →
  is_column (active event) = false →
  match dragPosition (handleDragOver event w) with
  | Some p =>
      activeId p = entity_id (active event) ∧
      ∃ fromColumn toColumn,
        fromColumn ∈ columns (store w) ∧
        column_id fromColumn = fromColumnId p ∧
        entity_id (active event) ∈ card_ids fromColumn ∧
        toColumn ∈ columns (store w) ∧
        column_id toColumn = toColumnId p ∧
        (entity_id target ∈ card_ids toColumn
         ∨ column_id toColumn = entity_id target) ∧
        0 ≤ toIndex p ≤ Z.of_nat (length (items toColumn)) ∧
        match index_of (entity_id target) (card_ids toColumn) with
        | Some n => toIndex p = Z.of_nat n
        | None => toIndex p = Z.of_nat (length (items toColumn))
        end
  | None =>
      entity_id (active event) ∉ all_card_ids (store w)
      ∨ ((entity_id target ∉ all_card_ids (store w))
         ∧ (entity_id target ∉ column_ids (store w)))
  end.
Proof.
  intros Hover Hact. unfold handleDragOver. rewrite Hover, Hact.
  pose proof (first_holder (entity_id (active event)) (store w)) as Hfrom.
  destruct (Js.find _ _) as [a|]; [|by left].
  destruct (Js.find _ _) as [o|] eqn:Ho.
  - cbn [dragPosition setDragPosition activeId fromColumnId toColumnId toIndex].
    split; [done|]. destruct Hfrom as [Ha Hin].
    apply find_Some in Ho as [Ho Hmatch]. cbn zeta in Hmatch.
    apply orb_True in Hmatch as [Hm|Hm].
    all: exists a, o; split; [done|]; split; [done|]; split; [done|];
      split; [done|]; split; [done|].
    all: split; [first [left; by apply some_card_ids
                       |right; by apply bool_decide_spec in Hm]|].
    all: assert (Hidx : (if decide (column_id a = column_id o)
            then if decide (Js.findIndex (λ item, card_id item = entity_id target)
                              (items o) ≠ -1)
                 then Js.findIndex (λ item, card_id item = entity_id target)
                        (items o)
                 else Z.of_nat (length (items o))
            else if decide (Js.findIndex (λ item, card_id item = entity_id target)
                              (items o) ≠ -1)
                 then Js.findIndex (λ item, card_id item = entity_id target)
                        (items o)
                 else Z.of_nat (length (items o)))
          = match index_of (entity_id target) (card_ids o) with
            | Some n => Z.of_nat n
            | None => Z.of_nat (length (items o))
            end)
      by (rewrite findIndex_index_of; fold (card_ids o);
          destruct (index_of _ _) as [n|]; repeat case_decide; lia || done).
    all: rewrite Hidx; destruct (index_of _ (card_ids o)) as [n|] eqn:En;
      [apply index_of_lt in En; unfold card_ids in En;
       rewrite length_fmap in En; split; [lia|done]
      |split; [lia|done]].
  - right. rewrite find_None in Ho. split.
    + intros (c & Hc & Hx)%all_card_ids_elem. apply (Ho c Hc). cbn zeta.
      apply orb_True. left. by apply some_card_ids.
    + intros (c & Hid & Hc)%list_elem_of_fmap. apply (Ho c Hc). cbn zeta.
      apply orb_True. right. by apply bool_decide_spec.
Qed.

Lemma findIndex_range {A : Type} (P : A → Prop) `{!∀ x, Decision (P x)}
    (l : list A) :
  -1 ≤ Js.findIndex P l < Z.of_nat (length l).
Proof.
  unfold Js.findIndex. destruct (list_find P l) as [[n x]|] eqn:E; [|lia].
  apply list_find_Some in E as (Hx%lookup_lt_Some & _). lia.
Qed.

Lemma splice_remove_last_or_at {A : Type} (l : list A) (from : Z) :
  l ≠ [] →
  -1 ≤ from < Z.of_nat (length l) →
  ∃ (s : nat) (x : A),
    l !! s = Some x ∧ Js.splice l from 1 [] = ([x], delete s l).
Proof.
  intros Hne Hrange.
  assert (0 < length l)%nat by (destruct l; [done|cbn; lia]).
  destruct (decide (from = -1)) as [->|Hfrom].
  - destruct (lookup_lt_is_Some_2 l (pred (length l))) as [x Hx]; [lia|].
    exists (pred (length l)), x. split; [done|].
    rewrite <- (splice_remove_one _ _ _ Hx). unfold Js.splice.
    replace (Js.actualStart (Z.of_nat (length l)) (-1))
      with (Js.actualStart (Z.of_nat (length l)) (Z.of_nat (pred (length l))));
      [done|].
    rewrite actualStart_in_range by lia. unfold Js.actualStart. cbn. lia.
  - destruct (lookup_lt_is_Some_2 l (Z.to_nat from)) as [x Hx]; [lia|].
    exists (Z.to_nat from), x. split; [done|].
    rewrite <- (splice_remove_one _ _ _ Hx). by rewrite Z2Nat.id by lia.
Qed.

Lemma arrayMove_Permutation {A : Type} (l : list A) (from to : Z) :
  l ≠ [] →
  -1 ≤ from < Z.of_nat (length l) →
  arrayMove l from to ≡ₚ l.
Proof.
  intros Hne Hrange.
  destruct (splice_remove_last_or_at l from Hne Hrange) as (s & x & Hx & Hs).
  unfold arrayMove. rewrite Hs. cbn [take].
  rewrite splice_insert, insert_at_Permutation.
  symmetry. by apply delete_Permutation.
Qed.

Lemma reorderColumns_rearranged (ids : list Z) (state : BoardState) :
  NoDup (column_ids state) →
  ids ≡ₚ column_ids state →
  columns (reorderColumns ids state) ≡ₚ columns state ∧
  column_ids (reorderColumns ids state) = ids ∧
  all_card_ids (reorderColumns ids state) ≡ₚ all_card_ids state.
Proof.
  intros Hnd Hperm.
  assert (Hcols : columns (reorderColumns ids state) ≡ₚ columns state).
  { rewrite reorderColumns_columns, Hperm.
    unfold column_ids. rewrite omap_fmap_back; [done|].
    intros c Hc. by apply column_of_unique. }
  split; [done|]. split.
  - unfold column_ids at 1.
    rewrite reorderColumns_columns, reordered_column_ids.
    apply filter_all. intros k Hk. by rewrite <- Hperm.
  - unfold all_card_ids. by rewrite Hcols.
Qed.

(** X15. However a drag ends, [handleDragEnd] clears the overlay and the
    preview, and it makes at most one store call, which is a [moveCard], a
    [reorderCardsInColumn] or a [reorderColumns] and whose result is
    written to storage once. A drag that ends over no target makes no call,
    and neither does the drag of a card for which there is no preview. *)
Theorem handleDragEnd_ends_the_drag_with_at_most_one_call
    (event : DragEvent) (w : World) :
  let w' := handleDragEnd event w in
  let untouched :=
    store w' = store w ∧
    store_calls w' = store_calls w ∧
    storage_writes w' = storage_writes w in
  activeCard w' = None ∧
  dragPosition w' = None ∧
  (untouched ∨
   ∃ a, is_drag_commit a ∧
        store_calls w' = store_calls w ++ [a] ∧
        store w' = apply_action a (store w) ∧
        storage_writes w' = storage_writes w ++ [store w']) ∧
  (over event = None → untouched) ∧
  (is_column (active event) = false → dragPosition w = None → untouched).
Proof.
  assert (Hcommit : ∀ a w0, store w0 = store w → store_calls w0 = store_calls w →
            storage_writes w0 = storage_writes w → is_drag_commit a →
            let w' := setDragPosition None (setActiveCard None (dispatch a w0)) in
            ∃ a', is_drag_commit a' ∧
                  store_calls w' = store_calls w ++ [a'] ∧
                  store w' = apply_action a' (store w) ∧
                  storage_writes w' = storage_writes w ++ [store w']).
  { intros a w0 Hs Hc Hw Ha. exists a. cbn. by rewrite Hs, Hc, Hw. }
  unfold handleDragEnd.
  destruct (over event) as [target|]; [|by repeat split; try left].
  destruct (is_column (active event) && is_column target) eqn:Hboth.
  - assert (is_column (active event) = true) as ->
      by (by apply andb_true_iff in Hboth as [? _]).
    destruct (decide _).
    + split; [done|]. split; [done|]. split; [|done].
      right. by apply Hcommit.
    + by repeat split; try left.
  - destruct (dragPosition w) as [[a f t i]|]; [|by repeat split; try left].
    split; [by repeat case_match|]. split; [by repeat case_match|].
    split; [|done].
    destruct (decide (f = t)) as [->|].
    + destruct (Js.find _ _) as [c|]; [|by left]. cbn zeta.
      destruct (decide _); [|by left]. right. by apply Hcommit.
    + right. by apply Hcommit.
Qed.

Lemma handleDragOver_preview_targets (event : DragEvent) (w : World) :
  is_column (active event) = false →
  store (handleDragOver event w) = store w ∧
  preview_targets_column (store w) (dragPosition (handleDragOver event w)).
Proof.
  intros Hact. unfold handleDragOver. destruct (over event) as [o|]; [|done].
  rewrite Hact. destruct (Js.find _ _) as [a|]; [|done].
  destruct (Js.find _ _) as [c|] eqn:E; [|done].
  split; [done|]. cbn. apply find_Some in E as [Hc _].
  by apply column_id_elem.
Qed.

Lemma handleDragEnd_keeps_cards (event : DragEvent) (w : World) :
  board_inv (store w) →
  preview_targets_column (store w) (dragPosition w) →
  all_card_ids (store (handleDragEnd event w)) ≡ₚ all_card_ids (store w) ∧
  column_ids (store (handleDragEnd event w)) ≡ₚ column_ids (store w).
Proof.
  intros [Hcols Hcards] Hprev.
  assert (Hcard_branch :
    let w1 :=
      match dragPosition w with
      | Some {| activeId := activeId; fromColumnId := fromColumnId;
                toColumnId := toColumnId; toIndex := toIndex |} =>
          if decide (fromColumnId = toColumnId)
          then
            match Js.find (λ col, column_id col = fromColumnId)
                          (columns (store w)) with
            | Some column =>
                let oldIndex :=
                  Js.findIndex (λ item, card_id item = activeId) (items column) in
                if decide (oldIndex ≠ -1 ∧ oldIndex ≠ toIndex)
                then
                  let newItems := arrayMove (items column) oldIndex toIndex in
                  dispatch
                    (ReorderCardsInColumn fromColumnId (card_id <$> newItems)) w
                else w
            | None => w
            end
          else dispatch (MoveCard activeId fromColumnId toColumnId toIndex) w
      | None => w
      end in
    all_card_ids (store w1) ≡ₚ all_card_ids (store w) ∧
    column_ids (store w1) ≡ₚ column_ids (store w)).
  { destruct (dragPosition w) as [[a f t i]|]; [|done]. cbn in Hprev.
    destruct (decide (f = t)) as [->|Hne].
    - destruct (Js.find _ _) as [c|] eqn:Hc; [|done]. cbn zeta.
      destruct (decide _) as [[Hold _]|]; [|done].
      cbn [store dispatch apply_action].
      rewrite reorderCardsInColumn_column_ids. split; [|done].
      apply reorderCardsInColumn_all_card_ids; [done|].
      intros c' Hc'. unfold column_of in Hc'. rewrite Hc in Hc'.
      injection Hc' as <-. apply filter_own_rearrangement.
      unfold card_ids. apply fmap_Permutation.
      pose proof (findIndex_range (λ item, card_id item = a) (items c)) as Hr.
      apply arrayMove_Permutation; [|lia].
      intros E. by rewrite E in Hold.
    - cbn [store dispatch apply_action]. rewrite moveCard_column_ids.
      split; [|done].
      destruct (decide (card_in_column a f (store w))) as [Hin|Hno].
      + by apply moveCard_all_card_ids.
      + by rewrite moveCard_not_found. }
  unfold handleDragEnd. destruct (over event) as [target|]; [|done].
  destruct (is_column (active event) && is_column target); [|exact Hcard_branch].
  cbn [store setDragPosition setActiveCard].
  destruct (decide _) as [Hne|]; [|done]. cbn [store dispatch apply_action].
  set (ai := Js.findIndex (λ col, column_id col = entity_id (active event))
                (columns (store w))) in *.
  set (oi := Js.findIndex (λ col, column_id col = entity_id target)
                (columns (store w))) in *.
  assert (Hperm : arrayMove (column_id <$> columns (store w)) ai oi
                  ≡ₚ column_ids (store w)).
  { pose proof (findIndex_range (λ col, column_id col = entity_id (active event))
                  (columns (store w))) as Ha.
    pose proof (findIndex_range (λ col, column_id col = entity_id target)
                  (columns (store w))) as Ho.
    fold ai in Ha. fold oi in Ho.
    apply arrayMove_Permutation.
    - unfold column_ids. intros E%fmap_nil_inv. subst ai oi.
      by rewrite E in Hne.
    - unfold column_ids. rewrite length_fmap. lia. }
  destruct (reorderColumns_rearranged _ (store w) Hcols Hperm)
    as (_ & Hids & Hall).
  split; [done|]. by rewrite Hids.
Qed.

(** X16. The drag of a card never loses or duplicates a card. On a board
    that satisfies the invariant of the data model, after [handleDragOver]
    for the drag of a card (whatever it hovers) followed by [handleDragEnd]
    (whatever the final event is), the board holds the same card ids and
    the same column ids as before, each once, and so still satisfies the
    invariant. *)
Theorem card_drag_keeps_the_cards
    (over_event end_event : DragEvent) (w : World) :
  board_inv (store w) →
  is_column (active over_event) = false →
  let w' := handleDragEnd end_event (handleDragOver over_event w) in
  all_card_ids (store w') ≡ₚ all_card_ids (store w) ∧
  column_ids (store w') ≡ₚ column_ids (store w) ∧
  board_inv (store w').
Proof.
  intros Hinv Hact w'.
  destruct (handleDragOver_preview_targets over_event w Hact) as [Hst Hprev].
  rewrite <- Hst in Hinv, Hprev.
  destruct (handleDragEnd_keeps_cards end_event _ Hinv Hprev) as [Hall Hids].
  fold w' in Hall, Hids. rewrite Hst in *.
  split; [done|]. split; [done|].
  destruct Hinv as [Hc Hk]. unfold board_inv. by rewrite Hall, Hids.
Qed.

(** ** Where a drop puts the dragged column or card *)

Lemma index_of_NoDup (x : Z) (l : list Z) (n : nat) :
  NoDup l → l !! n = Some x → index_of x l = Some n.
Proof.
  intros Hnd Hn.
  destruct (index_of_is_Some x l) as [m Hm]; [by eapply list_elem_of_lookup_2|].
  rewrite Hm. f_equal. apply index_of_lookup in Hm.
  by eapply NoDup_lookup.
Qed.

Lemma arrayMove_to_position {A : Type} (l : list A) (from to : nat) (x : A) :
  l !! from = Some x →
  arrayMove l (Z.of_nat from) (Z.of_nat to)
  = insert_at (to `min` pred (length l)) x (delete from l).
Proof.
  intros Hx. pose proof (lookup_lt_Some _ _ _ Hx) as Hfrom.
  unfold arrayMove. rewrite (splice_remove_one _ _ _ Hx).
  destruct (Z.of_nat to <? 0) eqn:E; [apply Z.ltb_lt in E; lia|].
  cbn [take]. rewrite splice_insert. f_equal.
  assert (Hlen : length (delete from l) = pred (length l)).
  { rewrite length_delete; [lia|by eexists]. }
  rewrite Hlen. unfold insertion_position. rewrite decide_True by lia. lia.
Qed.

Lemma fmap_insert_at {A B : Type} (f : A → B) (p : nat) (x : A) (l : list A) :
  f <$> insert_at p x l = insert_at p (f x) (f <$> l).
Proof.
  unfold insert_at. by rewrite fmap_app, fmap_cons, fmap_take, fmap_drop.
Qed.

Lemma fmap_update_one {A : Type} (f : A → A) (l : list A) (i : nat) (x : A) :
  l !! i = Some x →
  (∀ j y, l !! j = Some y → j ≠ i → f y = y) →
  f <$> l = <[i := f x]> l.
Proof.
  intros Hi Hother. apply list_eq. intros j. rewrite list_lookup_fmap.
  destruct (decide (i = j)) as [<-|Hne].
  - rewrite Hi, list_lookup_insert_eq; [done|by eapply lookup_lt_Some].
  - rewrite list_lookup_insert_ne by done.
    destruct (l !! j) as [y|] eqn:Hj; [|done]. cbn. f_equal.
    apply (Hother j); [done|congruence].
Qed.

Lemma column_at_unique (state : BoardState) (i j : nat) (c c' : ColumnType) :
  NoDup (column_ids state) →
  columns state !! i = Some c →
  columns state !! j = Some c' →
  column_id c = column_id c' →
  i = j.
Proof.
  intros Hnd Hi Hj E. apply (NoDup_lookup _ _ _ (column_id c) Hnd).
  - unfold column_ids. by rewrite list_lookup_fmap, Hi.
  - unfold column_ids. by rewrite list_lookup_fmap, Hj, E.
Qed.

(** X17. The drop of a column on a column moves the column itself. On a
    board whose column ids are pairwise distinct, when the column at
    position [ai] is dragged and dropped on the column at position [oi],
    the board's column list afterwards is the former list with that column
    taken out and put back at position [oi], every column with its title
    and cards. *)
Theorem column_drop_moves_the_column
    (event : DragEvent) (target : Entity) (w : World)
    (ai oi : nat) (column hovered : ColumnType) :
  over event = Some target →
  is_column (active event) = true →
  is_column target = true →
  NoDup (column_ids (store w)) →
  columns (store w) !! ai = Some column →
  column_id column = entity_id (active event) →
  columns (store w) !! oi = Some hovered →
  column_id hovered = entity_id target →
  columns (store (handleDragEnd event w))
  = insert_at oi column (delete ai (columns (store w))).
Proof.
  intros Hover Hact Htarget Hnd Hai Haid Hoi Hoid.
  assert (Hia : index_of (entity_id (active event)) (column_ids (store w))
                = Some ai).
  { apply index_of_NoDup; [done|]. unfold column_ids.
    by rewrite list_lookup_fmap, Hai, <- Haid. }
  assert (Hio : index_of (entity_id target) (column_ids (store w)) = Some oi).
  { apply index_of_NoDup; [done|]. unfold column_ids.
    by rewrite list_lookup_fmap, Hoi, <- Hoid. }
  unfold handleDragEnd. rewrite Hover, Hact, Htarget. cbn [andb].
  unfold column_ids in Hia, Hio.
  rewrite (findIndex_column_ids _ _ _ Hia), (findIndex_column_ids _ _ _ Hio).
  cbn [store setDragPosition setActiveCard].
  destruct (decide (Z.of_nat ai ≠ Z.of_nat oi)) as [Hne|Heq].
  - cbn [store dispatch apply_action].
    rewrite (arrayMove_in_range _ _ _ (entity_id (active event)));
      [|by rewrite list_lookup_fmap, Hai, <- Haid
       |rewrite length_fmap; by eapply lookup_lt_Some].
    rewrite reorderColumns_columns, <- Haid, <- list_fmap_delete, <- fmap_insert_at.
    apply omap_fmap_back. intros c Hc. apply column_of_unique; [done|].
    rewrite insert_at_Permutation in Hc.
    by rewrite <- (delete_Permutation _ _ _ Hai) in Hc.
  - assert (ai = oi) as <- by lia. by rewrite insert_at_delete.
Qed.

(** X18. The drop of a card within its column. On a board that satisfies
    the invariant of the data model, with a preview that names the card at
    position [a] of the column at position [i], that column as source and
    as target, and the index [o], [handleDragEnd] changes only that column:
    its card is taken out and put back at position [o], or at the end when
    [o] is the length of the column; the other cards keep their order. *)
Theorem same_column_drop_places_the_card
    (event : DragEvent) (target : Entity) (w : World)
    (i a o : nat) (column : ColumnType) (card : CardType) :
  over event = Some target →
  is_column (active event) && is_column target = false →
  board_inv (store w) →
  columns (store w) !! i = Some column →
  items column !! a = Some card →
  dragPosition w
  = Some (mkDragPosition (card_id card) (column_id column) (column_id column)
                         (Z.of_nat o)) →
  columns (store (handleDragEnd event w))
  = <[i := with_items column
             (insert_at (o `min` pred (length (items column))) card
                (delete a (items column)))]> (columns (store w)).
Proof.
  intros Hover Hcard [Hcols Hcards] Hi Ha Hprev.
  assert (Hin : column ∈ columns (store w)) by (by eapply list_elem_of_lookup_2).
  assert (Hnd : NoDup (card_ids column)) by (by eapply NoDup_card_ids).
  assert (Hold : Js.findIndex (λ item, card_id item = card_id card) (items column)
                 = Z.of_nat a).
  { rewrite findIndex_index_of. fold (card_ids column).
    rewrite (index_of_NoDup _ _ a); [done|done|].
    unfold card_ids. by rewrite list_lookup_fmap, Ha. }
  unfold handleDragEnd. rewrite Hover, Hcard, Hprev.
  rewrite decide_True by done.
  pose proof (column_of_unique _ _ Hcols Hin) as Hfind. unfold column_of in Hfind.
  rewrite Hfind. cbn zeta. rewrite Hold.
  destruct (decide _) as [[_ Hne]|Heq].
  - cbn [store setDragPosition setActiveCard dispatch apply_action].
    rewrite (arrayMove_to_position _ _ _ _ Ha), reorderCardsInColumn_columns.
    set (moved := insert_at _ card (delete a (items column))).
    assert (Hmoved : moved ≡ₚ items column).
    { unfold moved. rewrite insert_at_Permutation.
      symmetry. by apply delete_Permutation. }
    rewrite (fmap_update_one _ _ i column Hi).
    + rewrite decide_True by done. do 2 f_equal.
      apply omap_fmap_back. intros k Hk. apply (find_by_key card_id); [done|].
      by rewrite <- Hmoved.
    + intros j c Hj Hji. rewrite decide_False; [done|].
      intros E. apply Hji. by eapply column_at_unique.
  - assert (a = o) as <-.
    { destruct (decide (a = o)); [done|]. destruct Heq. split; lia. }
    pose proof (lookup_lt_Some _ _ _ Ha).
    rewrite Nat.min_l by lia. rewrite insert_at_delete by done.
    rewrite with_items_same. cbn. by rewrite list_insert_id.
Qed.

Lemma fmap_update_two {A : Type} (f : A → A) (l : list A) (i j : nat) (x y : A) :
  i ≠ j →
  l !! i = Some x →
  l !! j = Some y →
  (∀ k z, l !! k = Some z → k ≠ i → k ≠ j → f z = z) →
  f <$> l = <[j := f y]> (<[i := f x]> l).
Proof.
  intros Hij Hi Hj Hother. apply list_eq. intros k. rewrite list_lookup_fmap.
  destruct (decide (j = k)) as [<-|Hjk].
  - rewrite Hj, list_lookup_insert_eq; [done|].
    rewrite length_insert. by eapply lookup_lt_Some.
  - rewrite list_lookup_insert_ne by done.
    destruct (decide (i = k)) as [<-|Hik].
    + rewrite Hi, list_lookup_insert_eq; [done|by eapply lookup_lt_Some].
    + rewrite list_lookup_insert_ne by done.
      destruct (l !! k) as [z|] eqn:Hk; [|done]. cbn. f_equal.
      apply (Hother k); [done|congruence|congruence].
Qed.

Lemma board_ids_NoDup (state : BoardState) :
  NoDup (board_ids state) →
  board_inv state ∧
  ∀ x, x ∈ column_ids state → x ∉ all_card_ids state.
Proof. intros (? & ? & ?)%NoDup_app. by repeat split. Qed.

(** The preview [handleDragOver] computes when the card at position [a] of
    column [A] is dragged over column [B], at the card at position [b] of
    [B] or, with [b] the length of [B], at the column itself. *)
Lemma handleDragOver_over_another_column
    (event : DragEvent) (target : Entity) (w : World)
    (ia ib a b : nat) (A B : ColumnType) (card : CardType) :
  over event = Some target →
  is_column (active event) = false →
  NoDup (board_ids (store w)) →
  columns (store w) !! ia = Some A →
  items A !! a = Some card →
  entity_id (active event) = card_id card →
  columns (store w) !! ib = Some B →
  ((card_id <$> items B) !! b = Some (entity_id target)
   ∨ (entity_id target = column_id B ∧ b = length (items B))) →
  handleDragOver event w
  = setDragPosition
      (Some (mkDragPosition (card_id card) (column_id A) (column_id B)
                            (Z.of_nat b))) w.
Proof.
  intros Hover Hact (Hinv & Hdisj)%board_ids_NoDup HA Ha Hid HB Hb.
  destruct Hinv as [Hcols Hcards].
  assert (HAin : A ∈ columns (store w)) by (by eapply list_elem_of_lookup_2).
  assert (HBin : B ∈ columns (store w)) by (by eapply list_elem_of_lookup_2).
  assert (Hheld : card_id card ∈ card_ids A).
  { apply list_elem_of_fmap_2. by eapply list_elem_of_lookup_2. }
  unfold handleDragOver. rewrite Hover, Hact, Hid.
  pose proof (first_holder (card_id card) (store w)) as Hfrom.
  destruct (Js.find _ _) as [c|].
  2:{ destruct Hfrom. apply all_card_ids_elem. by exists A. }
  destruct Hfrom as [Hc Hcin].
  assert (c = A) as -> by (by eapply holder_is_unique).
  set (hovers := λ col : ColumnType,
         Js.some (λ item, card_id item = entity_id target) (items col)
         || bool_decide (column_id col = entity_id target)).
  assert (HBhover : hovers B).
  { unfold hovers. apply orb_True. destruct Hb as [Hb|[Hb _]].
    - left. apply some_card_ids. by eapply list_elem_of_lookup_2.
    - right. by apply bool_decide_spec. }
  destruct (find_is_Some (λ col, hovers col) _ B HBin HBhover) as [o Ho].
  unfold hovers in Ho. rewrite Ho.
  apply find_Some in Ho as [Hoin Hhover].
  assert (o = B) as ->.
  { apply orb_True in Hhover as [Hcard%some_card_ids|Hcol%bool_decide_spec];
      destruct Hb as [Hb|[Hb _]].
    - eapply holder_is_unique; [done|done|done|done|].
      by eapply list_elem_of_lookup_2.
    - destruct (Hdisj (entity_id target)).
      + rewrite Hb. by apply column_id_elem.
      + apply all_card_ids_elem. by exists o.
    - destruct (Hdisj (entity_id target)).
      + rewrite <- Hcol. by apply column_id_elem.
      + apply all_card_ids_elem. exists B. split; [done|].
        by eapply list_elem_of_lookup_2.
    - pose proof (column_of_unique _ _ Hcols Hoin) as H1.
      pose proof (column_of_unique _ _ Hcols HBin) as H2.
      rewrite Hcol, Hb in H1. congruence. }
  assert (Hidx : Js.findIndex (λ item, card_id item = entity_id target) (items B)
                 = if decide (b = length (items B)) then -1 else Z.of_nat b).
  { rewrite findIndex_index_of. destruct Hb as [Hb|[Hb ->]].
    - rewrite (index_of_NoDup _ _ b); [| by eapply NoDup_card_ids | done].
      apply lookup_lt_Some in Hb. rewrite length_fmap in Hb.
      rewrite decide_False; [done|lia].
    - rewrite decide_True by done.
      assert (index_of (entity_id target) (card_id <$> items B) = None) as ->;
        [|done].
      apply index_of_None. intros Hin. destruct (Hdisj (entity_id target)).
      + rewrite Hb. by apply column_id_elem.
      + apply all_card_ids_elem. by exists B. }
  rewrite Hidx. do 3 f_equal.
  destruct (decide (b = length (items B))) as [->|Hne];
    repeat case_decide; lia || done.
Qed.

(** X19. A card dropped in another column lands where the preview showed
    it. On a board whose card and column ids are pairwise distinct, when
    the card at position [a] of column [A] is dragged over the card at
    position [b] of another column [B] and dropped ([handleDragOver] then
    [handleDragEnd], same event), the one store call made is
    [moveCard(card, A, B, b)] and afterwards [A] lacks the card and [B]
    holds it at position [b], directly before the hovered card; the other
    columns are unchanged. Hovering the column [B] itself instead of one
    of its cards, with [b] the number of cards of [B], appends the card. *)
Theorem card_dropped_in_another_column
    (event : DragEvent) (target : Entity) (w : World)
    (ia ib a b : nat) (A B : ColumnType) (card : CardType) :
  over event = Some target →
  is_column (active event) = false →
  NoDup (board_ids (store w)) →
  columns (store w) !! ia = Some A →
  items A !! a = Some card →
  entity_id (active event) = card_id card →
  columns (store w) !! ib = Some B →
  ((card_id <$> items B) !! b = Some (entity_id target)
   ∨ (entity_id target = column_id B ∧ b = length (items B))) →
  ia ≠ ib →
  let w' := handleDragEnd event (handleDragOver event w) in
  store_calls w'
  = store_calls w
    ++ [MoveCard (card_id card) (column_id A) (column_id B) (Z.of_nat b)] ∧
  columns (store w')
  = <[ib := with_items B (insert_at b card (items B))]>
      (<[ia := with_items A (delete a (items A))]> (columns (store w))) ∧
  activeCard w' = None ∧
  dragPosition w' = None.
Proof.
  intros Hover Hact Hnd HA Ha Hid HB Hb Hab.
  rewrite (handleDragOver_over_another_column event target w ia ib a b A B card)
    by done.
  apply board_ids_NoDup in Hnd as ([Hcols Hcards] & Hdisj).
  assert (HAin : A ∈ columns (store w)) by (by eapply list_elem_of_lookup_2).
  assert (HBin : B ∈ columns (store w)) by (by eapply list_elem_of_lookup_2).
  assert (Hids : column_id A ≠ column_id B).
  { intros E. apply Hab. by eapply column_at_unique. }
  assert (Hblen : (b ≤ length (items B))%nat).
  { destruct Hb as [Hb%lookup_lt_Some|[_ ->]]; [|done].
    rewrite length_fmap in Hb. lia. }
  unfold handleDragEnd. cbn [store dragPosition setDragPosition].
  rewrite Hover, Hact. cbn [andb]. rewrite decide_False by done.
  cbn [store store_calls activeCard dragPosition setDragPosition setActiveCard
       dispatch apply_action].
  split; [done|]. split; [|done].
  rewrite (moveCard_found _ _ _ _ _ A card).
  2:{ by apply (column_of_unique _ _ Hcols HAin). }
  2:{ eapply card_of_at; [by eapply NoDup_card_ids|done]. }
  cbn [columns set_columns].
  rewrite (fmap_update_two _ _ ia ib A B) by first
    [ done
    | intros k c Hk Hka Hkb; cbn zeta; unfold without_card;
      rewrite !decide_False;
        [ apply with_items_same
        | intros E; apply Hka; by eapply column_at_unique
        | intros E; apply Hkb; by eapply column_at_unique ] ].
  cbn zeta. unfold without_card.
  rewrite (decide_True (P := column_id A = column_id A)) by done.
  rewrite (decide_False (P := column_id A = column_id B)) by done.
  rewrite (decide_False (P := column_id B = column_id A)) by done.
  rewrite (decide_True (P := column_id B = column_id B)) by done.
  rewrite (filter_delete _ a card); [|by eapply NoDup_card_ids|done].
  unfold insertion_position. rewrite decide_True by lia.
  replace (Z.to_nat (Z.min (Z.of_nat b) (Z.of_nat (length (items B)))))
    with b by lia.
  done.
Qed.

(** * Properties of the forms *)

Lemma length_zero_empty (s : string) : String.length s = 0%nat ↔ s = ""%string.
Proof. by destruct s. Qed.

Lemma find_fmap_card (k : Z) (f : CardType → CardType) (l : list CardType) :
  (∀ c, card_id (f c) = card_id c) →
  Js.find (λ c, card_id c = k) (f <$> l)
  = f <$> Js.find (λ c, card_id c = k) l.
Proof.
  intros Hf. induction l as [|c l IH]; [done|].
  rewrite fmap_cons, !find_cons, Hf, IH. by destruct (decide _).
Qed.

Lemma first_card_found (k : Z) (cols : list ColumnType) :
  match head (omap (λ column, Js.find (λ c, card_id c = k) (items column)) cols)
  with
  | Some card =>
      ∃ column, column ∈ cols ∧
                Js.find (λ c, card_id c = k) (items column) = Some card
  | None => ∀ column, column ∈ cols → k ∉ card_ids column
  end.
Proof.
  destruct (omap _ cols) as [|card rest] eqn:E; cbn.
  - intros column Hc Hin. apply card_of_in_column in Hin as [card Hcard].
    assert (card ∈ @nil CardType) as Hnil; [|by apply elem_of_nil in Hnil].
    rewrite <- E. apply list_elem_of_omap. by exists column.
  - assert (card ∈ card :: rest) as Hin by left. rewrite <- E in Hin.
    by apply list_elem_of_omap in Hin.
Qed.

Lemma first_card_map_cards (k : Z) (f : CardType → CardType)
    (state : BoardState) :
  (∀ c, card_id (f c) = card_id c) →
  head (omap (λ column, Js.find (λ c, card_id c = k) (items column))
             (columns (map_cards f state)))
  = f <$> head (omap (λ column, Js.find (λ c, card_id c = k) (items column))
                     (columns state)).
Proof.
  intros Hf. unfold map_cards. cbn [columns set_columns].
  induction (columns state) as [|c cols IH]; [done|].
  rewrite fmap_cons. cbn [omap list_omap items with_items].
  rewrite find_fmap_card by done.
  destruct (Js.find _ (items c)) as [card|]; [done|]. cbn. apply IH.
Qed.

Lemma selectedCard_is_a_card_found (v : CardView) :
  match selectedCard v with
  | Some card => selectedCardId v = Some (card_id card) ∧ card_id card ≠ 0
  | None => True
  end.
Proof.
  unfold selectedCard. destruct (selectedCardId v) as [k|]; [|done].
  destruct (decide (k = 0)) as [->|Hk]; [done|].
  pose proof (first_card_found k (columns (view_store v))) as Hfirst.
  destruct (head _) as [card|]; [|done].
  destruct Hfirst as (column & Hc & Hcard).
  by rewrite (card_of_id _ _ _ Hcard).
Qed.

(** X20. The card the dialog shows. [selectedCard] is a card of the board
    whose id is the selected id, and that id is not 0; there is none
    exactly when nothing is selected, when the selected id is 0, or when no
    card of the board has the selected id. Selecting and closing leave the
    store alone; after [handleCloseCardModal] no card is shown, and after
    [handleCardClick] on a non-zero id of a card of the board one is. *)
Theorem selectedCard_is_a_card_of_the_board (v : CardView) :
  match selectedCard v with
  | Some card =>
      selectedCardId v = Some (card_id card) ∧
      card_id card ≠ 0 ∧
      ∃ column, column ∈ columns (view_store v) ∧
                card_of (card_id card) column = Some card
  | None =>
      selectedCardId v = None ∨ selectedCardId v = Some 0 ∨
      ∃ k, selectedCardId v = Some k ∧ k ∉ all_card_ids (view_store v)
  end ∧
  selectedCard (handleCloseCardModal v) = None ∧
  view_store (handleCloseCardModal v) = view_store v ∧
  (∀ k, view_store (handleCardClick k v) = view_store v ∧
        (k ≠ 0 → k ∈ all_card_ids (view_store v) →
         is_Some (selectedCard (handleCardClick k v)))).
Proof.
  split.
  { unfold selectedCard. destruct (selectedCardId v) as [k|]; [|by left].
    destruct (decide (k = 0)) as [->|Hk]; [right; by left|].
    pose proof (first_card_found k (columns (view_store v))) as Hfirst.
    destruct (head _) as [card|].
    - destruct Hfirst as (column & Hc & Hcard).
      pose proof (card_of_id _ _ _ Hcard) as ->. split; [done|]. split; [done|].
      by exists column.
    - right. right. exists k. split; [done|].
      intros (c & Hc & Hin)%all_card_ids_elem. by apply (Hfirst c). }
  split; [done|]. split; [done|]. intros k. split; [done|].
  intros Hk (c & Hc & Hin)%all_card_ids_elem.
  unfold selectedCard, handleCardClick. cbn. rewrite decide_False by done.
  pose proof (first_card_found k (columns (view_store v))) as Hfirst.
  destruct (head _) as [card|]; [by eexists|]. by destruct (Hfirst c Hc).
Qed.

(** X21. A comment typed in the card dialog. When the trimmed text is
    empty nothing changes. Otherwise the store call is [addComment] for the
    shown card with the trimmed text, the comment box is emptied, the same
    card stays selected, and the dialog then shows that card with the new
    comment last. *)
Theorem card_dialog_comment_is_appended
    (trim : string → string) (now_string : string) (now : Z)
    (m : CardModal.State) (v : CardView) :
  let m' := (card_dialog_submit trim now_string now m v).1 in
  let v' := (card_dialog_submit trim now_string now m v).2 in
  let text := trim (CardModal.commentText m) in
  match selectedCard v with
  | None => m' = m ∧ v' = v
  | Some card =>
      if decide (text = ""%string) then m' = m ∧ v' = v
      else
        view_store v'
        = addComment now_string now (card_id card) text (view_store v) ∧
        selectedCardId v' = selectedCardId v ∧
        CardModal.commentText m' = ""%string ∧
        CardModal.isEditingTitle m' = CardModal.isEditingTitle m ∧
        CardModal.isEditingDescription m' = CardModal.isEditingDescription m ∧
        selectedCard v'
        = Some (mkCard (card_id card) (card_title card) (card_description card)
                  (card_comments card
                     ++ [mkComment now_string text (Some "User"%string) now]))
  end.
Proof.
  cbn zeta. unfold card_dialog_submit.
  pose proof (selectedCard_is_a_card_found v) as Hsel.
  destruct (selectedCard v) as [card|] eqn:Hcard; [|done].
  destruct Hsel as (Hid & Hne).
  unfold CardModal.handleSubmit.
  destruct (decide (trim (CardModal.commentText m) = ""%string)) as [E|E].
  - rewrite decide_False; [done|]. rewrite E. cbn. lia.
  - rewrite decide_True.
    2:{ destruct (String.length _) eqn:El; [|lia].
        by apply length_zero_empty in El. }
    cbn [fst snd]. unfold handleAddComment. rewrite Hid.
    rewrite decide_False by done. cbn [view_store selectedCardId].
    repeat split; try done.
    unfold selectedCard in *. cbn [view_store selectedCardId].
    rewrite Hid in Hcard. rewrite decide_False in * by done.
    unfold addComment. rewrite first_card_map_cards, Hcard.
    + cbn. by rewrite decide_True.
    + intros c. by destruct (decide _).
Qed.

Lemma all_titled_addCard now columnId title state :
  title ≠ ""%string → all_titled state →
  all_titled (addCard now columnId title state).
Proof.
  intros Ht [Hb Hcols]. split; [done|]. unfold addCard.
  cbn [columns set_columns].
  intros column (c & -> & Hc)%list_elem_of_fmap.
  destruct (Hcols c Hc) as [Hct Hcards].
  destruct (decide (column_id c = columnId)); [|done]. split; [done|].
  cbn [items with_items].
  intros card [Hin|Hin]%elem_of_app; [by apply Hcards|].
  by apply list_elem_of_singleton in Hin as ->.
Qed.

Lemma all_titled_addColumn now title state :
  title ≠ ""%string → all_titled state → all_titled (addColumn now title state).
Proof.
  intros Ht [Hb Hcols]. split; [done|]. unfold addColumn.
  cbn [columns set_columns].
  intros column [Hin|Hin]%elem_of_app; [by apply Hcols|].
  apply list_elem_of_singleton in Hin as ->.
  split; [done|]. by intros card ?%elem_of_nil.
Qed.

Lemma all_titled_map_cards (f : CardType → CardType) state :
  (∀ card, card_title card ≠ ""%string → card_title (f card) ≠ ""%string) →
  all_titled state → all_titled (map_cards f state).
Proof.
  intros Hf [Hb Hcols]. split; [done|]. unfold map_cards.
  cbn [columns set_columns].
  intros column (c & -> & Hc)%list_elem_of_fmap.
  destruct (Hcols c Hc) as [Hct Hcards]. split; [done|]. cbn [items with_items].
  intros card (k & -> & Hk)%list_elem_of_fmap. by apply Hf, Hcards.
Qed.

(** X22. The dialog that adds cards and columns. A submit whose trimmed
    text is empty changes neither the store nor the hook's state, keeps
    the text and shows the error. Any other submit empties the form,
    closes the dialog and makes the store call of the dialog's type with
    the trimmed text as title: [addCard] on the column the dialog was
    opened for, or [addColumn]. So no submit gives the board a card or
    column with an empty title. Cancelling closes the dialog and leaves the
    store alone. *)
Theorem page_submit_needs_a_title
    (trim : string → string) (now : Z) (f : Modal.State) (p : Page) :
  let f' := (page_submit trim now f p).1 in
  let p' := (page_submit trim now f p).2 in
  let title := trim (Modal.value f) in
  (if decide (title = ""%string)
   then p' = p ∧
        f' = Modal.mkState (Modal.value f) "This field cannot be empty"
   else f' = Modal.mkState "" "" ∧
        page_modal p' = mkModalState false None None ∧
        match modal_type (page_modal p), modal_columnId (page_modal p) with
        | Some ModalAddCard, Some columnId =>
            page_store p' = addCard now columnId title (page_store p)
        | Some ModalAddColumn, _ =>
            page_store p' = addColumn now title (page_store p)
        | _, _ => page_store p' = page_store p
        end) ∧
  (all_titled (page_store p) → all_titled (page_store p')) ∧
  page_store (page_cancel f p).2 = page_store p ∧
  page_modal (page_cancel f p).2 = mkModalState false None None ∧
  (page_cancel f p).1 = Modal.mkState "" "".
Proof.
  cbn zeta. unfold page_submit, Modal.handleSubmit.
  destruct (decide (trim (Modal.value f) = ""%string)) as [E|E]; cbn [fst snd].
  - by destruct p.
  - unfold page_confirm, handleConfirm, page_onConfirm.
    cbn [page_modal page_store].
    split; [|split; [|done]].
    + split; [done|]. split; [done|].
      by destruct (modal_type (page_modal p)) as [[]|],
                  (modal_columnId (page_modal p)).
    + intros Ht.
      destruct (modal_type (page_modal p)) as [[]|],
               (modal_columnId (page_modal p)); try done;
        by first [apply all_titled_addCard|apply all_titled_addColumn].
Qed.

Lemma board_title_change_bound (newValue : string) (e : EditableInput.State) :
  (Js.length (EditableInput.value e) ≤ 50 →
   Js.length (EditableInput.value (board_title_change newValue e)) ≤ 50)%nat ∧
  ((Js.length newValue ≤ 50)%nat →
   EditableInput.value (board_title_change newValue e) = newValue) ∧
  ((50 < Js.length newValue)%nat → board_title_change newValue e = e) ∧
  EditableInput.isEditing (board_title_change newValue e)
  = EditableInput.isEditing e.
Proof.
  unfold board_title_change, EditableInput.handleChange.
  destruct (decide (50 < Z.of_nat (Js.length newValue))) as [Hlong|Hshort];
    cbn [EditableInput.value EditableInput.isEditing].
  - split; [done|]. split; [lia|]. by split.
  - split; [lia|]. split; [done|]. split; [lia|done].
Qed.

(** X23. The board title's inline editor. Saving ends the edit; the
    columns and the flag are never touched. The store is called only when
    the trimmed text is neither empty nor the current title, and the title
    is then the trimmed text; otherwise the state is the same. So the
    editor never empties a title. Typing a text whose [length] (UTF-16 code
    units) is more than 50 is ignored, so a text of length at most 50 stays
    one. *)
Theorem board_title_editor_saves_trimmed_text
    (trim : string → string) (e : EditableInput.State) (state : BoardState) :
  let e' := (board_title_save trim e state).1 in
  let state' := (board_title_save trim e state).2 in
  let text := trim (EditableInput.value e) in
  EditableInput.isEditing e' = false ∧
  columns state' = columns state ∧
  hasHydrated state' = hasHydrated state ∧
  boardTitle state'
  = (if decide (text = ""%string) then boardTitle state else text) ∧
  (text = ""%string ∨ text = boardTitle state → state' = state) ∧
  (all_titled state → all_titled state') ∧
  (∀ newValue,
     (Js.length (EditableInput.value e) ≤ 50 →
      Js.length (EditableInput.value (board_title_change newValue e)) ≤ 50)%nat ∧
     ((Js.length newValue ≤ 50)%nat →
      EditableInput.value (board_title_change newValue e) = newValue) ∧
     ((50 < Js.length newValue)%nat → board_title_change newValue e = e) ∧
     EditableInput.isEditing (board_title_change newValue e)
     = EditableInput.isEditing e).
Proof.
  cbn zeta. unfold board_title_save, EditableInput.save.
  destruct (decide (trim (EditableInput.value e) = ""%string)) as [E|E];
    cbn [fst snd EditableInput.isEditing].
  { split; [done|]. split; [done|]. split; [done|]. split; [done|].
    split; [done|]. split; [done|].
    intros newValue. apply board_title_change_bound. }
  destruct (decide (trim (EditableInput.value e) ≠ boardTitle state))
    as [Hne|Heq]; cbn [boardTitle columns hasHydrated updateBoardTitle].
  - split; [done|]. split; [done|]. split; [done|]. split; [done|].
    split; [by intros [?|?]|].
    split; [|intros newValue; apply board_title_change_bound].
    intros [_ Hcols]. by split.
  - assert (trim (EditableInput.value e) = boardTitle state) as Heq'
      by (by destruct (decide (trim (EditableInput.value e) = boardTitle state));
          [|destruct Heq]).
    split; [done|]. split; [done|]. split; [done|]. split; [done|].
    split; [done|]. split; [done|].
    intros newValue. apply board_title_change_bound.
Qed.

(** The limit counts code units, not bytes: a title of thirty accented
    letters is sixty bytes long, has length 30 and is accepted; a character
    above U+FFFF counts for two; a text of fifty-one letters is ignored. *)
Example board_title_change_counts_code_units :
  String.length accented_title = 60%nat ∧
  Js.length accented_title = 30%nat ∧
  EditableInput.value (board_title_change accented_title EditableInput.initial)
  = accented_title ∧
  Js.length "😀" = 2%nat ∧
  board_title_change "123456789012345678901234567890123456789012345678901"
    EditableInput.initial
  = EditableInput.initial.
Proof. repeat split. Qed.

(** X24. The age label of a comment. For a timestamp a [Date] can hold,
    [formatDate] returns "Just now" for an age under one minute, a
    timestamp in the future included; minutes from 1 to 59, hours from 1 to
    23 and days from 1 to 6, each the age rounded down to that unit; and
    the locale's date from an age of seven days on. *)
Theorem formatDate_label_ranges (now timestamp : Z) :
  Z.abs timestamp ≤ 8640000000000000 →
  let age := now - timestamp in
  match CardModal.formatDate now timestamp with
  | CardModal.JustNow => age < 60000
  | CardModal.MinutesAgo m =>
      1 ≤ m < 60 ∧ 60000 * m ≤ age < 60000 * (m + 1)
  | CardModal.HoursAgo h =>
      1 ≤ h < 24 ∧ 3600000 * h ≤ age < 3600000 * (h + 1)
  | CardModal.DaysAgo d =>
      1 ≤ d < 7 ∧ 86400000 * d ≤ age < 86400000 * (d + 1)
  | CardModal.LocaleDate t => t = timestamp ∧ 7 * 86400000 ≤ age
  end.
Proof.
  intros _ age. unfold CardModal.formatDate. fold age.
  pose proof (Z.div_mod age 60000 ltac:(lia)) as Hm.
  pose proof (Z.mod_pos_bound age 60000 ltac:(lia)) as Hm'.
  pose proof (Z.div_mod age 3600000 ltac:(lia)) as Hh.
  pose proof (Z.mod_pos_bound age 3600000 ltac:(lia)) as Hh'.
  pose proof (Z.div_mod age 86400000 ltac:(lia)) as Hd.
  pose proof (Z.mod_pos_bound age 86400000 ltac:(lia)) as Hd'.
  destruct (age / 60000 <? 1) eqn:E1;
    [apply Z.ltb_lt in E1; lia|apply Z.ltb_ge in E1].
  destruct (age / 60000 <? 60) eqn:E2;
    [apply Z.ltb_lt in E2; lia|apply Z.ltb_ge in E2].
  destruct (age / 3600000 <? 24) eqn:E3;
    [apply Z.ltb_lt in E3; lia|apply Z.ltb_ge in E3].
  destruct (age / 86400000 <? 7) eqn:E4;
    [apply Z.ltb_lt in E4; lia|apply Z.ltb_ge in E4].
  lia.
Qed.

(** X25. Title and description edited in the card dialog, for the card the
    dialog shows. Saving the title calls [updateCardTitle] for that card
    with the trimmed text, but only when the trimmed text is neither empty
    nor the card's title; the dialog then shows the card under the trimmed
    title, and no title of the board becomes empty. Saving the description
    calls [updateCardDescription] with the trimmed text whenever it differs
    from the description shown, an empty text included. Either save ends
    its edit. [Escape] never changes the store: it ends the title edit if
    there is one, else the description edit if there is one, and else
    closes the dialog. *)
Theorem card_dialog_edits_the_shown_card
    (trim : string → string) (m : CardModal.State) (v : CardView)
    (card : CardType) :
  selectedCard v = Some card →
  let title := trim (CardModal.titleValue m) in
  let text := trim (CardModal.descriptionValue m) in
  let mt := (card_dialog_title_save trim m v).1 in
  let vt := (card_dialog_title_save trim m v).2 in
  let md := (card_dialog_description_save trim m v).1 in
  let vd := (card_dialog_description_save trim m v).2 in
  let me := (card_dialog_escape "Escape" m v).1 in
  let ve := (card_dialog_escape "Escape" m v).2 in
  (view_store vt
   = (if decide (title ≠ ""%string ∧ title ≠ card_title card)
      then updateCardTitle (card_id card) title (view_store v)
      else view_store v) ∧
   selectedCardId vt = selectedCardId v ∧
   CardModal.isEditingTitle mt = false ∧
   CardModal.titleValue mt = ""%string ∧
   (title ≠ ""%string →
    selectedCard vt
    = Some (mkCard (card_id card) title (card_description card)
                   (card_comments card))) ∧
   (all_titled (view_store v) → all_titled (view_store vt))) ∧
  (view_store vd
   = (if decide (text ≠ CardModal.shown_description (card_description card))
      then updateCardDescription (card_id card) text (view_store v)
      else view_store v) ∧
   selectedCardId vd = selectedCardId v ∧
   CardModal.isEditingDescription md = false ∧
   CardModal.descriptionValue md = ""%string ∧
   (all_titled (view_store v) → all_titled (view_store vd))) ∧
  (view_store ve = view_store v ∧
   if CardModal.isEditingTitle m
   then selectedCardId ve = selectedCardId v ∧
        CardModal.isEditingTitle me = false ∧
        CardModal.isEditingDescription me = CardModal.isEditingDescription m
   else if CardModal.isEditingDescription m
   then selectedCardId ve = selectedCardId v ∧
        CardModal.isEditingDescription me = false
   else selectedCardId ve = None ∧
        me = CardModal.mkState "" false "" false "").
Proof.
  intros Hsel. cbn zeta.
  unfold card_dialog_title_save, card_dialog_description_save,
    card_dialog_escape. rewrite Hsel.
  pose proof (selectedCard_is_a_card_found v) as Hid. rewrite Hsel in Hid.
  destruct Hid as [Hid Hne].
  split; [|split].
  - unfold CardModal.handleTitleSave. cbn [fst snd].
    destruct (decide (trim (CardModal.titleValue m) ≠ ""%string
                      ∧ trim (CardModal.titleValue m) ≠ card_title card))
      as [[Ht Hnew]|Hkeep]; cbn [view_store selectedCardId].
    + split; [done|]. split; [done|]. split; [done|]. split; [done|]. split.
      * intros _. unfold selectedCard in *. cbn [view_store selectedCardId].
        rewrite Hid in *. rewrite decide_False in * by done.
        unfold updateCardTitle. rewrite first_card_map_cards, Hsel.
        -- cbn. by rewrite decide_True.
        -- intros c. by destruct (decide _).
      * apply all_titled_map_cards. intros c Hc. by destruct (decide _).
    + split; [done|]. split; [done|]. split; [done|]. split; [done|].
      split; [|done]. intros Ht. rewrite Hsel. f_equal.
      destruct (decide (trim (CardModal.titleValue m) = card_title card))
        as [->|Hnew]; [by destruct card|]. by destruct Hkeep.
  - unfold CardModal.handleDescriptionSave. cbn [fst snd].
    destruct (decide _); cbn [view_store selectedCardId];
      (split; [done|]); (split; [done|]); (split; [done|]); (split; [done|]);
      [|done].
    apply all_titled_map_cards. intros c Hc. by destruct (decide _).
  - unfold CardModal.handleEscape. rewrite decide_True by done.
    destruct (CardModal.isEditingTitle m); [done|].
    by destruct (CardModal.isEditingDescription m).
Qed.

(** * Instances of the further properties *)

(** X1: an instance of [addCard_unknown_column_is_noop]. *)
Lemma addCard_unknown_column_is_noop_witness :
  addCard tick 99 "Lost" sample_board = sample_board.
Proof. apply addCard_unknown_column_is_noop. by_computation. Defined.

(** X6: an instance of [addComment_appends_one_comment]. *)
Lemma addComment_appends_one_comment_witness :
  ∃ column' card',
    columns (addComment "1700000000000" tick 1 "Looks good" sample_board) !! 0%nat
    = Some column' ∧
    items column' !! 0%nat = Some card' ∧
    card_comments card'
    = [mkComment "1700000000000" "Looks good" (Some "User"%string) tick].
Proof.
  destruct (addComment_appends_one_comment "1700000000000" tick 1 "Looks good"
              sample_board 0 0
              (mkColumn 10 "Todo" [sample_card 1; sample_card 2]) (sample_card 1)
              eq_refl eq_refl)
    as ((column' & card' & Hc & Hk & _ & _ & _ & _ & Hcomments) & _).
  exists column', card'. split; [exact Hc|]. split; [exact Hk|].
  exact Hcomments.
Defined.

(** X7: an instance of [card_field_updates]. *)
Lemma card_field_updates_witness :
  ∃ column',
    columns (updateCardTitle 2 "Renamed" sample_board) !! 0%nat = Some column' ∧
    items column' !! 1%nat = Some (mkCard 2 "Renamed" None []).
Proof.
  destruct (card_field_updates 2 "Renamed" "Details" sample_board 0 1
              (mkColumn 10 "Todo" [sample_card 1; sample_card 2]) (sample_card 2)
              eq_refl eq_refl)
    as ((column' & Hc & Hk) & _).
  exists column'. split; [exact Hc|exact Hk].
Defined.

(** X9: an instance of [reorderColumns_by_rearrangement]. *)
Lemma reorderColumns_by_rearrangement_witness :
  column_ids (reorderColumns [20; 10] sample_board) = [20; 10].
Proof.
  apply reorderColumns_by_rearrangement; [by_computation|].
  apply perm_swap.
Defined.

(** X10: an instance of
    [reorderCardsInColumn_own_order_or_unknown_column]. *)
Lemma reorderCardsInColumn_own_order_witness :
  reorderCardsInColumn 10 [1; 2] sample_board = sample_board.
Proof.
  assert (Hinv : board_inv sample_board) by (split; by_computation).
  apply (proj1 (reorderCardsInColumn_own_order_or_unknown_column 10
                  sample_board Hinv)
           (mkColumn 10 "Todo" [sample_card 1; sample_card 2])).
  reflexivity.
Defined.

(** X11: an instance of [moveCard_there_and_back]. *)
Lemma moveCard_there_and_back_witness :
  moveCard 1 20 10 0 (moveCard 1 10 20 1 busy_board) = busy_board.
Proof.
  apply (moveCard_there_and_back 10 20 1 0
           (mkColumn 10 "Todo" [sample_card 1; sample_card 2]) (sample_card 1)
           busy_board).
  - split; by_computation.
  - reflexivity.
  - reflexivity.
  - by_computation.
  - discriminate.
Defined.

(** X14: an instance of [handleDragOver_preview_is_well_formed]. *)
Lemma handleDragOver_preview_is_well_formed_witness :
  dragPosition (handleDragOver card_1_over_card_3 busy_world)
  = Some (mkDragPosition 1 10 20 0) ∧
  0 ≤ 0 ≤ Z.of_nat (length [sample_card 3; sample_card 4]).
Proof.
  pose proof (handleDragOver_preview_is_well_formed card_1_over_card_3
                (mkEntity 3 (Some "card"%string)) busy_world eq_refl eq_refl)
    as Hpreview.
  assert (E : dragPosition (handleDragOver card_1_over_card_3 busy_world)
              = Some (mkDragPosition 1 10 20 0)) by reflexivity.
  rewrite E in Hpreview. split; [exact E|].
  destruct Hpreview as (_ & fromColumn & toColumn & _ & _ & _ & Hto & Hid & _ & _).
  lia.
Defined.

(** X16: an instance of [card_drag_keeps_the_cards]. *)
Lemma card_drag_keeps_the_cards_witness :
  board_inv
    (store (handleDragEnd card_1_over_card_3
              (handleDragOver card_1_over_card_3 busy_world))).
Proof.
  apply (card_drag_keeps_the_cards card_1_over_card_3 card_1_over_card_3
           busy_world).
  - split; by_computation.
  - reflexivity.
Defined.

(** X17: an instance of [column_drop_moves_the_column], on Scenario C. *)
Lemma column_drop_moves_the_column_witness :
  columns (store (handleDragEnd done_onto_todo seed_world))
  = insert_at 0 (mkColumn 3 "Done" []) (delete 2%nat initialColumns).
Proof.
  apply (column_drop_moves_the_column done_onto_todo
           (mkEntity 3453453434 (Some "column"%string)) seed_world 2 0
           (mkColumn 3 "Done" [])
           (mkColumn 3453453434 "Todo"
              [ mkCard 123134 "Create interview" None [];
                mkCard 12423423434 "Review Drag & Drop" None [] ]));
    try reflexivity.
  by_computation.
Defined.

(** X18: an instance of [same_column_drop_places_the_card]. *)
Lemma same_column_drop_places_the_card_witness :
  columns (store (handleDragEnd card_1_over_card_2 reorder_world))
  = <[0%nat := mkColumn 10 "Todo" [sample_card 2; sample_card 1]]>
      (columns busy_board).
Proof.
  apply (same_column_drop_places_the_card card_1_over_card_2
           (mkEntity 2 (Some "card"%string)) reorder_world 0 0 1
           (mkColumn 10 "Todo" [sample_card 1; sample_card 2]) (sample_card 1));
    try reflexivity.
  split; by_computation.
Defined.

(** X19: an instance of [card_dropped_in_another_column]. *)
Lemma card_dropped_in_another_column_witness :
  store_calls (handleDragEnd card_1_over_card_3
                 (handleDragOver card_1_over_card_3 busy_world))
  = [MoveCard 1 10 20 0] ∧
  columns (store (handleDragEnd card_1_over_card_3
                    (handleDragOver card_1_over_card_3 busy_world)))
  = [ mkColumn 10 "Todo" [sample_card 2];
      mkColumn 20 "Done" [sample_card 1; sample_card 3; sample_card 4] ].
Proof.
  destruct (card_dropped_in_another_column card_1_over_card_3
              (mkEntity 3 (Some "card"%string)) busy_world 0 1 0 0
              (mkColumn 10 "Todo" [sample_card 1; sample_card 2])
              (mkColumn 20 "Done" [sample_card 3; sample_card 4])
              (sample_card 1))
    as (Hcalls & Hcols & _); try reflexivity.
  - by_computation.
  - left. reflexivity.
  - discriminate.
  - split; [exact Hcalls|exact Hcols].
Defined.

(** X24: an instance of [formatDate_label_ranges]: a comment of a hundred
    seconds ago is labelled one minute old. *)
Lemma formatDate_label_ranges_witness :
  CardModal.formatDate (tick + 100000) tick = CardModal.MinutesAgo 1 ∧
  1 ≤ 1 < 60 ∧ 60000 * 1 ≤ tick + 100000 - tick < 60000 * (1 + 1).
Proof.
  split; [reflexivity|].
  apply (formatDate_label_ranges (tick + 100000) tick). unfold tick. lia.
Defined.

(** X25: an instance of [card_dialog_edits_the_shown_card]. *)
Lemma card_dialog_edits_the_shown_card_witness :
  selectedCard (card_dialog_title_save (λ s, s) editing_title shown_card_1).2
  = Some (mkCard 1 "Renamed" None []).
Proof.
  destruct (card_dialog_edits_the_shown_card (λ s, s) editing_title shown_card_1
              (sample_card 1) eq_refl)
    as ((_ & _ & _ & _ & Hshown & _) & _).
  apply Hshown. discriminate.
Defined.
